(** * FeedbackAnalyzer: the mapping stage and the batch categorizer

    A shallow embedding of the two API routes of the repository:
    - [Analyze]: [src/app/api/analyze/route.ts], column-mapping inference
      with validation and repair of the proposed mapping;
    - [Process]: the [/api/process] route, the batched categorization loop,
      the statistics fold, the summary and the persistence step, with the
      stream of events it enqueues.

    JavaScript values are modelled as the routes use them: a string is a
    sequence of UTF-16 code units, here restricted to the code units below
    256 (one [ascii] each); a spreadsheet row is an object with own
    properties only, kept as an association list in property order; the
    LLM, the summarizer and the store are collaborators given as
    functions whose answer may be a failure. The consumer of the stream
    keeps reading, so that enqueueing a chunk never throws; the upload and
    the parsing of the workbook are not modelled, the mapping stage starts
    from the parsed rows. *)

From Stdlib Require Import List String Ascii Arith Bool Lia DecimalString.
Import ListNotations.
Open Scope string_scope.
Open Scope nat_scope.

(** ** JavaScript primitives *)

Module Js.

(** [\s] of a regular expression and the white space of [trim()], for code
    units below 256: TAB, LF, VT, FF, CR, SPACE and NBSP. *)
Definition is_space (c : ascii) : bool :=
  let n := nat_of_ascii c in
  ((9 <=? n) && (n <=? 13)) || (n =? 32) || (n =? 160).

(** [toLowerCase()] on one code unit: A-Z, and the Latin-1 capitals
    U+00C0..U+00DE except the multiplication sign U+00D7. *)
Definition lower_char (c : ascii) : ascii :=
  let n := nat_of_ascii c in
  if ((65 <=? n) && (n <=? 90))
     || ((192 <=? n) && (n <=? 222) && negb (n =? 215))
  then ascii_of_nat (n + 32) else c.

Fixpoint toLowerCase (s : string) : string :=
  match s with
  | EmptyString => EmptyString
  | String c s' => String (lower_char c) (toLowerCase s')
  end.

Fixpoint trimStart (s : string) : string :=
  match s with
  | EmptyString => EmptyString
  | String c s' => if is_space c then trimStart s' else s
  end.

Fixpoint trimEnd (s : string) : string :=
  match s with
  | EmptyString => EmptyString
  | String c s' =>
      match trimEnd s' with
      | EmptyString => if is_space c then EmptyString else String c EmptyString
      | t => String c t
      end
  end.

Definition trim (s : string) : string := trimEnd (trimStart s).

(** [s.replace(/\s+/g, '_')]: every maximal run of white space becomes one
    underscore. [in_run] tells that the previous code unit was white space. *)
Fixpoint replace_ws_from (in_run : bool) (s : string) : string :=
  match s with
  | EmptyString => EmptyString
  | String c s' =>
      if is_space c
      then (if in_run then replace_ws_from true s'
            else String "_" (replace_ws_from true s'))
      else String c (replace_ws_from false s')
  end.

Definition replace_ws (s : string) : string := replace_ws_from false s.

(** [s.trim().toLowerCase().replace(/\s+/g, '_')], the normalization both
    passes of the categorizer apply. *)
Definition normalize (s : string) : string :=
  replace_ws (toLowerCase (trim s)).

(** A string is falsy exactly when it is empty. *)
Definition falsy_str (s : string) : bool :=
  match s with EmptyString => true | _ => false end.

(** [a || b] on strings. *)
Definition or_str (a b : string) : string := if falsy_str a then b else a.

(** [xs.join(sep)] *)
Fixpoint join (sep : string) (xs : list string) : string :=
  match xs with
  | [] => ""
  | [x] => x
  | x :: rest => x ++ sep ++ join sep rest
  end.

(** A number in a template literal. *)
Definition nat_to_string (n : nat) : string :=
  NilZero.string_of_uint (Nat.to_uint n).

Definition nl : string := String (ascii_of_nat 10) EmptyString.

(** A value read from a row: a cell as it arrives in a parsed row, or a
    member that the row inherits from [Object.prototype]. A number is kept
    as its canonical rendering [String(n)], which identifies a finite
    number up to the sign of zero, so that [===] on numbers is equality of
    renderings. [JFunction name] is the built-in function of that name and
    [JObject] is [Object.prototype] itself. *)
Inductive JsValue : Type :=
  | JStr (s : string)
  | JNum (repr : string)
  | JBool (b : bool)
  | JNull
  | JFunction (name : string)
  | JObject.

(** [String(v)]; a built-in function reads as its source text. *)
Definition String_ (v : JsValue) : string :=
  match v with
  | JStr s => s
  | JNum r => r
  | JBool true => "true"
  | JBool false => "false"
  | JNull => "null"
  | JFunction name => "function " ++ name ++ "() { [native code] }"
  | JObject => "[object Object]"
  end.

(** [v ?? d], with [None] for [undefined]. *)
Definition nullish (v : option JsValue) (d : JsValue) : JsValue :=
  match v with
  | Some JNull | None => d
  | Some x => x
  end.

(** [v === s] for a string [s]. *)
Definition strict_eq_str (v : JsValue) (s : string) : bool :=
  match v with
  | JStr t => String.eqb t s
  | _ => false
  end.

(** A row object: own properties in property order, keys distinct. *)
Definition Row : Type := list (string * JsValue).

(** The own property [key] of [row], if it has one. *)
Fixpoint getOwn (row : Row) (key : string) : option JsValue :=
  match row with
  | [] => None
  | (k, v) :: rest => if String.eqb k key then Some v else getOwn rest key
  end.

(** The functions of [Object.prototype], each with the name it has. *)
Definition prototypeFunctions : list (string * string) :=
  [("constructor", "Object");
   ("__defineGetter__", "__defineGetter__");
   ("__defineSetter__", "__defineSetter__");
   ("hasOwnProperty", "hasOwnProperty");
   ("__lookupGetter__", "__lookupGetter__");
   ("__lookupSetter__", "__lookupSetter__");
   ("isPrototypeOf", "isPrototypeOf");
   ("propertyIsEnumerable", "propertyIsEnumerable");
   ("toString", "toString");
   ("valueOf", "valueOf");
   ("toLocaleString", "toLocaleString")].

Fixpoint functionNamed (key : string) (functions : list (string * string))
  : option string :=
  match functions with
  | [] => None
  | (k, name) :: rest =>
      if String.eqb k key then Some name else functionNamed key rest
  end.

(** What a plain object inherits under [key]: a function of
    [Object.prototype], or the prototype itself under [__proto__]. *)
Definition inherited (key : string) : option JsValue :=
  if String.eqb key "__proto__" then Some JObject
  else option_map JFunction (functionNamed key prototypeFunctions).

(** [row[key]]: the own property, or else the inherited member. *)
Definition get (row : Row) (key : string) : option JsValue :=
  match getOwn row key with
  | Some v => Some v
  | None => inherited key
  end.

Definition isDigit (c : ascii) : bool :=
  let n := nat_of_ascii c in (48 <=? n) && (n <=? 57).

Fixpoint allDigits (s : string) : bool :=
  match s with
  | EmptyString => true
  | String c s' => isDigit c && allDigits s'
  end.

(** A property name on which a plain object used as a map behaves as a
    list of entries in insertion order: it names no member that objects
    inherit, and it is not a run of digits (the names that look like array
    indices are listed first, in ascending order). *)
Definition ordinaryKey (key : string) : bool :=
  match inherited key with
  | Some _ => false
  | None => falsy_str key || negb (allDigits key)
  end.

(** [{...row, [key]: v}]: an existing property keeps its place and takes
    the new value, a new one goes last. *)
Fixpoint set (row : Row) (key : string) (v : JsValue) : Row :=
  match row with
  | [] => [(key, v)]
  | (k, w) :: rest =>
      if String.eqb k key then (k, v) :: rest else (k, w) :: set rest key v
  end.

(** [Object.keys(row)] *)
Definition keys (row : Row) : list string := map fst row.

(** [xs.includes(x)] on strings. *)
Definition includes (xs : list string) (x : string) : bool :=
  existsb (String.eqb x) xs.

(** [xs.map((x, index) => f x index)], indices counted from [start]. *)
Fixpoint mapi_from {A B : Type} (start : nat) (f : A -> nat -> B)
  (xs : list A) : list B :=
  match xs with
  | [] => []
  | x :: rest => f x start :: mapi_from (S start) f rest
  end.

Definition mapi {A B : Type} (f : A -> nat -> B) (xs : list A) : list B :=
  mapi_from 0 f xs.

(** [xs.slice(from, to)] for [from <= to]. *)
Definition slice {A : Type} (from to : nat) (xs : list A) : list A :=
  firstn (to - from) (skipn from xs).

End Js.

(** ** Data shared by the two routes *)

Record QuestionHeaderInfo : Type := mkQuestionHeaderInfo {
  header : string;
  isCategorical : bool
}.

(** [process.env]: a variable is absent or holds a string. *)
Record Env : Type := mkEnv {
  SUPABASE_URL : option string;
  SUPABASE_ANON_KEY : option string;
  USE_MOCK_LLM : option string
}.

(** [!process.env.X]: the variable is absent or empty. *)
Definition env_missing (v : option string) : bool :=
  match v with
  | None => true
  | Some s => Js.falsy_str s
  end.

(** ** The mapping stage: [src/app/api/analyze/route.ts] *)

Module Analyze.
Import Js.

Definition GENERATED_ID_HEADER : string := "__generated_row_id__".

(** The object of [mappingSchema]; [studentIdHeader] is nullable. *)
Record Mapping : Type := mkMapping {
  studentIdHeader : option string;
  questionHeaders : list QuestionHeaderInfo
}.

(** What awaiting [generateObject] gives: the object, or a thrown error. *)
Inductive MappingOutcome : Type :=
  | MappingObject (proposedMapping : Mapping)
  | MappingThrow (message : string).

(** The JSON responses of the route, from the parsed rows on. *)
Inductive Response : Type :=
  | Json200 (runId : string) (proposedMapping : Mapping) (rows : list Row)
  | Json400 (error : string)
  | Json500 (error details : string).

(** [getSupabaseCredentials]: [inl] is the thrown message. *)
Definition getSupabaseCredentials (env : Env) : string + unit :=
  if env_missing (SUPABASE_URL env)
  then inl "Missing environment variable: SUPABASE_URL"
  else if env_missing (SUPABASE_ANON_KEY env)
  then inl "Missing environment variable: SUPABASE_ANON_KEY"
  else inr tt.

(** [Object.keys(rows[0])] *)
Definition firstRowKeys (rows : list Row) : list string :=
  match rows with
  | [] => []
  | row :: _ => keys row
  end.

Definition mappingPrompt (allHeaders : list string) : string :=
  "Analyze the following spreadsheet headers. Identify:" ++ nl ++
  "1. The single header that most likely represents a unique identifier for the respondent/source (e.g., name, email, ID). If none found, return null for studentIdHeader." ++ nl ++
  "2. All headers that represent the actual feedback questions asked." ++ nl ++
  "3. For EACH feedback question header identified, determine if it expects a categorical/quantitative answer (isCategorical=true - e.g., number ranges, ratings, yes/no, selection from list) OR free-form qualitative feedback (isCategorical=false)." ++ nl ++
  "Ignore irrelevant metadata columns unless they are the primary identifier." ++ nl ++
  "Respond *only* with a JSON object matching the provided schema." ++ nl ++
  nl ++
  "Headers:" ++ nl ++
  join ", " allHeaders.

(** The local variables of step 4.4 after the identifier has been resolved. *)
Record Resolved : Type := mkResolved {
  resolvedId : string;
  studentIdHeaderIsGenerated : bool;
  resolvedRows : list Row;
  resolvedHeaders : list string
}.

(** [rows.map((row, index) => ({...row, [GENERATED_ID_HEADER]: `Row ${index + 1}`}))] *)
Definition addGeneratedId (rows : list Row) : list Row :=
  mapi (fun row index =>
          set row GENERATED_ID_HEADER (JStr ("Row " ++ nat_to_string (index + 1))))
       rows.

Definition fallbackId (rows : list Row) : Resolved :=
  let rows' := addGeneratedId rows in
  mkResolved GENERATED_ID_HEADER true rows' (firstRowKeys rows').

(** "Check if studentIdHeader is null or invalid" *)
Definition resolveStudentId (proposed : option string) (rows : list Row)
  (allHeaders : list string) : Resolved :=
  match proposed with
  | None => fallbackId rows
  | Some h =>
      if includes allHeaders h
      then mkResolved h false rows allHeaders
      else fallbackId rows
  end.

Definition header_is (h : string) (qh : QuestionHeaderInfo) : bool :=
  String.eqb (header qh) h.

(** [questionHeaders.filter(qh => qh.header !== studentIdHeader)] *)
Definition withoutHeader (h : string) (qhs : list QuestionHeaderInfo)
  : list QuestionHeaderInfo :=
  filter (fun qh => negb (header_is h qh)) qhs.

Definition invalidHeaders (allHeaders : list string)
  (qhs : list QuestionHeaderInfo) : list string :=
  filter (fun h => negb (includes allHeaders h)) (map header qhs).

Definition invalidMessage (invalid allHeaders : list string) : string :=
  "LLM proposed questionHeaders contain invalid headers not found in the sheet (or generated ID): "
  ++ join ", " invalid ++ ". Actual headers: " ++ join ", " allHeaders.

(** "Validate Question Headers (after potential ID generation)": [inl] is
    the thrown message, [inr] the local [questionHeaders] afterwards, which
    is also [proposedMapping.questionHeaders]. *)
Definition validateQuestionHeaders (r : Resolved)
  (questionHeaders : list QuestionHeaderInfo)
  : string + list QuestionHeaderInfo :=
  let invalidQuestionHeaders := invalidHeaders (resolvedHeaders r) questionHeaders in
  if 0 <? List.length invalidQuestionHeaders then
    if studentIdHeaderIsGenerated r
       && (List.length invalidQuestionHeaders =? 1)
       && String.eqb (hd "" invalidQuestionHeaders) (resolvedId r)
    then inr (withoutHeader (resolvedId r) questionHeaders)
    else inl (invalidMessage invalidQuestionHeaders (resolvedHeaders r))
  else inr questionHeaders.

(** "Final check: Ensure student ID header is not also listed as a question
    header": the value of [proposedMapping.questionHeaders] afterwards. *)
Definition finalCheck (studentIdHeader : string)
  (questionHeaders : list QuestionHeaderInfo) : list QuestionHeaderInfo :=
  if existsb (header_is studentIdHeader) questionHeaders
  then withoutHeader studentIdHeader questionHeaders
  else questionHeaders.

(** Step 4.4 as a whole: the validated mapping with the rows, or the
    message of the error thrown. [proposedMapping.studentIdHeader] is
    written only by the fallback, to the value the local variable has. *)
Definition validateMapping (rows : list Row) (proposedMapping : Mapping)
  : string + (Mapping * list Row) :=
  let r := resolveStudentId (studentIdHeader proposedMapping) rows
             (firstRowKeys rows) in
  match validateQuestionHeaders r (questionHeaders proposedMapping) with
  | inl message => inl message
  | inr questionHeaders' =>
      inr (mkMapping (if studentIdHeaderIsGenerated r
                      then Some (resolvedId r)
                      else studentIdHeader proposedMapping)
                     (finalCheck (resolvedId r) questionHeaders'),
           resolvedRows r)
  end.

(** The route from the rows of the first sheet on. Everything runs inside
    one [try]; whatever is thrown ends in the 500 response. *)
Definition POST (env : Env) (runId : string) (rows : list Row)
  (generateObject : string -> MappingOutcome) : Response :=
  match getSupabaseCredentials env with
  | inl message => Json500 "Failed to process request" message
  | inr _ =>
      if List.length rows =? 0
      then Json400 "Spreadsheet is empty or the first sheet has no data."
      else
        match generateObject (mappingPrompt (firstRowKeys rows)) with
        | MappingThrow message => Json500 "Failed to process request" message
        | MappingObject proposedMapping =>
            match validateMapping rows proposedMapping with
            | inl message => Json500 "Failed to process request" message
            | inr (mapping, rows') => Json200 runId mapping rows'
            end
        end
  end.

End Analyze.

(** ** The batch categorizer: the [/api/process] route *)

Module Process.
Import Js.

Definition BATCH_SIZE : nat := 50.
Definition SUB_CATEGORY_DEFAULT : string := "detail_na".

Record ConfirmedMapping : Type := mkConfirmedMapping {
  studentIdHeader : string;
  questionHeaders : list QuestionHeaderInfo
}.

Inductive Sentiment : Type := positive | negative | neutral | na.

Definition sentiment_string (s : Sentiment) : string :=
  match s with
  | positive => "positive"
  | negative => "negative"
  | neutral => "neutral"
  | na => "n/a"
  end.

(** The objects of [categorizedAnswerSchema] and [categorizedStudentSchema].
    The route reads [topic] and [sentiment] defensively ([?.], [||]), so
    they are optional here as [sub_category] is in the schema. *)
Module Llm.
Record CategorizedAnswer : Type := mkCategorizedAnswer {
  question : string;
  topic : option string;
  sentiment : option Sentiment;
  sub_category : option string
}.
Record CategorizedStudent : Type := mkCategorizedStudent {
  respondentId : string;
  categorizations : list CategorizedAnswer
}.
End Llm.

(** A record of [allRunCategorizations]. *)
Record Categorization : Type := mkCategorization {
  run_id : string;
  student_identifier : JsValue;
  question_text : string;
  original_answer : JsValue;
  topic : option string;
  sentiment : option string;
  sub_category : option string
}.

(** [QuestionStats] and [RunStats]: objects used as maps, in property
    order. The lists stand for the objects when the question texts and the
    combined keys are ordinary keys ([Js.ordinaryKey]): under a name that
    objects inherit, [acc[question_text]] is the inherited member and no
    entry is created, and names that look like array indices change the
    order. The statements about the content of the statistics carry this
    as a hypothesis. *)
Definition QuestionStats : Type := list (string * nat).
Definition RunStats : Type := list (string * QuestionStats).

Inductive StreamMessage : Type :=
  | batchStart (index total : nat)
  | result (data : Llm.CategorizedStudent)
  | stats (data : RunStats)
  | summary (text : string)
  | error (message : string) (batchIndex : option nat)
  | complete (message : string).

(** A value caught by [catch]: an [Error] with its message, or anything
    else. *)
Inductive Thrown : Type :=
  | ErrorObject (message : string)
  | NotAnError.

(** [e instanceof Error ? e.message : fallback] *)
Definition messageOf (e : Thrown) (fallback : string) : string :=
  match e with
  | ErrorObject message => message
  | NotAnError => fallback
  end.

(** What the awaited call of the qualitative pass gives. *)
Inductive LlmOutcome : Type :=
  | LlmObject (object : list Llm.CategorizedStudent)
  | LlmNull
  | LlmThrow (e : Thrown).

Inductive TextOutcome : Type :=
  | TextOk (text : string)
  | TextThrow (e : Thrown).

(** [upsertError] is an object whose [message] may be empty. *)
Inductive UpsertOutcome : Type :=
  | UpsertOk
  | UpsertError (message : string)
  | UpsertThrow (e : Thrown).

Record FinalRunData : Type := mkFinalRunData {
  categorizations : list Categorization;
  statistics : RunStats;
  summaryOf : string
}.

(** The collaborators of one request. [analyzeFeedbackBatch] stands for
    the call in the [try] of the qualitative pass, [mockAnalyzeFeedbackBatch]
    or [generateObject] with the schema, on the batch prompt; its first
    argument is the number of the batch that calls. [generateText] is given
    the statistics its prompt serializes. *)
Record Collaborators : Type := mkCollaborators {
  analyzeFeedbackBatch : nat -> string -> LlmOutcome;
  generateText : RunStats -> TextOutcome;
  upsert : string -> FinalRunData -> UpsertOutcome
}.

Record Request : Type := mkRequest {
  runId : string;
  confirmedMapping : option ConfirmedMapping;
  rows : list Row
}.

(** The variables of [start(controller)] that the batch loop writes, with
    the chunks enqueued so far and the calls made to the LLM. *)
Record RunState : Type := mkRunState {
  sent : list StreamMessage;
  allRunCategorizations : list Categorization;
  identifiedTopics : list string;
  identifiedSubCategories : list string;
  llmCalls : list (nat * string)
}.

Definition initialState : RunState := mkRunState [] [] [] [] [].

Definition sendStreamMessage (message : StreamMessage) (st : RunState) : RunState :=
  mkRunState (sent st ++ [message]) (allRunCategorizations st)
    (identifiedTopics st) (identifiedSubCategories st) (llmCalls st).

(** [allRunCategorizations.push(...)] for each record in turn. *)
Definition pushAll (records : list Categorization) (st : RunState) : RunState :=
  mkRunState (sent st) (allRunCategorizations st ++ records)
    (identifiedTopics st) (identifiedSubCategories st) (llmCalls st).

Definition recordCall (batchNumber : nat) (prompt : string) (st : RunState)
  : RunState :=
  mkRunState (sent st) (allRunCategorizations st)
    (identifiedTopics st) (identifiedSubCategories st)
    (llmCalls st ++ [(batchNumber, prompt)]).

Definition setContext (topics subCategories : list string) (st : RunState)
  : RunState :=
  mkRunState (sent st) (allRunCategorizations st) topics subCategories
    (llmCalls st).

(** [set.add(x)] on a [Set<string>] kept in insertion order. *)
Definition add (set : list string) (x : string) : list string :=
  if includes set x then set else (set ++ [x])%list.

Definition isQualitative (q : QuestionHeaderInfo) : bool := negb (isCategorical q).

Definition header_is (h : string) (q : QuestionHeaderInfo) : bool :=
  String.eqb (header q) h.

(** [row[studentIdHeader] ?? `Row ${i + index + 1} (No ID)`] *)
Definition respondentIdOf (studentIdHeader : string) (i : nat) (row : Row)
  (index : nat) : JsValue :=
  nullish (get row studentIdHeader)
          (JStr ("Row " ++ nat_to_string (i + index + 1) ++ " (No ID)")).

(** *** Categorical pass *)

Definition categoricalRecord (runId studentIdHeader : string) (i : nat)
  (row : Row) (index : nat) (qInfo : QuestionHeaderInfo) : Categorization :=
  let respondentId := respondentIdOf studentIdHeader i row index in
  let question := header qInfo in
  let answer := get row question in
  let normalizedAnswer :=
    or_str (normalize (String_ (nullish answer (JStr "")))) SUB_CATEGORY_DEFAULT in
  let topic := normalize question in
  mkCategorization runId respondentId question
    (JStr (String_ (nullish answer (JStr ""))))
    (Some topic) (Some "n/a") (Some normalizedAnswer).

Definition categoricalPass (runId studentIdHeader : string)
  (categoricalQuestions : list QuestionHeaderInfo) (i : nat) (batch : list Row)
  : list Categorization :=
  List.concat (mapi (fun row index =>
                  map (categoricalRecord runId studentIdHeader i row index)
                      categoricalQuestions)
               batch).

(** *** Prompt of the qualitative pass *)

Record AnswerItem : Type := mkAnswerItem {
  itemQuestion : string;
  itemAnswer : JsValue
}.

Record PromptItem : Type := mkPromptItem {
  itemRespondentId : JsValue;
  answers : list AnswerItem
}.

(** [String(a.answer ?? '').trim() !== ''] *)
Definition answered (a : AnswerItem) : bool :=
  negb (falsy_str (trim (String_ (nullish (Some (itemAnswer a)) (JStr ""))))).

Definition batchInputForPrompt (studentIdHeader : string)
  (qualitativeQuestions : list QuestionHeaderInfo) (i : nat) (batch : list Row)
  : list PromptItem :=
  mapi (fun row index =>
          mkPromptItem (respondentIdOf studentIdHeader i row index)
            (map (fun qInfo =>
                    mkAnswerItem (header qInfo)
                                 (nullish (get row (header qInfo)) (JStr "")))
                 qualitativeQuestions))
       batch.

Definition qualitativeDataExistsInBatch (input : list PromptItem) : bool :=
  existsb (fun item => existsb answered (answers item)) input.

Definition PROMPT_INSTRUCTIONS : string :=
  "You are analyzing feedback. For each respondent listed below, analyze ONLY their answers to the provided QUALITATIVE questions. " ++
  "For each answer, identify the **main topic**, the **sentiment** expressed ('positive', 'negative', 'neutral', 'n/a'), " ++
  "and optionally, a **professional and concise sub_category** summarizing the specific REASON for the sentiment (e.g., 'schedule_conflict', 'instructor_clarity', 'difficult_navigation', 'helpful_support_staff'). Sub-category titles should sound like formal report points. **CRITICAL: Before creating a NEW sub_category, check if any existing sub_category under the SAME topic and sentiment (see list below, if provided) accurately represents the feedback's core reason. Strongly prefer reusing an existing sub-category if the meaning is similar.** Only create a new sub-category if the reason is genuinely distinct and cannot be captured by existing ones. Only include sub_category if a specific reason is clearly stated or implied. " ++
  "Respond *only* with a JSON array matching the schema." ++ nl.

(** "Add context (topics/subcategories identified from PREVIOUS qualitative
    analysis)" *)
Definition topicContext (batchNumber : nat) (topics : list string) : string :=
  if (1 <? batchNumber) && (0 <? List.length topics)
  then nl ++ "Previously identified topics: [" ++ join ", " (slice 0 30 topics)
       ++ "]. Reuse these if appropriate."
  else "".

Definition subCategoryContext (batchNumber : nat) (subCategories : list string)
  : string :=
  if (1 <? batchNumber) && (0 <? List.length subCategories)
  then nl ++ "Previously identified sub-categories: ["
       ++ join ", " (slice 0 50 subCategories)
       ++ "]. Reuse these specific reasons if appropriate."
  else "".

Definition promptOfItem (item : PromptItem) : string :=
  if existsb answered (answers item)
  then nl ++ "Respondent ID: " ++ String_ (itemRespondentId item) ++ nl
       ++ String.concat ""
            (map (fun qa => "  Question: " ++ itemQuestion qa ++ nl
                            ++ "  Answer: " ++ String_ (itemAnswer qa) ++ nl)
                 (answers item))
       ++ "---" ++ nl
  else "".

Definition batchPrompt (batchNumber : nat) (topics subCategories : list string)
  (input : list PromptItem) : string :=
  PROMPT_INSTRUCTIONS
  ++ topicContext batchNumber topics
  ++ subCategoryContext batchNumber subCategories
  ++ nl ++ nl ++ "Input Data (Qualitative Only):" ++ nl
  ++ String.concat "" (map promptOfItem input).

(** *** Parsing and normalization of the LLM result *)

(** [cat.topic?.trim().toLowerCase().replace(/\s+/g, '_') || 'n/a'] *)
Definition normalizedTopicOf (cat : Llm.CategorizedAnswer) : string :=
  match Llm.topic cat with
  | Some t => or_str (normalize t) "n/a"
  | None => "n/a"
  end.

(** [cat.sub_category?.trim()... || null], then [''] to [null]. *)
Definition normalizedSubCategoryOf (cat : Llm.CategorizedAnswer) : option string :=
  match Llm.sub_category cat with
  | Some s => if falsy_str (normalize s) then None else Some (normalize s)
  | None => None
  end.

(** The body of the inner [forEach]: the categorization is rewritten in
    place and the two sets grow. *)
Definition normalizeCategorization (cat : Llm.CategorizedAnswer)
  (ctx : list string * list string)
  : Llm.CategorizedAnswer * (list string * list string) :=
  let (topics, subCategories) := ctx in
  let normalizedTopic := normalizedTopicOf cat in
  let topics' :=
    if negb (String.eqb normalizedTopic "n/a") then add topics normalizedTopic
    else topics in
  let sentiment' :=
    match Llm.sentiment cat with Some s => s | None => neutral end in
  let normalizedSubCategory := normalizedSubCategoryOf cat in
  let subCategories' :=
    match normalizedSubCategory with
    | Some s => add subCategories s
    | None => subCategories
    end in
  (Llm.mkCategorizedAnswer (Llm.question cat) (Some normalizedTopic)
     (Some sentiment') normalizedSubCategory,
   (topics', subCategories')).

Fixpoint normalizeCategorizations (cats : list Llm.CategorizedAnswer)
  (ctx : list string * list string)
  : list Llm.CategorizedAnswer * (list string * list string) :=
  match cats with
  | [] => ([], ctx)
  | cat :: rest =>
      let (cat', ctx1) := normalizeCategorization cat ctx in
      let (rest', ctx2) := normalizeCategorizations rest ctx1 in
      (cat' :: rest', ctx2)
  end.

Fixpoint normalizeResult (object : list Llm.CategorizedStudent)
  (ctx : list string * list string)
  : list Llm.CategorizedStudent * (list string * list string) :=
  match object with
  | [] => ([], ctx)
  | studentResult :: rest =>
      let (cats', ctx1) :=
        normalizeCategorizations (Llm.categorizations studentResult) ctx in
      let (rest', ctx2) := normalizeResult rest ctx1 in
      (Llm.mkCategorizedStudent (Llm.respondentId studentResult) cats' :: rest',
       ctx2)
  end.

(** *** Accumulation of the LLM result *)

(** [batch.find((row, index) => (row[studentIdHeader] ?? ...) === id)] *)
Fixpoint findOriginalRow (studentIdHeader : string) (i index : nat)
  (batch : list Row) (id : string) : option Row :=
  match batch with
  | [] => None
  | row :: rest =>
      if strict_eq_str (respondentIdOf studentIdHeader i row index) id
      then Some row
      else findOriginalRow studentIdHeader i (S index) rest id
  end.

Definition aiRecord (runId : string) (respondentId : string) (originalRow : Row)
  (categorization : Llm.CategorizedAnswer) : Categorization :=
  mkCategorization runId (JStr respondentId) (Llm.question categorization)
    (nullish (get originalRow (Llm.question categorization)) (JStr ""))
    (Llm.topic categorization)
    (option_map sentiment_string (Llm.sentiment categorization))
    (Llm.sub_category categorization).

(** "Ensure we only add results for questions processed by AI" *)
Definition processedByAi (qualitativeQuestions : list QuestionHeaderInfo)
  (categorization : Llm.CategorizedAnswer) : bool :=
  existsb (header_is (Llm.question categorization)) qualitativeQuestions.

Definition aiRecords (runId studentIdHeader : string)
  (qualitativeQuestions : list QuestionHeaderInfo) (i : nat) (batch : list Row)
  (respondentResult : Llm.CategorizedStudent) : list Categorization :=
  match findOriginalRow studentIdHeader i 0 batch
          (Llm.respondentId respondentResult) with
  | Some originalRow =>
      map (aiRecord runId (Llm.respondentId respondentResult) originalRow)
          (filter (processedByAi qualitativeQuestions)
                  (Llm.categorizations respondentResult))
  | None => []
  end.

(** The [for ... of] over the normalized result. *)
Fixpoint accumulate (runId studentIdHeader : string)
  (qualitativeQuestions : list QuestionHeaderInfo) (i : nat) (batch : list Row)
  (object : list Llm.CategorizedStudent) (st : RunState) : RunState :=
  match object with
  | [] => st
  | respondentResult :: rest =>
      let st1 := sendStreamMessage (result respondentResult) st in
      let st2 :=
        pushAll (aiRecords runId studentIdHeader qualitativeQuestions i batch
                           respondentResult) st1 in
      accumulate runId studentIdHeader qualitativeQuestions i batch rest st2
  end.

(** *** One turn of the batch loop *)

Definition batchError (batchNumber : nat) (message : string) : StreamMessage :=
  error ("Processing error in batch " ++ nat_to_string batchNumber ++ ": "
         ++ message)
        (Some batchNumber).

(** The [try] around the LLM call with its [catch]. *)
Definition qualitativePass (c : Collaborators) (runId studentIdHeader : string)
  (qualitativeQuestions : list QuestionHeaderInfo) (i batchNumber : nat)
  (batch : list Row) (input : list PromptItem) (st : RunState) : RunState :=
  let prompt :=
    batchPrompt batchNumber (identifiedTopics st) (identifiedSubCategories st)
                input in
  let st1 := recordCall batchNumber prompt st in
  match analyzeFeedbackBatch c batchNumber prompt with
  | LlmObject batchResultObject =>
      let (normalized, ctx) :=
        normalizeResult batchResultObject
          (identifiedTopics st1, identifiedSubCategories st1) in
      accumulate runId studentIdHeader qualitativeQuestions i batch normalized
        (setContext (fst ctx) (snd ctx) st1)
  | LlmNull =>
      sendStreamMessage
        (batchError batchNumber
           "LLM returned null or invalid object for qualitative data.") st1
  | LlmThrow llmError =>
      sendStreamMessage
        (batchError batchNumber
           (messageOf llmError "Unknown LLM/Processing error")) st1
  end.

(** "Only call AI if there are qualitative questions AND some data for
    them in this batch" *)
Definition callsAi (qualitativeQuestions : list QuestionHeaderInfo)
  (input : list PromptItem) : bool :=
  (0 <? List.length qualitativeQuestions) && qualitativeDataExistsInBatch input.

(** The body of the [for] loop at offset [i]; [i] is a multiple of
    [BATCH_SIZE], so [i / BATCH_SIZE] is exact. *)
Definition processBatch (c : Collaborators) (runId studentIdHeader : string)
  (questionHeaders : list QuestionHeaderInfo) (rows : list Row)
  (totalBatches i : nat) (st : RunState) : RunState :=
  let batch := slice i (i + BATCH_SIZE) rows in
  let batchNumber := i / BATCH_SIZE + 1 in
  let st1 := sendStreamMessage (batchStart batchNumber totalBatches) st in
  let qualitativeQuestions := filter isQualitative questionHeaders in
  let categoricalQuestions := filter isCategorical questionHeaders in
  let st2 :=
    pushAll (categoricalPass runId studentIdHeader categoricalQuestions i batch)
            st1 in
  let input := batchInputForPrompt studentIdHeader qualitativeQuestions i batch in
  if callsAi qualitativeQuestions input
  then qualitativePass c runId studentIdHeader qualitativeQuestions i batchNumber
         batch input st2
  else st2.

(** [for (let i = 0; i < rows.length; i += BATCH_SIZE)], from offset [i];
    [None] when the fuel runs out before the loop ends. *)
Fixpoint batchLoop (fuel : nat) (c : Collaborators) (runId studentIdHeader : string)
  (questionHeaders : list QuestionHeaderInfo) (rows : list Row)
  (totalBatches i : nat) (st : RunState) : option RunState :=
  if i <? List.length rows then
    match fuel with
    | 0 => None
    | S fuel' =>
        batchLoop fuel' c runId studentIdHeader questionHeaders rows totalBatches
          (i + BATCH_SIZE)
          (processBatch c runId studentIdHeader questionHeaders rows
             totalBatches i st)
    end
  else Some st.

(** [Math.ceil(n / BATCH_SIZE)] *)
Definition ceilDiv (n d : nat) : nat := (n + (d - 1)) / d.

(** *** Statistics *)

(** [qs[key] = (qs[key] || 0) + 1] *)
Fixpoint increment (key : string) (qs : QuestionStats) : QuestionStats :=
  match qs with
  | [] => [(key, 1)]
  | (k, n) :: rest =>
      if String.eqb k key then (k, n + 1) :: rest
      else (k, n) :: increment key rest
  end.

(** [if (!acc[q]) acc[q] = {}; acc[q][key] = (acc[q][key] || 0) + 1] *)
Fixpoint countIn (question key : string) (acc : RunStats) : RunStats :=
  match acc with
  | [] => [(question, [(key, 1)])]
  | (q, qs) :: rest =>
      if String.eqb q question then (q, increment key qs) :: rest
      else (q, qs) :: countIn question key rest
  end.

Definition falsy_opt (s : option string) : bool :=
  match s with
  | Some x => falsy_str x
  | None => true
  end.

Definition combinedCategoryOf (topic sentiment : string)
  (sub_category : option string) : string :=
  let subCategoryKey :=
    match sub_category with
    | Some s => or_str s SUB_CATEGORY_DEFAULT
    | None => SUB_CATEGORY_DEFAULT
    end in
  topic ++ "_" ++ sentiment ++ "_" ++ subCategoryKey.

(** The callback of [reduce]. *)
Definition statsStep (acc : RunStats) (record : Categorization) : RunStats :=
  match topic record, sentiment record with
  | Some t, Some s =>
      if falsy_str (question_text record) || falsy_str t || falsy_str s
      then acc
      else countIn (question_text record)
                   (combinedCategoryOf t s (sub_category record)) acc
  | _, _ => acc
  end.

Definition calculateStats (ledger : list Categorization) : RunStats :=
  fold_left statsStep ledger [].

(** *** After the loop: statistics, summary, persistence, completion *)

Definition DEFAULT_SUMMARY : string := "AI summary could not be generated.".

Definition MOCK_SUMMARY : string :=
  "Mock Summary: Feedback shows mixed results with some positive comments about X and negative comments about Y.".

(** [process.env.USE_MOCK_LLM === 'true'] *)
Definition useMockLlmOf (env : Env) : bool :=
  match USE_MOCK_LLM env with
  | Some s => String.eqb s "true"
  | None => false
  end.

(** "Generate AI Summary": the value of [summaryText] and the state. *)
Definition generateSummary (c : Collaborators) (useMockLlm : bool)
  (runStats : RunStats) (st : RunState) : string * RunState :=
  if (0 <? List.length runStats) && negb useMockLlm then
    match generateText c runStats with
    | TextOk text => (text, sendStreamMessage (summary text) st)
    | TextThrow summaryError =>
        (DEFAULT_SUMMARY,
         sendStreamMessage
           (error ("Failed to generate AI summary: "
                   ++ messageOf summaryError "Unknown error generating summary")
                  None) st)
    end
  else if useMockLlm then (MOCK_SUMMARY, sendStreamMessage (summary MOCK_SUMMARY) st)
  else (DEFAULT_SUMMARY, sendStreamMessage (summary DEFAULT_SUMMARY) st).

(** "Save Final Results to 'processing_runs' Table" *)
Definition saveFinalResults (c : Collaborators) (runId : string)
  (finalRunData : FinalRunData) (st : RunState) : RunState :=
  match upsert c runId finalRunData with
  | UpsertOk => st
  | UpsertError message =>
      sendStreamMessage
        (error ("Failed to save final results: "
                ++ "Failed to save/update final run results in processing_runs: "
                ++ or_str message
                     "No error message provided by Supabase (check server logs)")
               None) st
  | UpsertThrow saveError =>
      sendStreamMessage
        (error ("Failed to save final results: "
                ++ messageOf saveError "Unknown error saving final results")
               None) st
  end.

(** Everything between the end of the loop and [controller.close()]. The
    fold over the ledger cannot throw, so the [catch] of the statistics
    block has no counterpart. *)
Definition finish (c : Collaborators) (useMockLlm : bool) (runId : string)
  (rowCount : nat) (st : RunState) : RunState :=
  let runStats := calculateStats (allRunCategorizations st) in
  let st1 := sendStreamMessage (stats runStats) st in
  let (summaryText, st2) := generateSummary c useMockLlm runStats st1 in
  let st3 :=
    saveFinalResults c runId
      (mkFinalRunData (allRunCategorizations st) runStats summaryText) st2 in
  sendStreamMessage
    (complete ("Processing and statistics finished for "
               ++ nat_to_string rowCount ++ " rows."))
    st3.

(** [getSupabaseCredentials] of this route: [inl] is the thrown message. *)
Definition getSupabaseCredentials (env : Env) : string + unit :=
  if env_missing (SUPABASE_URL env) || env_missing (SUPABASE_ANON_KEY env)
  then inl "Missing Supabase environment variables"
  else inr tt.

(** [start(controller)]: the state when the stream is closed. *)
Definition start (env : Env) (c : Collaborators) (runId studentIdHeader : string)
  (questionHeaders : list QuestionHeaderInfo) (rows : list Row)
  : option RunState :=
  match getSupabaseCredentials env with
  | inl message =>
      Some (sendStreamMessage (error ("Server error: " ++ message) None)
                              initialState)
  | inr _ =>
      let totalBatches := ceilDiv (List.length rows) BATCH_SIZE in
      match batchLoop (List.length rows) c runId studentIdHeader questionHeaders
                      rows totalBatches 0 initialState with
      | Some st =>
          Some (finish c (useMockLlmOf env) runId (List.length rows) st)
      | None => None
      end
  end.

(** The response: the 400 body, or the stream, given by the final state of
    its producer ([sent] is what the client reads). *)
Inductive Response : Type :=
  | Response400 (body : StreamMessage)
  | EventStream (final : RunState).

(** "Basic validation", on a body that parsed to the expected shape. *)
Definition invalidPayload (req : Request) : bool :=
  match confirmedMapping req with
  | None => true
  | Some m =>
      falsy_str (runId req) || falsy_str (studentIdHeader m)
      || (List.length (questionHeaders m) =? 0)
  end.

Definition POST (env : Env) (c : Collaborators) (req : Request) : option Response :=
  match confirmedMapping req with
  | None => Some (Response400 (error "Invalid request payload" None))
  | Some m =>
      if invalidPayload req
      then Some (Response400 (error "Invalid request payload" None))
      else option_map EventStream
             (start env c (runId req) (studentIdHeader m) (questionHeaders m)
                    (rows req))
  end.

End Process.

(** ** The page: reading the stream ([src/app/page.tsx]) *)

Module Client.
Import Js.

Definition LF : ascii := ascii_of_nat 10.

Definition is_lf (c : ascii) : bool := Ascii.eqb c LF.

(** The chunk the route enqueues for a message:
    [`data: ${JSON.stringify(message)}\n\n`], given the JSON text. *)
Definition frame (json : string) : string :=
  "data: " ++ json ++ String LF (String LF EmptyString).

(** Puts a code unit in front of the first piece. *)
Definition consFirst (c : ascii) (pieces : list string) : list string :=
  match pieces with
  | [] => [String c EmptyString]
  | piece :: rest => String c piece :: rest
  end.

(** [buffer.split('\n\n')]: the pieces between the occurrences of two
    line feeds, found from left to right without overlap; never empty. *)
Fixpoint splitBlankLines (s : string) : list string :=
  match s with
  | EmptyString => [EmptyString]
  | String c1 rest =>
      match rest with
      | String c2 rest' =>
          if is_lf c1 && is_lf c2 then EmptyString :: splitBlankLines rest'
          else consFirst c1 (splitBlankLines rest)
      | EmptyString => [String c1 EmptyString]
      end
  end.

(** [line.substring(n)] *)
Fixpoint drop (n : nat) (s : string) : string :=
  match n, s with
  | 0, _ => s
  | S n', String _ s' => drop n' s'
  | S _, EmptyString => EmptyString
  end.

(** The [for] loop over the complete lines of the buffer: the JSON texts
    handed to [JSON.parse], and whether the message of type 'complete' was
    met, on which the reader returns. [isComplete] tells whether a text
    parses to such a message. *)
Fixpoint handleLines (isComplete : string -> bool) (lines : list string)
  : list string * bool :=
  match lines with
  | [] => ([], false)
  | line :: rest =>
      if prefix "data: " line then
        let jsonString := drop 6 line in
        if isComplete jsonString then ([jsonString], true)
        else
          let (handled, stop) := handleLines isComplete rest in
          (jsonString :: handled, stop)
      else handleLines isComplete rest
  end.

(** The [while (true)] loop of the reader over the chunks it is given,
    decoded; [buffer] holds the incomplete last line. The result lists the
    JSON texts handled, in order. *)
Fixpoint readLoop (isComplete : string -> bool) (chunks : list string)
  (buffer : string) : list string :=
  match chunks with
  | [] => []
  | value :: rest =>
      let buffer1 := buffer ++ value in
      let lines := splitBlankLines buffer1 in
      let buffer2 := or_str (last lines EmptyString) EmptyString in
      let (handled, stop) := handleLines isComplete (removelast lines) in
      if stop then handled
      else (handled ++ readLoop isComplete rest buffer2)%list
  end.

(** The messages up to and including the first of type 'complete'. *)
Fixpoint upToComplete (isComplete : string -> bool) (jsons : list string)
  : list string :=
  match jsons with
  | [] => []
  | json :: rest =>
      if isComplete json then [json] else json :: upToComplete isComplete rest
  end.

(** *** Parsing a combined category key *)

Definition SUB_CATEGORY_DEFAULT : string := "detail_na".

Definition SENTIMENTS : list string := ["positive"; "negative"; "neutral"; "n/a"].

Definition underscoreToSpace (c : ascii) : ascii :=
  if Ascii.eqb c "_" then " "%char else c.

(** [s.replace(/_/g, ' ')] *)
Fixpoint underscoresToSpaces (s : string) : string :=
  match s with
  | EmptyString => EmptyString
  | String c s' => String (underscoreToSpace c) (underscoresToSpaces s')
  end.

(** [s.split('_')] *)
Fixpoint splitUnderscore (s : string) : list string :=
  match s with
  | EmptyString => [EmptyString]
  | String c rest =>
      if Ascii.eqb c "_" then EmptyString :: splitUnderscore rest
      else consFirst c (splitUnderscore rest)
  end.

(** The result of [parseCombinedCategory], also its local variables. *)
Record ParsedCategory : Type := mkParsedCategory {
  topic : string;
  sentiment : string;
  subCategory : option string
}.

(** The assignment to [subCategory] under
    [if (subCategoryRaw && subCategoryRaw !== 'detail na')]. *)
Definition subCategoryFrom (subCategoryRaw : string) (previous : option string)
  : option string :=
  if negb (falsy_str subCategoryRaw)
     && negb (String.eqb subCategoryRaw (underscoresToSpaces SUB_CATEGORY_DEFAULT))
  then Some subCategoryRaw
  else previous.

(** The [for (const s of SENTIMENTS)] loop with its [break];
    [combinedKey.indexOf(marker)] is [index 0 marker combinedKey]. *)
Fixpoint scanSentiments (sentiments : list string) (combinedKey : string)
  (vars : ParsedCategory) : ParsedCategory :=
  match sentiments with
  | [] => vars
  | s :: rest =>
      let sentimentMarker := "_" ++ s ++ "_" in
      match index 0 sentimentMarker combinedKey with
      | Some i =>
          mkParsedCategory
            (or_str (underscoresToSpaces (substring 0 i combinedKey)) "N/A")
            s
            (subCategoryFrom
               (underscoresToSpaces
                  (drop (i + String.length sentimentMarker) combinedKey))
               (subCategory vars))
      | None => scanSentiments rest combinedKey vars
      end
  end.

(** "Fallback if sentiment marker wasn't found" *)
Definition fallbackParse (combinedKey : string) (vars : ParsedCategory)
  : ParsedCategory :=
  let parts := splitUnderscore combinedKey in
  mkParsedCategory
    (or_str (underscoresToSpaces (nth 0 parts "")) "N/A")
    (or_str (nth 1 parts "") "N/A")
    (subCategoryFrom (underscoresToSpaces (join " " (skipn 2 parts)))
                     (subCategory vars)).

Definition parseCombinedCategory (combinedKey : string) : ParsedCategory :=
  let vars :=
    scanSentiments SENTIMENTS combinedKey (mkParsedCategory "N/A" "N/A" None) in
  if String.eqb (topic vars) "N/A" then fallbackParse combinedKey vars else vars.

End Client.

(** ** Tests on strings *)

Module Text.

(** Every code unit of the string passes the test. *)
Fixpoint allChars (p : ascii -> bool) (s : string) : bool :=
  match s with
  | EmptyString => true
  | String c s' => p c && allChars p s'
  end.

End Text.

(** ** Reading the statistics *)

Module StatsView.
Import Js Process.

(** [qs[key] || 0] *)
Fixpoint countOf (qs : QuestionStats) (key : string) : nat :=
  match qs with
  | [] => 0
  | (k, n) :: rest => if String.eqb k key then n else countOf rest key
  end.

(** [stats[question]], with [None] for [undefined]. *)
Fixpoint questionStats (stats : RunStats) (question : string)
  : option QuestionStats :=
  match stats with
  | [] => None
  | (q, qs) :: rest =>
      if String.eqb q question then Some qs else questionStats rest question
  end.

(** [(stats[question] || {})[key] || 0] *)
Definition statsCount (stats : RunStats) (question key : string) : nat :=
  match questionStats stats question with
  | Some qs => countOf qs key
  | None => 0
  end.

(** The records that the callback of [reduce] counts: those with
    [question_text], [topic] and [sentiment] all truthy. *)
Definition counted (record : Categorization) : bool :=
  match topic record, sentiment record with
  | Some t, Some s =>
      negb (falsy_str (question_text record) || falsy_str t || falsy_str s)
  | _, _ => false
  end.

(** The combined key under which a counted record is counted. *)
Definition combinedKey (record : Categorization) : string :=
  match topic record, sentiment record with
  | Some t, Some s => combinedCategoryOf t s (sub_category record)
  | _, _ => ""
  end.

(** The sum of all the counts of the statistics. *)
Definition totalCount (stats : RunStats) : nat :=
  list_sum (map (fun entry => list_sum (map snd (snd entry))) stats).

(** The statistics as a well-formed object: distinct questions, and for
    each question distinct keys with positive counts. *)
Definition wellFormedQuestion (qs : QuestionStats) : Prop :=
  NoDup (map fst qs) /\ qs <> [] /\ forall k n, In (k, n) qs -> 1 <= n.

Definition wellFormed (stats : RunStats) : Prop :=
  NoDup (map fst stats) /\
  forall q qs, In (q, qs) stats -> q <> "" /\ wellFormedQuestion qs.

(** The ledgers on which the statistics object behaves as a map: the
    question text and the combined key of every counted record are
    ordinary keys. *)
Definition ordinaryLedger (ledger : list Categorization) : Prop :=
  forall record,
    In record ledger -> counted record = true ->
    ordinaryKey (question_text record) = true /\
    ordinaryKey (combinedKey record) = true.

End StatsView.

(** ** The mock of the qualitative pass *)

Module Mock.
Import Js Process.

Definition CR : ascii := ascii_of_nat 13.

(** What [.] of a regular expression does not match; the code units of
    the model are below 256, so U+2028 and U+2029 do not occur. *)
Definition isLineTerminator (c : ascii) : bool :=
  Ascii.eqb c Client.LF || Ascii.eqb c CR.

(** What the group of any characters, taken greedily, matches at the
    start of [s]: the longest prefix without line terminator. *)
Fixpoint restOfLine (s : string) : string :=
  match s with
  | EmptyString => EmptyString
  | String c s' =>
      if isLineTerminator c then EmptyString else String c (restOfLine s')
  end.

Definition RESPONDENT_MARKER : string := "Respondent ID: ".

(** [prompt.match(re) || []] for the global regular expression of the
    marker followed by the rest of the line: the matches from left to
    right, each search starting where the match before ended; [skip]
    counts the code units of that match still to pass. *)
Fixpoint matchRespondentLines (skip : nat) (s : string) : list string :=
  match s with
  | EmptyString => []
  | String c rest =>
      match skip with
      | S k => matchRespondentLines k rest
      | 0 =>
          if prefix RESPONDENT_MARKER s
          then
            let found :=
              RESPONDENT_MARKER
              ++ restOfLine (Client.drop (String.length RESPONDENT_MARKER) s) in
            found :: matchRespondentLines (String.length found - 1) rest
          else matchRespondentLines 0 rest
      end
  end.

(** [.map(s => s.replace('Respondent ID: ', '').trim())]: the first
    occurrence of the marker in a match is at its start. *)
Definition mockRespondentIds (prompt : string) : list string :=
  map (fun s => trim (Client.drop (String.length RESPONDENT_MARKER) s))
      (matchRespondentLines 0 prompt).

Definition mockCategorizations : list Llm.CategorizedAnswer :=
  [Llm.mkCategorizedAnswer "Mock Question 1" (Some "mock_topic_1")
     (Some positive) None;
   Llm.mkCategorizedAnswer "Mock Question 2" (Some "mock_topic_2")
     (Some neutral) None].

(** The object of [mockAnalyzeFeedbackBatch]; [random k] stands for
    [Math.random().toString(16).slice(2, 8)] at the identifier of index
    [k]. *)
Definition mockAnalyzeFeedbackBatch (random : nat -> string) (prompt : string)
  : list Llm.CategorizedStudent :=
  mapi (fun id k =>
          Llm.mkCategorizedStudent (or_str id ("MockRespondent_" ++ random k))
                                   mockCategorizations)
       (mockRespondentIds prompt).

(** The call of the qualitative pass when [useMockLlm] is set. *)
Definition usesMock (c : Collaborators) : Prop :=
  forall batchNumber prompt,
    exists random,
      analyzeFeedbackBatch c batchNumber prompt
      = LlmObject (mockAnalyzeFeedbackBatch random prompt).

End Mock.

(** ** The keys of the statistics as the page reads them *)

Module KeyView.
Import Js Process.

(** The marker the page searches for a sentiment. *)
Definition markerOf (s : Sentiment) : string :=
  "_" ++ sentiment_string s ++ "_".

(** The sentiments the page tries before [s], in the order of
    [SENTIMENTS]. *)
Definition earlierSentiments (s : Sentiment) : list Sentiment :=
  match s with
  | positive => []
  | negative => [positive]
  | neutral => [positive; negative]
  | na => [positive; negative; neutral]
  end.

(** The last component of the key the route builds. *)
Definition subCategoryKeyOf (sub_category : option string) : string :=
  match sub_category with
  | Some s => or_str s SUB_CATEGORY_DEFAULT
  | None => SUB_CATEGORY_DEFAULT
  end.

(** The sub-category the page shows: none for a missing or empty one and
    for the default. *)
Definition shownSubCategory (sub_category : option string) : option string :=
  match sub_category with
  | Some s =>
      if falsy_str s
         || String.eqb (Client.underscoresToSpaces s) "detail na"
      then None
      else Some (Client.underscoresToSpaces s)
  | None => None
  end.

End KeyView.

(** ** Vocabulary of the statements about a run *)

Module Run.
Import Js Process.

(** The message of the error event of a batch whose LLM call gave no
    object. *)
Definition failureMessage (outcome : LlmOutcome) : string :=
  match outcome with
  | LlmThrow llmError => messageOf llmError "Unknown LLM/Processing error"
  | _ => "LLM returned null or invalid object for qualitative data."
  end.

Definition isObject (outcome : LlmOutcome) : bool :=
  match outcome with
  | LlmObject _ => true
  | _ => false
  end.

(** The request passes the basic validation with mapping [m], and the
    credentials of the store are there. *)
Definition Accepted (env : Env) (req : Request) (m : ConfirmedMapping) : Prop :=
  getSupabaseCredentials env = inr tt /\
  confirmedMapping req = Some m /\
  invalidPayload req = false.

Definition totalBatchesOf (req : Request) : nat :=
  ceilDiv (List.length (rows req)) BATCH_SIZE.

(** A categorization after the in-place normalization; the context sets
    do not influence it. *)
Definition normalizedAnswer (cat : Llm.CategorizedAnswer) : Llm.CategorizedAnswer :=
  Llm.mkCategorizedAnswer (Llm.question cat) (Some (normalizedTopicOf cat))
    (Some match Llm.sentiment cat with Some s => s | None => neutral end)
    (normalizedSubCategoryOf cat).

Definition normalizedStudent (s : Llm.CategorizedStudent) : Llm.CategorizedStudent :=
  Llm.mkCategorizedStudent (Llm.respondentId s)
    (map normalizedAnswer (Llm.categorizations s)).

End Run.

(** ** Concrete inputs used to exercise the statements *)

Module Scenarios.
Import Js.

Definition env : Env := mkEnv (Some "https://db.example") (Some "anon") None.
Definition envMock : Env :=
  mkEnv (Some "https://db.example") (Some "anon") (Some "true").

Definition row1 : Row :=
  [("Email", JStr "a@x.com"); ("Rating", JStr "5");
   ("Comments", JStr "great staff")].

Definition rating : QuestionHeaderInfo := mkQuestionHeaderInfo "Rating" true.
Definition comments : QuestionHeaderInfo := mkQuestionHeaderInfo "Comments" false.

(** The mapping stage: proposals of the LLM. *)
Definition proposeEmail (_ : string) : Analyze.MappingOutcome :=
  Analyze.MappingObject (Analyze.mkMapping (Some "Email") [rating; comments]).

Definition proposeNoId (_ : string) : Analyze.MappingOutcome :=
  Analyze.MappingObject
    (Analyze.mkMapping None
       [rating; mkQuestionHeaderInfo Analyze.GENERATED_ID_HEADER false; comments]).

Definition proposeHallucinated (_ : string) : Analyze.MappingOutcome :=
  Analyze.MappingObject
    (Analyze.mkMapping (Some "Email")
       [rating; mkQuestionHeaderInfo "Mood" false]).

(** The categorizer: requests and collaborators. *)
Definition mapping : Process.ConfirmedMapping :=
  Process.mkConfirmedMapping "Email" [rating; comments].

Definition request : Process.Request :=
  Process.mkRequest "run-1" (Some mapping) [row1].

Definition staffPositive : Process.Llm.CategorizedStudent :=
  Process.Llm.mkCategorizedStudent "a@x.com"
    [Process.Llm.mkCategorizedAnswer "Comments" (Some "staff")
       (Some Process.positive) None].

(** The LLM classifies the comment as staff/positive without sub-category;
    summary and store succeed. *)
Definition collaborators : Process.Collaborators :=
  Process.mkCollaborators
    (fun _ _ => Process.LlmObject [staffPositive])
    (fun _ => Process.TextOk "Staff is praised.")
    (fun _ _ => Process.UpsertOk).

(** The same, with a summarizer that throws. *)
Definition summarizerDown : Process.Collaborators :=
  Process.mkCollaborators
    (fun _ _ => Process.LlmObject [staffPositive])
    (fun _ => Process.TextThrow (Process.ErrorObject "quota exceeded"))
    (fun _ _ => Process.UpsertOk).

(** The LLM finds no specific topic in the comment. *)
Definition noTopic : Process.Collaborators :=
  Process.mkCollaborators
    (fun _ _ =>
       Process.LlmObject
         [Process.Llm.mkCategorizedStudent "a@x.com"
            [Process.Llm.mkCategorizedAnswer "Comments" (Some "N/A")
               (Some Process.neutral) None]])
    (fun _ => Process.TextOk "Nothing stands out.")
    (fun _ _ => Process.UpsertOk).

(** A second row whose rating cell is empty (the parser leaves the key
    out), and a request on the rating alone. *)
Definition rowNoRating : Row :=
  [("Email", JStr "b@x.com"); ("Comments", JStr "fine")].

Definition requestNoRating : Process.Request :=
  Process.mkRequest "run-1"
    (Some (Process.mkConfirmedMapping "Email" [rating])) [row1; rowNoRating].

(** 101 rows, hence three batches; the LLM call of batch 2 throws. *)
Definition manyRows : list Row :=
  map (fun n =>
         [("Email", JStr ("r" ++ nat_to_string n)); ("Rating", JStr "4");
          ("Comments", JStr "fine")])
      (seq 1 101).

Definition requestMany : Process.Request :=
  Process.mkRequest "run-1" (Some mapping) manyRows.

Definition secondBatchFails : Process.Collaborators :=
  Process.mkCollaborators
    (fun batchNumber _ =>
       if batchNumber =? 2
       then Process.LlmThrow (Process.ErrorObject "timeout")
       else Process.LlmObject [])
    (fun _ => Process.TextOk "Ratings are good.")
    (fun _ _ => Process.UpsertOk).

(** A rendering of the messages by their type alone, free of line feeds. *)
Definition typeOf (message : Process.StreamMessage) : string :=
  match message with
  | Process.batchStart _ _ => "batchStart"
  | Process.result _ => "result"
  | Process.stats _ => "stats"
  | Process.summary _ => "summary"
  | Process.error _ _ => "error"
  | Process.complete _ => "complete"
  end.

(** The ledger of the categorical pass on the two rows for the rating. *)
Definition ratingLedger : list Process.Categorization :=
  Process.categoricalPass "run-1" "Email" [rating] 0 [row1; rowNoRating].

(** The collaborators in mock mode. *)
Definition mockCollaborators : Process.Collaborators :=
  Process.mkCollaborators
    (fun _ prompt =>
       Process.LlmObject
         (Mock.mockAnalyzeFeedbackBatch (fun _ => "a1b2c3") prompt))
    (fun _ => Process.TextOk "Staff is praised.")
    (fun _ _ => Process.UpsertOk).

End Scenarios.

(** ** Facts about the JavaScript primitives *)

Module JsFacts.
Import Js.

Lemma includes_In (xs : list string) (x : string) :
  includes xs x = true <-> In x xs.
Proof.
  unfold includes. rewrite existsb_exists. split.
  - intros [y [Hin Heq]]. apply String.eqb_eq in Heq. now subst.
  - intros Hin. exists x. split; [assumption | apply String.eqb_refl].
Qed.

Lemma includes_false (xs : list string) (x : string) :
  includes xs x = false <-> ~ In x xs.
Proof.
  rewrite <- includes_In. destruct (includes xs x); split; congruence.
Qed.

Lemma keys_set (row : Row) (key : string) (v : JsValue) (k : string) :
  In k (keys (set row key v)) <-> k = key \/ In k (keys row).
Proof.
  unfold keys. induction row as [| [k0 w] rest IH]; simpl.
  - intuition congruence.
  - destruct (String.eqb k0 key) eqn:E; simpl.
    + apply String.eqb_eq in E. subst. intuition congruence.
    + rewrite IH. intuition congruence.
Qed.

Lemma getOwn_set_same (row : Row) (key : string) (v : JsValue) :
  getOwn (set row key v) key = Some v.
Proof.
  induction row as [| [k0 w] rest IH]; simpl.
  - now rewrite String.eqb_refl.
  - destruct (String.eqb k0 key) eqn:E; simpl; now rewrite E.
Qed.

Lemma getOwn_set_other (row : Row) (key k : string) (v : JsValue) :
  k <> key -> getOwn (set row key v) k = getOwn row k.
Proof.
  intros Hne. induction row as [| [k0 w] rest IH]; simpl.
  - destruct (String.eqb key k) eqn:E; [| reflexivity].
    apply String.eqb_eq in E. congruence.
  - destruct (String.eqb k0 key) eqn:E; simpl.
    + apply String.eqb_eq in E. subst k0.
      destruct (String.eqb key k) eqn:E'; [| reflexivity].
      apply String.eqb_eq in E'. congruence.
    + now rewrite IH.
Qed.

Lemma get_set_same (row : Row) (key : string) (v : JsValue) :
  get (set row key v) key = Some v.
Proof. unfold get. now rewrite getOwn_set_same. Qed.

Lemma get_set_other (row : Row) (key k : string) (v : JsValue) :
  k <> key -> get (set row key v) k = get row k.
Proof. intros Hne. unfold get. now rewrite getOwn_set_other. Qed.

Lemma nth_error_mapi_from {A B : Type} (f : A -> nat -> B) (xs : list A) :
  forall start n,
    nth_error (mapi_from start f xs) n
    = option_map (fun x => f x (start + n)) (nth_error xs n).
Proof.
  induction xs as [| x rest IH]; intros start n.
  - now destruct n.
  - destruct n as [| n]; simpl.
    + now rewrite Nat.add_0_r.
    + rewrite IH. now rewrite Nat.add_succ_comm.
Qed.

Lemma length_mapi_from {A B : Type} (f : A -> nat -> B) (xs : list A) :
  forall start, List.length (mapi_from start f xs) = List.length xs.
Proof.
  induction xs as [| x rest IH]; intros start; simpl; [reflexivity |].
  now rewrite IH.
Qed.

Lemma In_mapi_from {A B : Type} (f : A -> nat -> B) (xs : list A) (y : B) :
  forall start,
    In y (mapi_from start f xs) <->
    exists n x, nth_error xs n = Some x /\ y = f x (start + n).
Proof.
  induction xs as [| x rest IH]; intros start; simpl.
  - split; [tauto |]. intros [n [x [H _]]]. now destruct n.
  - rewrite IH. split.
    + intros [H | [n [x' [Hn Hy]]]].
      * exists 0, x. simpl. rewrite Nat.add_0_r. auto.
      * exists (S n), x'. simpl. rewrite <- Nat.add_succ_comm. auto.
    + intros [n [x' [Hn Hy]]]. destruct n as [| n]; simpl in Hn.
      * left. inversion Hn. subst. now rewrite Nat.add_0_r.
      * right. exists n, x'. rewrite Nat.add_succ_comm. auto.
Qed.

Lemma in_concat_seq {A : Type} (f : nat -> list A) (n : nat) (x : A) :
  In x (List.concat (map f (seq 0 n))) <-> exists k, k < n /\ In x (f k).
Proof.
  rewrite in_concat. split.
  - intros [l [Hl Hx]]. apply in_map_iff in Hl. destruct Hl as [k [<- Hk]].
    apply in_seq in Hk. exists k. split; [lia | assumption].
  - intros [k [Hk Hx]]. exists (f k). split; [| assumption].
    apply in_map. apply in_seq. lia.
Qed.

End JsFacts.

(** ** The mapping stage: validation and repair *)

Module AnalyzeFacts.
Import Js JsFacts Analyze.

Lemma withoutHeader_In (h : string) (qhs : list QuestionHeaderInfo)
  (qh : QuestionHeaderInfo) :
  In qh (withoutHeader h qhs) <-> In qh qhs /\ header qh <> h.
Proof.
  unfold withoutHeader, header_is. rewrite filter_In.
  destruct (String.eqb (header qh) h) eqn:E; simpl.
  - apply String.eqb_eq in E. intuition congruence.
  - apply String.eqb_neq in E. intuition congruence.
Qed.

(** The final check leaves exactly the entries other than the identifier,
    whether or not it finds one to remove. *)
Lemma finalCheck_In (h : string) (qhs : list QuestionHeaderInfo)
  (qh : QuestionHeaderInfo) :
  In qh (finalCheck h qhs) <-> In qh qhs /\ header qh <> h.
Proof.
  unfold finalCheck. destruct (existsb (header_is h) qhs) eqn:E.
  - apply withoutHeader_In.
  - split; [| tauto]. intros Hin. split; [assumption |]. intros Heq.
    assert (existsb (header_is h) qhs = true) as Hex.
    { apply existsb_exists. exists qh. split; [assumption |].
      unfold header_is. now apply String.eqb_eq. }
    congruence.
Qed.

Lemma firstRowKeys_addGeneratedId (rows : list Row) (k : string) :
  rows <> [] ->
  (In k (firstRowKeys (addGeneratedId rows)) <->
   k = GENERATED_ID_HEADER \/ In k (firstRowKeys rows)).
Proof.
  destruct rows as [| row rest]; [congruence |]. intros _.
  unfold addGeneratedId, mapi. simpl. apply keys_set.
Qed.

(** The resolved identifier is always a column of the (updated) rows. *)
Lemma resolved_id_is_header (proposed : option string) (rows : list Row) :
  rows <> [] ->
  let r := resolveStudentId proposed rows (firstRowKeys rows) in
  In (resolvedId r) (resolvedHeaders r).
Proof.
  intros Hne. unfold resolveStudentId.
  destruct proposed as [h |]; [destruct (includes (firstRowKeys rows) h) eqn:E |];
    simpl.
  - now apply includes_In.
  - apply firstRowKeys_addGeneratedId; auto.
  - apply firstRowKeys_addGeneratedId; auto.
Qed.

(** The headers after resolution are the real ones and the identifier. *)
Lemma resolved_headers (proposed : option string) (rows : list Row) (k : string) :
  rows <> [] ->
  let r := resolveStudentId proposed rows (firstRowKeys rows) in
  In k (resolvedHeaders r) <-> k = resolvedId r \/ In k (firstRowKeys rows).
Proof.
  intros Hne. unfold resolveStudentId.
  destruct proposed as [h |]; [destruct (includes (firstRowKeys rows) h) eqn:E |];
    simpl.
  - apply includes_In in E. intuition congruence.
  - now apply firstRowKeys_addGeneratedId.
  - now apply firstRowKeys_addGeneratedId.
Qed.

Lemma resolved_not_generated (proposed : option string) (rows : list Row) :
  let r := resolveStudentId proposed rows (firstRowKeys rows) in
  studentIdHeaderIsGenerated r = false ->
  proposed = Some (resolvedId r) /\ resolvedRows r = rows.
Proof.
  unfold resolveStudentId.
  destruct proposed as [h |]; [destruct (includes (firstRowKeys rows) h) |];
    simpl; intros H; try discriminate. auto.
Qed.

Lemma resolved_fallback (proposed : option string) (rows : list Row) :
  (proposed = None \/
   exists h, proposed = Some h /\ ~ In h (firstRowKeys rows)) ->
  resolveStudentId proposed rows (firstRowKeys rows) = fallbackId rows.
Proof.
  unfold resolveStudentId. intros [-> | [h [-> Hnot]]]; [reflexivity |].
  apply includes_false in Hnot. now rewrite Hnot.
Qed.

Lemma invalidHeaders_In (allHeaders : list string)
  (qhs : list QuestionHeaderInfo) (h : string) :
  In h (invalidHeaders allHeaders qhs) <->
  In h (map header qhs) /\ ~ In h allHeaders.
Proof.
  unfold invalidHeaders. rewrite filter_In.
  destruct (includes allHeaders h) eqn:E; simpl.
  - apply includes_In in E. intuition congruence.
  - apply includes_false in E. intuition congruence.
Qed.

(** The special case of the validation, "the only invalid header is the
    generated ID", never applies: the generated header has been added to
    the headers before the question headers are checked against them. *)
Lemma validateQuestionHeaders_cases (proposed : option string) (rows : list Row)
  (qhs : list QuestionHeaderInfo) :
  rows <> [] ->
  let r := resolveStudentId proposed rows (firstRowKeys rows) in
  validateQuestionHeaders r qhs
  = match invalidHeaders (resolvedHeaders r) qhs with
    | [] => inr qhs
    | invalid => inl (invalidMessage invalid (resolvedHeaders r))
    end.
Proof.
  intros Hne r. unfold validateQuestionHeaders.
  destruct (invalidHeaders (resolvedHeaders r) qhs) as [| h rest] eqn:E;
    [reflexivity |].
  simpl (0 <? _). cbv iota.
  destruct (studentIdHeaderIsGenerated r && (List.length (h :: rest) =? 1)
            && String.eqb (hd "" (h :: rest)) (resolvedId r)) eqn:C;
    [| reflexivity].
  exfalso. apply andb_true_iff in C. destruct C as [_ C]. simpl in C.
  apply String.eqb_eq in C.
  assert (In h (invalidHeaders (resolvedHeaders r) qhs)) as Hin
      by (rewrite E; now left).
  apply invalidHeaders_In in Hin. destruct Hin as [_ Hnot]. apply Hnot.
  subst h. now apply resolved_id_is_header.
Qed.

(** What a 200 response of the route carries. *)
Lemma POST_200_inv (env : Env) (runId : string) (rows : list Row)
  (generateObject : string -> MappingOutcome) (rid : string) (m : Mapping)
  (rows' : list Row) :
  POST env runId rows generateObject = Json200 rid m rows' ->
  exists proposed,
    rows <> [] /\
    generateObject (mappingPrompt (firstRowKeys rows)) = MappingObject proposed /\
    let r := resolveStudentId (studentIdHeader proposed) rows (firstRowKeys rows) in
    invalidHeaders (resolvedHeaders r) (questionHeaders proposed) = [] /\
    studentIdHeader m = Some (resolvedId r) /\
    questionHeaders m = finalCheck (resolvedId r) (questionHeaders proposed) /\
    rows' = resolvedRows r /\ rid = runId.
Proof.
  unfold POST. destruct (getSupabaseCredentials env); [discriminate |].
  destruct rows as [| row rest]; [discriminate |]. cbv iota beta. simpl (_ =? 0).
  cbv iota.
  destruct (generateObject _) as [proposed | msg] eqn:G; [| discriminate].
  unfold validateMapping.
  rewrite validateQuestionHeaders_cases by discriminate.
  destruct (invalidHeaders _ _) eqn:I; [| discriminate].
  intros H. inversion H; subst. exists proposed.
  repeat split; try discriminate; auto.
  simpl.
  destruct (studentIdHeaderIsGenerated _) eqn:Gen; [reflexivity |].
  now apply resolved_not_generated in Gen.
Qed.

(** C5. Whenever the mapping stage answers with a mapping, its
    [studentIdHeader] is set and is not the header of any entry of its
    [questionHeaders]. *)
Theorem C5_id_not_among_questions (env : Env) (runId : string) (rows : list Row)
  (generateObject : string -> MappingOutcome) (rid : string) (m : Mapping)
  (rows' : list Row) :
  POST env runId rows generateObject = Json200 rid m rows' ->
  exists sid,
    studentIdHeader m = Some sid /\
    forall qh, In qh (questionHeaders m) -> header qh <> sid.
Proof.
  intros H. apply POST_200_inv in H.
  destruct H as [proposed [_ [_ [_ [Hid [Hq _]]]]]].
  eexists. split; [exact Hid |]. intros qh Hin. rewrite Hq in Hin.
  now apply finalCheck_In in Hin.
Qed.

Lemma C5_witness :
  exists sid,
    studentIdHeader (mkMapping (Some "Email") [Scenarios.rating; Scenarios.comments])
    = Some sid /\
    forall qh, In qh [Scenarios.rating; Scenarios.comments] -> header qh <> sid.
Proof.
  apply (C5_id_not_among_questions Scenarios.env "run-1"
           [Scenarios.row1] Scenarios.proposeEmail "run-1"
           (mkMapping (Some "Email") [Scenarios.rating; Scenarios.comments])
           [Scenarios.row1]).
  reflexivity.
Defined.

Lemma addGeneratedId_nth (rows : list Row) (n : nat) (row : Row) :
  nth_error rows n = Some row ->
  nth_error (addGeneratedId rows) n
  = Some (set row GENERATED_ID_HEADER (JStr ("Row " ++ nat_to_string (n + 1)))).
Proof.
  intros H. unfold addGeneratedId, mapi. rewrite nth_error_mapi_from, H.
  reflexivity.
Qed.

(** The response of the route once the rows are there and the LLM has
    answered: the validation error when a question header is invalid, the
    validated mapping otherwise. *)
Lemma POST_after_proposal (env : Env) (runId : string) (rows : list Row)
  (generateObject : string -> MappingOutcome) (proposed : Mapping) :
  getSupabaseCredentials env = inr tt ->
  rows <> [] ->
  generateObject (mappingPrompt (firstRowKeys rows)) = MappingObject proposed ->
  let r := resolveStudentId (studentIdHeader proposed) rows (firstRowKeys rows) in
  POST env runId rows generateObject
  = match invalidHeaders (resolvedHeaders r) (questionHeaders proposed) with
    | [] =>
        Json200 runId
          (mkMapping (Some (resolvedId r))
                     (finalCheck (resolvedId r) (questionHeaders proposed)))
          (resolvedRows r)
    | invalid =>
        Json500 "Failed to process request"
                (invalidMessage invalid (resolvedHeaders r))
    end.
Proof.
  intros Hcred Hne Hgen r. unfold POST. rewrite Hcred.
  destruct rows as [| row rest] eqn:Hrows; [congruence |].
  simpl (_ =? 0). cbv iota. rewrite Hgen. unfold validateMapping.
  rewrite validateQuestionHeaders_cases by discriminate. fold r.
  destruct (invalidHeaders _ _) eqn:I; [| reflexivity].
  destruct (studentIdHeaderIsGenerated r) eqn:Gen; [reflexivity |].
  apply resolved_not_generated in Gen. destruct Gen as [Gen _]. fold r in Gen.
  f_equal. f_equal. exact Gen.
Qed.

(** C6. When the identifier header returned by the LLM is null or is not a
    header of the sheet, the route takes the synthetic header as identifier,
    adds it to the headers, and gives every row the cell "Row n" under it,
    n being the 1-based position of the row, leaving the other cells as they
    were. The response is then the validation error, when some question
    header other than the synthetic one is not in the sheet, or else the
    mapping whose [studentIdHeader] is the synthetic header with the marked
    rows; the synthetic header is not among its [questionHeaders]. *)
Theorem C6_fallback_identifier (env : Env) (runId : string) (rows : list Row)
  (generateObject : string -> MappingOutcome) (proposed : Mapping) :
  getSupabaseCredentials env = inr tt ->
  rows <> [] ->
  generateObject (mappingPrompt (firstRowKeys rows)) = MappingObject proposed ->
  (studentIdHeader proposed = None \/
   exists h, studentIdHeader proposed = Some h /\ ~ In h (firstRowKeys rows)) ->
  let r := resolveStudentId (studentIdHeader proposed) rows (firstRowKeys rows) in
  resolvedId r = GENERATED_ID_HEADER /\
  studentIdHeaderIsGenerated r = true /\
  In GENERATED_ID_HEADER (resolvedHeaders r) /\
  List.length (resolvedRows r) = List.length rows /\
  (forall n row,
     nth_error rows n = Some row ->
     exists row',
       nth_error (resolvedRows r) n = Some row' /\
       get row' GENERATED_ID_HEADER = Some (JStr ("Row " ++ nat_to_string (n + 1))) /\
       forall k, k <> GENERATED_ID_HEADER -> get row' k = get row k) /\
  ((exists qh message,
      In qh (questionHeaders proposed) /\
      header qh <> GENERATED_ID_HEADER /\
      ~ In (header qh) (firstRowKeys rows) /\
      POST env runId rows generateObject
      = Json500 "Failed to process request" message)
   \/
   (exists m,
      POST env runId rows generateObject = Json200 runId m (resolvedRows r) /\
      studentIdHeader m = Some GENERATED_ID_HEADER /\
      forall qh, In qh (questionHeaders m) -> header qh <> GENERATED_ID_HEADER)).
Proof.
  intros Hcred Hne Hgen Hbad r.
  pose proof (POST_after_proposal env runId rows generateObject proposed
                Hcred Hne Hgen) as HP.
  cbv zeta in HP. fold r in HP.
  pose proof (resolved_headers (studentIdHeader proposed) rows) as HH.
  pose proof (resolved_id_is_header (studentIdHeader proposed) rows Hne) as HI.
  cbv zeta in HH, HI. fold r in HH, HI.
  assert (r = fallbackId rows) as Hr by (now apply resolved_fallback).
  assert (resolvedId r = GENERATED_ID_HEADER) as Hid by (now rewrite Hr).
  split; [exact Hid |].
  split; [now rewrite Hr |].
  split; [now rewrite <- Hid |].
  split; [rewrite Hr; apply length_mapi_from |].
  split.
  - intros n row Hn. rewrite Hr. simpl.
    exists (set row GENERATED_ID_HEADER (JStr ("Row " ++ nat_to_string (n + 1)))).
    split; [now apply addGeneratedId_nth |].
    split; [apply get_set_same |]. intros k Hk. now apply get_set_other.
  - destruct (invalidHeaders (resolvedHeaders r) (questionHeaders proposed))
      as [| h rest] eqn:I.
    + right. eexists. split; [exact HP |]. rewrite Hid. simpl.
      split; [reflexivity |]. intros qh Hin. now apply finalCheck_In in Hin.
    + left. assert (In h (invalidHeaders (resolvedHeaders r)
                                         (questionHeaders proposed))) as Hin
        by (rewrite I; now left).
      apply invalidHeaders_In in Hin. destruct Hin as [Hmap Hnot].
      apply in_map_iff in Hmap. destruct Hmap as [qh [Hh Hqh]].
      exists qh. eexists. split; [exact Hqh |].
      rewrite Hh, <- Hid.
      split; [| split; [| exact HP]].
      * intros Heq. apply Hnot. rewrite Heq. exact HI.
      * intros Hk. apply Hnot. apply HH; auto.
Qed.

Lemma C6_witness :
  let r := resolveStudentId None [Scenarios.row1] (firstRowKeys [Scenarios.row1]) in
  resolvedId r = GENERATED_ID_HEADER /\
  studentIdHeaderIsGenerated r = true /\
  In GENERATED_ID_HEADER (resolvedHeaders r) /\
  List.length (resolvedRows r) = 1 /\
  (forall n row,
     nth_error [Scenarios.row1] n = Some row ->
     exists row',
       nth_error (resolvedRows r) n = Some row' /\
       get row' GENERATED_ID_HEADER = Some (JStr ("Row " ++ nat_to_string (n + 1))) /\
       forall k, k <> GENERATED_ID_HEADER -> get row' k = get row k) /\
  ((exists qh message,
      In qh [Scenarios.rating;
             mkQuestionHeaderInfo GENERATED_ID_HEADER false;
             Scenarios.comments] /\
      header qh <> GENERATED_ID_HEADER /\
      ~ In (header qh) (firstRowKeys [Scenarios.row1]) /\
      POST Scenarios.env "run-1" [Scenarios.row1] Scenarios.proposeNoId
      = Json500 "Failed to process request" message)
   \/
   (exists m,
      POST Scenarios.env "run-1" [Scenarios.row1] Scenarios.proposeNoId
      = Json200 "run-1" m (resolvedRows r) /\
      studentIdHeader m = Some GENERATED_ID_HEADER /\
      forall qh, In qh (questionHeaders m) -> header qh <> GENERATED_ID_HEADER)).
Proof.
  apply (C6_fallback_identifier Scenarios.env "run-1" [Scenarios.row1]
           Scenarios.proposeNoId
           (mkMapping None
              [Scenarios.rating;
               mkQuestionHeaderInfo GENERATED_ID_HEADER false;
               Scenarios.comments])).
  - reflexivity.
  - discriminate.
  - reflexivity.
  - left. reflexivity.
Defined.

(** C7. When some question header other than the resolved identifier is not
    a header of the sheet, the route answers with the error response whose
    message lists the invalid headers, and these are exactly the proposed
    question headers that are neither the resolved identifier nor in the
    sheet: the mapping is not repaired. *)
Theorem C7_hallucinated_headers_fatal (env : Env) (runId : string)
  (rows : list Row) (generateObject : string -> MappingOutcome)
  (proposed : Mapping) :
  getSupabaseCredentials env = inr tt ->
  rows <> [] ->
  generateObject (mappingPrompt (firstRowKeys rows)) = MappingObject proposed ->
  let r := resolveStudentId (studentIdHeader proposed) rows (firstRowKeys rows) in
  (exists qh,
     In qh (questionHeaders proposed) /\
     header qh <> resolvedId r /\
     ~ In (header qh) (firstRowKeys rows)) ->
  exists invalid,
    POST env runId rows generateObject
    = Json500 "Failed to process request"
        ("LLM proposed questionHeaders contain invalid headers not found in the sheet (or generated ID): "
         ++ join ", " invalid ++ ". Actual headers: "
         ++ join ", " (resolvedHeaders r)) /\
    invalid <> [] /\
    forall h,
      In h invalid <->
      (exists qh, In qh (questionHeaders proposed) /\ header qh = h) /\
      h <> resolvedId r /\ ~ In h (firstRowKeys rows).
Proof.
  intros Hcred Hne Hgen r [qh [Hqh [Hnid Hnot]]].
  pose proof (POST_after_proposal env runId rows generateObject proposed
                Hcred Hne Hgen) as HP.
  cbv zeta in HP. fold r in HP.
  pose proof (resolved_headers (studentIdHeader proposed) rows) as HH.
  cbv zeta in HH. fold r in HH.
  assert (forall h,
            In h (invalidHeaders (resolvedHeaders r) (questionHeaders proposed)) <->
            (exists q, In q (questionHeaders proposed) /\ header q = h) /\
            h <> resolvedId r /\ ~ In h (firstRowKeys rows)) as Hchar.
  { intros h. rewrite invalidHeaders_In, in_map_iff, HH by assumption.
    split.
    - intros [[q [Hq1 Hq2]] Hn]. split; [exists q; auto | tauto].
    - intros [[q [Hq1 Hq2]] [Hn1 Hn2]]. split; [exists q; auto | tauto]. }
  exists (invalidHeaders (resolvedHeaders r) (questionHeaders proposed)).
  assert (In (header qh)
             (invalidHeaders (resolvedHeaders r) (questionHeaders proposed)))
    as Hin by (apply Hchar; eauto).
  destruct (invalidHeaders (resolvedHeaders r) (questionHeaders proposed))
    as [| h rest] eqn:I; [contradiction |].
  split; [exact HP |]. split; [discriminate |]. exact Hchar.
Qed.

Lemma C7_witness :
  exists invalid,
    POST Scenarios.env "run-1" [Scenarios.row1] Scenarios.proposeHallucinated
    = Json500 "Failed to process request"
        ("LLM proposed questionHeaders contain invalid headers not found in the sheet (or generated ID): "
         ++ join ", " invalid ++ ". Actual headers: "
         ++ join ", " ["Email"; "Rating"; "Comments"]) /\
    invalid <> [] /\
    forall h,
      In h invalid <->
      (exists qh,
         In qh [Scenarios.rating; mkQuestionHeaderInfo "Mood" false] /\
         header qh = h) /\
      h <> "Email" /\ ~ In h ["Email"; "Rating"; "Comments"].
Proof.
  apply (C7_hallucinated_headers_fatal Scenarios.env "run-1" [Scenarios.row1]
           Scenarios.proposeHallucinated
           (mkMapping (Some "Email")
              [Scenarios.rating; mkQuestionHeaderInfo "Mood" false])).
  - reflexivity.
  - discriminate.
  - reflexivity.
  - exists (mkQuestionHeaderInfo "Mood" false). split.
    + right. left. reflexivity.
    + split.
      * discriminate.
      * simpl. intros [H | [H | [H | H]]]; try discriminate H. exact H.
Defined.

(** The self-reference to the generated identifier is removed, not
    rejected: with question headers that are otherwise in the sheet, a
    proposal without identifier that lists the generated header among the
    questions is answered with the mapping without it. *)
Lemma generated_self_reference_repaired :
  POST Scenarios.env "run-1" [Scenarios.row1] Scenarios.proposeNoId
  = Json200 "run-1"
      (mkMapping (Some GENERATED_ID_HEADER) [Scenarios.rating; Scenarios.comments])
      [Scenarios.row1 ++ [(GENERATED_ID_HEADER, JStr "Row 1")]]%list.
Proof. reflexivity. Qed.

End AnalyzeFacts.

(** ** The batch categorizer: structure of a run *)

Module ProcessFacts.
Import Js JsFacts Process Run.

(** *** The number of batches *)

Lemma ceilDiv_le (n k : nat) : ceilDiv n BATCH_SIZE <= k <-> n <= k * BATCH_SIZE.
Proof.
  unfold ceilDiv, BATCH_SIZE. simpl (50 - 1).
  pose proof (Nat.div_mod_eq (n + 49) 50) as E.
  pose proof (Nat.mod_upper_bound (n + 49) 50) as B.
  split; intros H; nia.
Qed.

Lemma ceilDiv_gt (n k : nat) : k < ceilDiv n BATCH_SIZE <-> k * BATCH_SIZE < n.
Proof. pose proof (ceilDiv_le n k). lia. Qed.

Lemma ceilDiv_le_self (n : nat) : ceilDiv n BATCH_SIZE <= n.
Proof. apply ceilDiv_le. unfold BATCH_SIZE. lia. Qed.

Lemma batchNumber_exact (k : nat) : k * BATCH_SIZE / BATCH_SIZE + 1 = S k.
Proof. rewrite Nat.div_mul by discriminate. lia. Qed.

(** *** The loop body only appends *)

(** [extend st d]: the state [st] followed by what [d] holds; the context
    sets are those of [d]. *)
Definition extend (st d : RunState) : RunState :=
  mkRunState (sent st ++ sent d) (allRunCategorizations st ++ allRunCategorizations d)
    (identifiedTopics d) (identifiedSubCategories d) (llmCalls st ++ llmCalls d).

(** [fresh st]: the context sets of [st] with nothing sent, recorded or
    called yet. *)
Definition fresh (st : RunState) : RunState :=
  mkRunState [] [] (identifiedTopics st) (identifiedSubCategories st) [].

Lemma extend_fresh (st : RunState) : extend st (fresh st) = st.
Proof. destruct st. unfold extend, fresh. simpl. now rewrite !app_nil_r. Qed.

Lemma sendStreamMessage_extend (m : StreamMessage) (st d : RunState) :
  sendStreamMessage m (extend st d) = extend st (sendStreamMessage m d).
Proof. unfold sendStreamMessage, extend. simpl. now rewrite app_assoc. Qed.

Lemma pushAll_extend (rs : list Categorization) (st d : RunState) :
  pushAll rs (extend st d) = extend st (pushAll rs d).
Proof. unfold pushAll, extend. simpl. now rewrite app_assoc. Qed.

Lemma recordCall_extend (b : nat) (p : string) (st d : RunState) :
  recordCall b p (extend st d) = extend st (recordCall b p d).
Proof. unfold recordCall, extend. simpl. now rewrite app_assoc. Qed.

Lemma setContext_extend (ts ss : list string) (st d : RunState) :
  setContext ts ss (extend st d) = extend st (setContext ts ss d).
Proof. reflexivity. Qed.

Section BatchLoop.

Variable c : Collaborators.
Variables runId studentIdHeader : string.
Variable questionHeaders : list QuestionHeaderInfo.
Variable rows : list Row.

Let totalBatches : nat := ceilDiv (List.length rows) BATCH_SIZE.
Let qualitativeQuestions : list QuestionHeaderInfo :=
  filter isQualitative questionHeaders.
Let categoricalQuestions : list QuestionHeaderInfo :=
  filter isCategorical questionHeaders.

Lemma accumulate_extend (i : nat) (batch : list Row)
  (object : list Llm.CategorizedStudent) :
  forall st d,
    accumulate runId studentIdHeader qualitativeQuestions i batch object
      (extend st d)
    = extend st
        (accumulate runId studentIdHeader qualitativeQuestions i batch object d).
Proof.
  induction object as [| r rest IH]; intros st d; simpl; [reflexivity |].
  now rewrite sendStreamMessage_extend, pushAll_extend, IH.
Qed.

Lemma qualitativePass_extend (i b : nat) (batch : list Row)
  (input : list PromptItem) (st d : RunState) :
  qualitativePass c runId studentIdHeader qualitativeQuestions i b batch input
    (extend st d)
  = extend st
      (qualitativePass c runId studentIdHeader qualitativeQuestions i b batch
         input d).
Proof.
  unfold qualitativePass. rewrite recordCall_extend.
  change (identifiedTopics (extend st d)) with (identifiedTopics d).
  change (identifiedSubCategories (extend st d)) with (identifiedSubCategories d).
  destruct (analyzeFeedbackBatch c b _) as [object | | e].
  - change (identifiedTopics (extend st (recordCall b
              (batchPrompt b (identifiedTopics d) (identifiedSubCategories d) input) d)))
      with (identifiedTopics d).
    change (identifiedSubCategories (extend st (recordCall b
              (batchPrompt b (identifiedTopics d) (identifiedSubCategories d) input) d)))
      with (identifiedSubCategories d).
    change (identifiedTopics (recordCall b
              (batchPrompt b (identifiedTopics d) (identifiedSubCategories d) input) d))
      with (identifiedTopics d).
    change (identifiedSubCategories (recordCall b
              (batchPrompt b (identifiedTopics d) (identifiedSubCategories d) input) d))
      with (identifiedSubCategories d).
    destruct (normalizeResult object _) as [normalized ctx].
    now rewrite setContext_extend, accumulate_extend.
  - now rewrite sendStreamMessage_extend.
  - now rewrite sendStreamMessage_extend.
Qed.

Lemma processBatch_extend (i : nat) (st d : RunState) :
  processBatch c runId studentIdHeader questionHeaders rows totalBatches i
    (extend st d)
  = extend st
      (processBatch c runId studentIdHeader questionHeaders rows totalBatches i d).
Proof.
  unfold processBatch.
  rewrite sendStreamMessage_extend, pushAll_extend.
  destruct (callsAi _ _); [| reflexivity].
  apply qualitativePass_extend.
Qed.

(** What batch [S k] adds, given the context sets it starts from. *)
Definition batchDelta (k : nat) (st : RunState) : RunState :=
  processBatch c runId studentIdHeader questionHeaders rows totalBatches
    (k * BATCH_SIZE) (fresh st).

Lemma processBatch_frame (k : nat) (st : RunState) :
  processBatch c runId studentIdHeader questionHeaders rows totalBatches
    (k * BATCH_SIZE) st
  = extend st (batchDelta k st).
Proof.
  unfold batchDelta. rewrite <- processBatch_extend. now rewrite extend_fresh.
Qed.

(** *** The loop runs the body once per batch *)

(** The state after the first [n] batches. *)
Fixpoint stateAfter (n : nat) : RunState :=
  match n with
  | 0 => initialState
  | S k =>
      processBatch c runId studentIdHeader questionHeaders rows totalBatches
        (k * BATCH_SIZE) (stateAfter k)
  end.

Lemma batchLoop_from (fuel : nat) :
  forall k,
    totalBatches - k <= fuel ->
    batchLoop fuel c runId studentIdHeader questionHeaders rows totalBatches
      (k * BATCH_SIZE) (stateAfter k)
    = Some (stateAfter (Nat.max k totalBatches)).
Proof.
  induction fuel as [| fuel IH]; intros k Hfuel.
  - assert (totalBatches <= k) as Hk by lia.
    cbn [batchLoop]. apply ceilDiv_le in Hk as Hk'.
    apply Nat.ltb_ge in Hk'. rewrite Hk'. now rewrite Nat.max_l.
  - cbn [batchLoop]. destruct (k * BATCH_SIZE <? List.length rows) eqn:E.
    + apply Nat.ltb_lt in E. apply ceilDiv_gt in E. fold totalBatches in E.
      replace (k * BATCH_SIZE + BATCH_SIZE) with (S k * BATCH_SIZE)
        by (unfold BATCH_SIZE; lia).
      change (processBatch c runId studentIdHeader questionHeaders rows
                totalBatches (k * BATCH_SIZE) (stateAfter k))
        with (stateAfter (S k)).
      rewrite IH by lia. f_equal. f_equal. lia.
    + apply Nat.ltb_ge in E. apply ceilDiv_le in E. fold totalBatches in E.
      now rewrite Nat.max_l.
Qed.

(** The loop ends, on the state after [totalBatches] turns. *)
Lemma batchLoop_total :
  batchLoop (List.length rows) c runId studentIdHeader questionHeaders rows
    totalBatches 0 initialState
  = Some (stateAfter totalBatches).
Proof.
  pose proof (batchLoop_from (List.length rows) 0) as H. simpl in H.
  rewrite H; [reflexivity |].
  pose proof (ceilDiv_le_self (List.length rows)). fold totalBatches in H0. lia.
Qed.

(** *** What one turn of the loop does *)

Lemma accumulate_eq (i : nat) (batch : list Row)
  (object : list Llm.CategorizedStudent) :
  forall st,
    accumulate runId studentIdHeader qualitativeQuestions i batch object st
    = mkRunState
        (sent st ++ map result object)
        (allRunCategorizations st
         ++ List.concat
              (map (aiRecords runId studentIdHeader qualitativeQuestions i batch)
                   object))
        (identifiedTopics st) (identifiedSubCategories st) (llmCalls st).
Proof.
  induction object as [| r rest IH]; intros st; simpl.
  - destruct st. simpl. now rewrite !app_nil_r.
  - rewrite IH. simpl. now rewrite <- !app_assoc.
Qed.


(** The rows and the prompt input of batch [S k]. *)
Definition batchRows (k : nat) : list Row :=
  slice (k * BATCH_SIZE) (k * BATCH_SIZE + BATCH_SIZE) rows.

Definition batchInput (k : nat) : list PromptItem :=
  batchInputForPrompt studentIdHeader qualitativeQuestions (k * BATCH_SIZE)
    (batchRows k).

Definition batchCategorical (k : nat) : list Categorization :=
  categoricalPass runId studentIdHeader categoricalQuestions (k * BATCH_SIZE)
    (batchRows k).

Definition promptFor (k : nat) (st : RunState) : string :=
  batchPrompt (S k) (identifiedTopics st) (identifiedSubCategories st)
    (batchInput k).

Lemma batchDelta_skipped (k : nat) (st : RunState) :
  callsAi qualitativeQuestions (batchInput k) = false ->
  batchDelta k st
  = mkRunState [batchStart (S k) totalBatches] (batchCategorical k)
      (identifiedTopics st) (identifiedSubCategories st) [].
Proof.
  intros H. unfold batchDelta, processBatch.
  fold qualitativeQuestions categoricalQuestions.
  fold (batchRows k). fold (batchInput k). rewrite H.
  rewrite batchNumber_exact. reflexivity.
Qed.

Lemma batchDelta_failed (k : nat) (st : RunState) :
  callsAi qualitativeQuestions (batchInput k) = true ->
  isObject (analyzeFeedbackBatch c (S k) (promptFor k st)) = false ->
  batchDelta k st
  = mkRunState
      [batchStart (S k) totalBatches;
       batchError (S k)
         (failureMessage (analyzeFeedbackBatch c (S k) (promptFor k st)))]
      (batchCategorical k)
      (identifiedTopics st) (identifiedSubCategories st)
      [(S k, promptFor k st)].
Proof.
  intros H Hfail. unfold batchDelta, processBatch.
  fold qualitativeQuestions categoricalQuestions.
  fold (batchRows k). fold (batchInput k). rewrite H.
  rewrite batchNumber_exact. unfold qualitativePass.
  change (batchPrompt (S k) _ _ (batchInput k)) with (promptFor k st).
  destruct (analyzeFeedbackBatch c (S k) (promptFor k st)); try discriminate;
    reflexivity.
Qed.

Lemma batchDelta_object (k : nat) (st : RunState)
  (object : list Llm.CategorizedStudent) :
  callsAi qualitativeQuestions (batchInput k) = true ->
  analyzeFeedbackBatch c (S k) (promptFor k st) = LlmObject object ->
  let nr := normalizeResult object
              (identifiedTopics st, identifiedSubCategories st) in
  batchDelta k st
  = mkRunState
      (batchStart (S k) totalBatches :: map result (fst nr))
      (batchCategorical k
       ++ List.concat
            (map (aiRecords runId studentIdHeader qualitativeQuestions
                    (k * BATCH_SIZE) (batchRows k))
                 (fst nr)))
      (fst (snd nr)) (snd (snd nr))
      [(S k, promptFor k st)].
Proof.
  intros H Hobj nr. unfold batchDelta, processBatch.
  fold qualitativeQuestions categoricalQuestions.
  fold (batchRows k). fold (batchInput k). rewrite H.
  rewrite batchNumber_exact. unfold qualitativePass.
  change (batchPrompt (S k) _ _ (batchInput k)) with (promptFor k st).
  rewrite Hobj. simpl (identifiedTopics _). simpl (identifiedSubCategories _).
  fold nr. destruct nr as [normalized ctx] eqn:E.
  rewrite accumulate_eq. reflexivity.
Qed.

(** *** The run as the sequence of its turns *)

(** What batch [S k] adds in the run. *)
Definition delta (k : nat) : RunState := batchDelta k (stateAfter k).

Lemma stateAfter_S (k : nat) : stateAfter (S k) = extend (stateAfter k) (delta k).
Proof. cbn [stateAfter]. apply processBatch_frame. Qed.

Lemma sent_stateAfter (n : nat) :
  sent (stateAfter n) = List.concat (map (fun k => sent (delta k)) (seq 0 n)).
Proof.
  induction n as [| n IH]; [reflexivity |].
  rewrite stateAfter_S, seq_S, map_app, concat_app. simpl.
  now rewrite IH, app_nil_r.
Qed.

Lemma ledger_stateAfter (n : nat) :
  allRunCategorizations (stateAfter n)
  = List.concat (map (fun k => allRunCategorizations (delta k)) (seq 0 n)).
Proof.
  induction n as [| n IH]; [reflexivity |].
  rewrite stateAfter_S, seq_S, map_app, concat_app. simpl.
  now rewrite IH, app_nil_r.
Qed.

Lemma llmCalls_stateAfter (n : nat) :
  llmCalls (stateAfter n)
  = List.concat (map (fun k => llmCalls (delta k)) (seq 0 n)).
Proof.
  induction n as [| n IH]; [reflexivity |].
  rewrite stateAfter_S, seq_S, map_app, concat_app. simpl.
  now rewrite IH, app_nil_r.
Qed.


(** The three shapes of a turn. *)
Lemma delta_cases (k : nat) :
  (callsAi qualitativeQuestions (batchInput k) = false /\
   delta k
   = mkRunState [batchStart (S k) totalBatches] (batchCategorical k)
       (identifiedTopics (stateAfter k)) (identifiedSubCategories (stateAfter k))
       [])
  \/
  (callsAi qualitativeQuestions (batchInput k) = true /\
   isObject (analyzeFeedbackBatch c (S k) (promptFor k (stateAfter k))) = false /\
   delta k
   = mkRunState
       [batchStart (S k) totalBatches;
        batchError (S k)
          (failureMessage
             (analyzeFeedbackBatch c (S k) (promptFor k (stateAfter k))))]
       (batchCategorical k)
       (identifiedTopics (stateAfter k)) (identifiedSubCategories (stateAfter k))
       [(S k, promptFor k (stateAfter k))])
  \/
  (exists object,
     callsAi qualitativeQuestions (batchInput k) = true /\
     analyzeFeedbackBatch c (S k) (promptFor k (stateAfter k)) = LlmObject object /\
     let nr := normalizeResult object
                 (identifiedTopics (stateAfter k),
                  identifiedSubCategories (stateAfter k)) in
     delta k
     = mkRunState
         (batchStart (S k) totalBatches :: map result (fst nr))
         (batchCategorical k
          ++ List.concat
               (map (aiRecords runId studentIdHeader qualitativeQuestions
                       (k * BATCH_SIZE) (batchRows k))
                    (fst nr)))
         (fst (snd nr)) (snd (snd nr))
         [(S k, promptFor k (stateAfter k))]).
Proof.
  destruct (callsAi qualitativeQuestions (batchInput k)) eqn:Hc.
  - destruct (analyzeFeedbackBatch c (S k) (promptFor k (stateAfter k)))
      as [object | | e] eqn:Ho.
    + right; right. exists object. repeat split.
      now apply batchDelta_object.
    + right; left. repeat split. unfold delta.
      rewrite batchDelta_failed; rewrite ?Ho; auto.
    + right; left. repeat split. unfold delta.
      rewrite batchDelta_failed; rewrite ?Ho; auto.
  - left. split; [reflexivity |]. now apply batchDelta_skipped.
Qed.

(** *** After the loop *)

Definition summaryTextOf (useMockLlm : bool) (runStats : RunStats) : string :=
  fst (generateSummary c useMockLlm runStats initialState).

(** The event of the summary step: the summary, or the error event when
    the summarizer throws. *)
Definition summaryEvents (useMockLlm : bool) (runStats : RunStats)
  : list StreamMessage :=
  sent (snd (generateSummary c useMockLlm runStats initialState)).

Definition saveEvents (data : FinalRunData) : list StreamMessage :=
  sent (saveFinalResults c runId data initialState).

Definition completeEvent : StreamMessage :=
  complete ("Processing and statistics finished for "
            ++ nat_to_string (List.length rows) ++ " rows.").

Lemma finish_eq (useMockLlm : bool) (st : RunState) :
  let runStats := calculateStats (allRunCategorizations st) in
  finish c useMockLlm runId (List.length rows) st
  = mkRunState
      (sent st
       ++ stats runStats
          :: summaryEvents useMockLlm runStats
          ++ saveEvents (mkFinalRunData (allRunCategorizations st) runStats
                           (summaryTextOf useMockLlm runStats))
          ++ [completeEvent])
      (allRunCategorizations st) (identifiedTopics st)
      (identifiedSubCategories st) (llmCalls st).
Proof.
  intros runStats. unfold finish. fold runStats.
  unfold summaryEvents, summaryTextOf, saveEvents, generateSummary,
    saveFinalResults, completeEvent.
  destruct ((0 <? List.length runStats) && negb useMockLlm);
    [destruct (generateText c runStats) | destruct useMockLlm];
    cbn [fst snd];
    match goal with
    | |- context [upsert c runId ?d] => destruct (upsert c runId d)
    end;
    unfold sendStreamMessage; simpl; rewrite <- ?app_assoc; reflexivity.
Qed.

(** The summary step sends one event: the summary or an error event
    without batch index. *)
Lemma summaryEvents_cases (useMockLlm : bool) (runStats : RunStats) :
  (exists text, summaryEvents useMockLlm runStats = [summary text]) \/
  (exists e,
     0 < List.length runStats /\ useMockLlm = false /\
     generateText c runStats = TextThrow e /\
     summaryEvents useMockLlm runStats
     = [error ("Failed to generate AI summary: "
               ++ messageOf e "Unknown error generating summary") None]).
Proof.
  unfold summaryEvents, generateSummary.
  destruct (0 <? List.length runStats) eqn:L; destruct useMockLlm; simpl;
    try (left; eexists; reflexivity).
  destruct (generateText c runStats) as [text | e] eqn:G; simpl.
  - left. eexists. reflexivity.
  - right. exists e. apply Nat.ltb_lt in L. auto.
Qed.

Lemma saveEvents_cases (data : FinalRunData) :
  saveEvents data = [] \/ exists message, saveEvents data = [error message None].
Proof.
  unfold saveEvents, saveFinalResults.
  destruct (upsert c runId data); simpl; [left; reflexivity | |];
    right; eexists; reflexivity.
Qed.

End BatchLoop.

(** *** The response of the route *)


(** The state of the run of an accepted request after its first [n]
    batches. *)
Definition runAfter (c : Collaborators) (req : Request) (m : ConfirmedMapping)
  (n : nat) : RunState :=
  stateAfter c (runId req) (studentIdHeader m) (questionHeaders m) (rows req) n.

(** An accepted request is answered, with the stream of the finished run. *)
Lemma POST_accepted (env : Env) (c : Collaborators) (req : Request)
  (m : ConfirmedMapping) :
  Accepted env req m ->
  POST env c req
  = Some (EventStream
            (finish c (useMockLlmOf env) (runId req) (List.length (rows req))
               (runAfter c req m (totalBatchesOf req)))).
Proof.
  intros [Hcred [Hm Hvalid]]. unfold POST. rewrite Hm, Hvalid.
  unfold start. rewrite Hcred. rewrite batchLoop_total. reflexivity.
Qed.

(** Without the credentials of the store the stream carries one error
    event and is closed: no batch runs and there is no complete event. *)
Lemma POST_setup_failure (env : Env) (c : Collaborators) (req : Request)
  (m : ConfirmedMapping) :
  confirmedMapping req = Some m ->
  invalidPayload req = false ->
  env_missing (SUPABASE_URL env) || env_missing (SUPABASE_ANON_KEY env) = true ->
  POST env c req
  = Some (EventStream
            (mkRunState
               [error "Server error: Missing Supabase environment variables" None]
               [] [] [] [])).
Proof.
  intros Hm Hvalid Hmissing. unfold POST. rewrite Hm, Hvalid.
  unfold start, getSupabaseCredentials. rewrite Hmissing. reflexivity.
Qed.

(** A request that fails the basic validation gets the 400 response. *)
Lemma POST_invalid_payload (env : Env) (c : Collaborators) (req : Request) :
  invalidPayload req = true ->
  POST env c req = Some (Response400 (error "Invalid request payload" None)).
Proof.
  intros H. unfold POST. destruct (confirmedMapping req); [| reflexivity].
  now rewrite H.
Qed.

(** The route answers every request. *)
Lemma POST_returns (env : Env) (c : Collaborators) (req : Request) :
  exists response, POST env c req = Some response.
Proof.
  unfold POST. destruct (confirmedMapping req) as [m |]; [| eauto].
  destruct (invalidPayload req); [eauto |].
  unfold start. destruct (getSupabaseCredentials env); [simpl; eauto |].
  rewrite batchLoop_total. simpl. eauto.
Qed.

(** *** Rows, batches and the categorical pass *)

Lemma slice_nth {A : Type} (xs : list A) (k idx : nat) (x : A) :
  nth_error (slice (k * BATCH_SIZE) (k * BATCH_SIZE + BATCH_SIZE) xs) idx = Some x
  <-> idx < BATCH_SIZE /\ nth_error xs (k * BATCH_SIZE + idx) = Some x.
Proof.
  unfold slice.
  replace (k * BATCH_SIZE + BATCH_SIZE - k * BATCH_SIZE) with BATCH_SIZE by lia.
  rewrite nth_error_firstn, nth_error_skipn.
  destruct (Nat.ltb idx BATCH_SIZE) eqn:E.
  - apply Nat.ltb_lt in E. tauto.
  - apply Nat.ltb_ge in E. split; [discriminate | lia].
Qed.

Lemma respondentIdOf_shift (sid : string) (i : nat) (row : Row) (index : nat) :
  respondentIdOf sid i row index = respondentIdOf sid 0 row (i + index).
Proof. reflexivity. Qed.

Lemma categoricalRecord_shift (rid sid : string) (i : nat) (row : Row)
  (index : nat) (q : QuestionHeaderInfo) :
  categoricalRecord rid sid i row index q
  = categoricalRecord rid sid 0 row (i + index) q.
Proof. reflexivity. Qed.

Lemma categoricalPass_In (rid sid : string) (cqs : list QuestionHeaderInfo)
  (i : nat) (batch : list Row) (r : Categorization) :
  In r (categoricalPass rid sid cqs i batch) <->
  exists index row q,
    nth_error batch index = Some row /\ In q cqs /\
    r = categoricalRecord rid sid i row index q.
Proof.
  unfold categoricalPass, mapi. rewrite in_concat. split.
  - intros [l [Hl Hr]]. apply In_mapi_from in Hl.
    destruct Hl as [index [row [Hrow ->]]].
    apply in_map_iff in Hr. destruct Hr as [q [<- Hq]].
    exists index, row, q. auto.
  - intros [index [row [q [Hrow [Hq ->]]]]].
    eexists. split.
    + apply In_mapi_from. exists index, row. split; [exact Hrow | reflexivity].
    + simpl. now apply in_map.
Qed.

Lemma strict_eq_str_true (v : JsValue) (s : string) :
  strict_eq_str v s = true <-> v = JStr s.
Proof.
  destruct v as [t | r | b | | name |]; simpl; try (split; discriminate).
  rewrite String.eqb_eq. split; intros H; [now subst | now inversion H].
Qed.

Lemma findOriginalRow_Some (sid : string) (i : nat) (batch : list Row)
  (id : string) (row : Row) :
  forall start,
    findOriginalRow sid i start batch id = Some row ->
    exists index,
      nth_error batch index = Some row /\
      respondentIdOf sid i row (start + index) = JStr id.
Proof.
  induction batch as [| row0 rest IH]; intros start H; simpl in H;
    [discriminate |].
  destruct (strict_eq_str (respondentIdOf sid i row0 start) id) eqn:E.
  - inversion H; subst. exists 0. split; [reflexivity |].
    rewrite Nat.add_0_r. now apply strict_eq_str_true.
  - apply IH in H. destruct H as [index [Hn Hid]].
    exists (S index). split; [exact Hn |].
    now rewrite <- Nat.add_succ_comm.
Qed.

(** *** Normalization of the LLM result *)


Lemma normalizeCategorization_fst (cat : Llm.CategorizedAnswer)
  (ctx : list string * list string) :
  fst (normalizeCategorization cat ctx) = normalizedAnswer cat.
Proof. destruct ctx. reflexivity. Qed.

Lemma normalizeCategorizations_fst (cats : list Llm.CategorizedAnswer) :
  forall ctx, fst (normalizeCategorizations cats ctx) = map normalizedAnswer cats.
Proof.
  induction cats as [| cat rest IH]; intros ctx; simpl; [reflexivity |].
  pose proof (normalizeCategorization_fst cat ctx) as H1.
  destruct (normalizeCategorization cat ctx) as [cat' ctx1].
  pose proof (IH ctx1) as H2.
  destruct (normalizeCategorizations rest ctx1) as [rest' ctx2].
  simpl in *. congruence.
Qed.

Lemma normalizeResult_fst (object : list Llm.CategorizedStudent) :
  forall ctx, fst (normalizeResult object ctx) = map normalizedStudent object.
Proof.
  induction object as [| s rest IH]; intros ctx; simpl; [reflexivity |].
  pose proof (normalizeCategorizations_fst (Llm.categorizations s) ctx) as H1.
  destruct (normalizeCategorizations (Llm.categorizations s) ctx) as [cats' ctx1].
  pose proof (IH ctx1) as H2.
  destruct (normalizeResult rest ctx1) as [rest' ctx2].
  cbn [fst snd] in *. subst cats' rest'. reflexivity.
Qed.

Lemma add_incl (set : list string) (x : string) : incl set (add set x).
Proof.
  unfold add. destruct (includes set x); [apply incl_refl |].
  apply incl_appl, incl_refl.
Qed.

Lemma add_In (set : list string) (x : string) : In x (add set x).
Proof.
  unfold add. destruct (includes set x) eqn:E.
  - now apply includes_In.
  - apply in_or_app. right. now left.
Qed.

(** [ctx] is contained in [ctx'], set by set. *)
Definition ctx_incl (ctx ctx' : list string * list string) : Prop :=
  incl (fst ctx) (fst ctx') /\ incl (snd ctx) (snd ctx').

Lemma ctx_incl_refl ctx : ctx_incl ctx ctx.
Proof. split; apply incl_refl. Qed.

Lemma ctx_incl_trans a b d : ctx_incl a b -> ctx_incl b d -> ctx_incl a d.
Proof. intros [H1 H2] [H3 H4]. split; eapply incl_tran; eauto. Qed.

(** A categorization has its normalized topic, when not ["n/a"], and its
    normalized sub-category, when there is one, in the context sets. *)
Definition recorded (cat : Llm.CategorizedAnswer)
  (ctx : list string * list string) : Prop :=
  (normalizedTopicOf cat <> "n/a" -> In (normalizedTopicOf cat) (fst ctx)) /\
  (forall s, normalizedSubCategoryOf cat = Some s -> In s (snd ctx)).

Lemma recorded_mono cat ctx ctx' :
  ctx_incl ctx ctx' -> recorded cat ctx -> recorded cat ctx'.
Proof.
  intros [H1 H2] [R1 R2]. split.
  - intros H. apply H1. auto.
  - intros s H. apply H2. eauto.
Qed.

Lemma normalizeCategorization_ctx (cat : Llm.CategorizedAnswer)
  (ctx : list string * list string) :
  ctx_incl ctx (snd (normalizeCategorization cat ctx)) /\
  recorded cat (snd (normalizeCategorization cat ctx)).
Proof.
  destruct ctx as [topics subs]. unfold normalizeCategorization, ctx_incl, recorded.
  cbn [fst snd]. repeat split.
  - destruct (negb _); [apply add_incl | apply incl_refl].
  - destruct (normalizedSubCategoryOf cat); [apply add_incl | apply incl_refl].
  - intros H. apply String.eqb_neq in H. rewrite H. apply add_In.
  - intros s ->. apply add_In.
Qed.

Lemma normalizeCategorizations_ctx (cats : list Llm.CategorizedAnswer) :
  forall ctx,
    ctx_incl ctx (snd (normalizeCategorizations cats ctx)) /\
    forall cat, In cat cats ->
                recorded cat (snd (normalizeCategorizations cats ctx)).
Proof.
  induction cats as [| cat0 rest IH]; intros ctx; simpl.
  - split; [apply ctx_incl_refl | tauto].
  - pose proof (normalizeCategorization_ctx cat0 ctx) as [H1 H2].
    destruct (normalizeCategorization cat0 ctx) as [cat' ctx1].
    pose proof (IH ctx1) as [H3 H4].
    destruct (normalizeCategorizations rest ctx1) as [rest' ctx2].
    cbn [fst snd] in *. split.
    + eapply ctx_incl_trans; eauto.
    + intros cat [<- | Hin]; [| auto].
      eapply recorded_mono; eauto.
Qed.

Lemma normalizeResult_ctx (object : list Llm.CategorizedStudent) :
  forall ctx,
    ctx_incl ctx (snd (normalizeResult object ctx)) /\
    forall s cat,
      In s object -> In cat (Llm.categorizations s) ->
      recorded cat (snd (normalizeResult object ctx)).
Proof.
  induction object as [| s0 rest IH]; intros ctx; simpl.
  - split; [apply ctx_incl_refl | tauto].
  - pose proof (normalizeCategorizations_ctx (Llm.categorizations s0) ctx)
      as [H1 H2].
    destruct (normalizeCategorizations (Llm.categorizations s0) ctx)
      as [cats' ctx1].
    pose proof (IH ctx1) as [H3 H4].
    destruct (normalizeResult rest ctx1) as [rest' ctx2].
    cbn [fst snd] in *. split.
    + eapply ctx_incl_trans; eauto.
    + intros s cat [<- | Hin] Hcat; [| eauto].
      eapply recorded_mono; eauto.
Qed.

(** *** Ledger, calls, context and events of a run *)

Definition ctxOf (st : RunState) : list string * list string :=
  (identifiedTopics st, identifiedSubCategories st).

Section RunFacts.

Variable c : Collaborators.
Variables runId studentIdHeader : string.
Variable questionHeaders : list QuestionHeaderInfo.
Variable rows : list Row.

Let totalBatches : nat := ceilDiv (List.length rows) BATCH_SIZE.
Let qualitativeQuestions : list QuestionHeaderInfo :=
  filter isQualitative questionHeaders.
Let categoricalQuestions : list QuestionHeaderInfo :=
  filter isCategorical questionHeaders.
Let after : nat -> RunState :=
  stateAfter c runId studentIdHeader questionHeaders rows.
Let turn : nat -> RunState :=
  delta c runId studentIdHeader questionHeaders rows.
Let input : nat -> list PromptItem :=
  batchInput studentIdHeader questionHeaders rows.
Let promptOf (k : nat) : string :=
  promptFor studentIdHeader questionHeaders rows k (after k).

Lemma turn_cases (k : nat) :
  (callsAi qualitativeQuestions (input k) = false /\
   turn k
   = mkRunState [batchStart (S k) totalBatches]
       (batchCategorical runId studentIdHeader questionHeaders rows k)
       (identifiedTopics (after k)) (identifiedSubCategories (after k)) [])
  \/
  (callsAi qualitativeQuestions (input k) = true /\
   isObject (analyzeFeedbackBatch c (S k) (promptOf k)) = false /\
   turn k
   = mkRunState
       [batchStart (S k) totalBatches;
        batchError (S k)
          (failureMessage (analyzeFeedbackBatch c (S k) (promptOf k)))]
       (batchCategorical runId studentIdHeader questionHeaders rows k)
       (identifiedTopics (after k)) (identifiedSubCategories (after k))
       [(S k, promptOf k)])
  \/
  (exists object,
     callsAi qualitativeQuestions (input k) = true /\
     analyzeFeedbackBatch c (S k) (promptOf k) = LlmObject object /\
     turn k
     = mkRunState
         (batchStart (S k) totalBatches :: map result (map normalizedStudent object))
         (batchCategorical runId studentIdHeader questionHeaders rows k
          ++ List.concat
               (map (aiRecords runId studentIdHeader qualitativeQuestions
                       (k * BATCH_SIZE) (batchRows rows k))
                    (map normalizedStudent object)))
         (fst (snd (normalizeResult object (ctxOf (after k)))))
         (snd (snd (normalizeResult object (ctxOf (after k)))))
         [(S k, promptOf k)]).
Proof.
  destruct (delta_cases c runId studentIdHeader questionHeaders rows k)
    as [H | [H | [object [H1 [H2 H3]]]]]; [left | right; left | right; right];
    try exact H.
  exists object. split; [exact H1 |]. split; [exact H2 |].
  cbv zeta in H3. rewrite normalizeResult_fst in H3. exact H3.
Qed.


Lemma turn_keeps_categorical (k : nat) (r : Categorization) :
  In r (batchCategorical runId studentIdHeader questionHeaders rows k) ->
  In r (allRunCategorizations (turn k)).
Proof.
  intros Hin.
  destruct (turn_cases k) as [[_ H] | [[_ [_ H]] | [object [_ [_ H]]]]];
    rewrite H; simpl; auto.
  apply in_or_app. now left.
Qed.

Lemma ledger_after_In (n : nat) (r : Categorization) :
  In r (allRunCategorizations (after n)) <->
  exists k, k < n /\ In r (allRunCategorizations (turn k)).
Proof.
  unfold after, turn. rewrite ledger_stateAfter. exact (in_concat_seq _ _ _).
Qed.

Lemma sent_after_In (n : nat) (m : StreamMessage) :
  In m (sent (after n)) <-> exists k, k < n /\ In m (sent (turn k)).
Proof.
  unfold after, turn. rewrite sent_stateAfter. exact (in_concat_seq _ _ _).
Qed.

Lemma calls_after_In (n : nat) (call : nat * string) :
  In call (llmCalls (after n)) <->
  exists k, k < n /\ In call (llmCalls (turn k)).
Proof.
  unfold after, turn. rewrite llmCalls_stateAfter. exact (in_concat_seq _ _ _).
Qed.

(** The calls of a turn: none, or the one call with the prompt built from
    the context sets at the start of the turn. *)
Lemma turn_calls (k : nat) (call : nat * string) :
  In call (llmCalls (turn k)) <->
  callsAi qualitativeQuestions (input k) = true /\ call = (S k, promptOf k).
Proof.
  destruct (turn_cases k) as [[Hc H] | [[Hc [_ H]] | [object [Hc [_ H]]]]];
    rewrite H; simpl; rewrite Hc; intuition congruence.
Qed.

Lemma calls_after (n b : nat) (prompt : string) :
  In (b, prompt) (llmCalls (after n)) <->
  exists k,
    k < n /\ b = S k /\ prompt = promptOf k /\
    callsAi qualitativeQuestions (input k) = true.
Proof.
  rewrite calls_after_In. split.
  - intros [k [Hk Hin]]. apply turn_calls in Hin. destruct Hin as [Hc Heq].
    inversion Heq; subst. exists k. auto.
  - intros [k [Hk [-> [-> Hc]]]]. exists k. split; [assumption |].
    apply turn_calls. auto.
Qed.

(** Row [n] is in batch [n / BATCH_SIZE + 1], whose categorical pass
    records it for every categorical question. *)
Lemma categorical_kept (n : nat) (row : Row) (q : QuestionHeaderInfo) :
  nth_error rows n = Some row ->
  In q questionHeaders -> isCategorical q = true ->
  In (categoricalRecord runId studentIdHeader 0 row n q)
     (allRunCategorizations (after totalBatches)).
Proof.
  intros Hrow Hq Hcat.
  assert (n < List.length rows) as Hlt
      by (apply nth_error_Some; congruence).
  pose proof (Nat.div_mod_eq n BATCH_SIZE) as Hdm.
  assert (n mod BATCH_SIZE < BATCH_SIZE) as Hmod
      by (apply Nat.mod_upper_bound; discriminate).
  set (k := n / BATCH_SIZE) in *. set (idx := n mod BATCH_SIZE) in *.
  assert (n = k * BATCH_SIZE + idx) as Hn by lia.
  apply ledger_after_In. exists k. split.
  - apply ceilDiv_gt. lia.
  - apply turn_keeps_categorical. unfold batchCategorical.
    apply categoricalPass_In. exists idx, row, q. split; [| split].
    + apply slice_nth. split; [assumption |].
      exact (eq_ind n (fun x => nth_error rows x = Some row) Hrow _ Hn).
    + apply filter_In. auto.
    + rewrite (categoricalRecord_shift _ _ (k * BATCH_SIZE)). f_equal. exact Hn.
Qed.

(** Where a record of the ledger comes from: the categorical pass on a row
    and a categorical question, or a categorization of the object the LLM
    returned for a batch, for a qualitative question and a respondent whose
    identifier is that of a row of the batch. *)
Lemma ledger_provenance (n : nat) (r : Categorization) :
  In r (allRunCategorizations (after n)) ->
  (exists pos row q,
      nth_error rows pos = Some row /\ In q questionHeaders /\
      isCategorical q = true /\
      r = categoricalRecord runId studentIdHeader 0 row pos q)
  \/
  (exists k object student cat pos row q,
      k < n /\
      callsAi qualitativeQuestions (input k) = true /\
      analyzeFeedbackBatch c (S k) (promptOf k) = LlmObject object /\
      In student object /\ In cat (Llm.categorizations student) /\
      In q questionHeaders /\ isCategorical q = false /\
      header q = Llm.question cat /\
      k * BATCH_SIZE <= pos < k * BATCH_SIZE + BATCH_SIZE /\
      nth_error rows pos = Some row /\
      respondentIdOf studentIdHeader 0 row pos = JStr (Llm.respondentId student) /\
      r = aiRecord runId (Llm.respondentId student) row (normalizedAnswer cat)).
Proof.
  intros Hin. apply ledger_after_In in Hin. destruct Hin as [k [Hk Hin]].
  assert (In r (batchCategorical runId studentIdHeader questionHeaders rows k) ->
          exists pos row q,
            nth_error rows pos = Some row /\ In q questionHeaders /\
            isCategorical q = true /\
            r = categoricalRecord runId studentIdHeader 0 row pos q) as Hcat.
  { unfold batchCategorical. intros H. apply categoricalPass_In in H.
    destruct H as [idx [row [q [Hrow [Hq ->]]]]].
    apply slice_nth in Hrow. destruct Hrow as [_ Hrow].
    apply filter_In in Hq. destruct Hq as [Hq1 Hq2].
    exists (k * BATCH_SIZE + idx), row, q.
    rewrite categoricalRecord_shift. auto. }
  destruct (turn_cases k) as [[_ H] | [[_ [_ H]] | [object [Hc [Ho H]]]]];
    rewrite H in Hin; simpl in Hin; auto.
  apply in_app_or in Hin. destruct Hin as [Hin | Hin]; [auto |].
  right. apply in_concat in Hin. destruct Hin as [l [Hl Hr]].
  apply in_map_iff in Hl. destruct Hl as [student' [<- Hs]].
  apply in_map_iff in Hs. destruct Hs as [student [<- Hs]].
  unfold aiRecords in Hr. simpl in Hr.
  destruct (findOriginalRow studentIdHeader (k * BATCH_SIZE) 0
              (batchRows rows k) (Llm.respondentId student))
    as [originalRow |] eqn:F; [| contradiction].
  apply findOriginalRow_Some in F. destruct F as [idx [Hrow Hid]].
  apply slice_nth in Hrow. destruct Hrow as [Hidx Hrow].
  apply in_map_iff in Hr. destruct Hr as [cat' [<- Hcat']].
  apply filter_In in Hcat'. destruct Hcat' as [Hcat' Hp].
  apply in_map_iff in Hcat'. destruct Hcat' as [cat [<- Hcat']].
  unfold processedByAi in Hp. apply existsb_exists in Hp.
  destruct Hp as [q [Hq Hh]]. apply filter_In in Hq. destruct Hq as [Hq1 Hq2].
  unfold header_is in Hh. apply String.eqb_eq in Hh. simpl in Hh.
  unfold isQualitative in Hq2. apply negb_true_iff in Hq2.
  exists k, object, student, cat, (k * BATCH_SIZE + idx), originalRow, q.
  rewrite respondentIdOf_shift in Hid. simpl in Hid.
  repeat split; auto; lia.
Qed.

(** The context sets only grow, turn after turn. *)
Lemma ctx_turn (k : nat) : ctx_incl (ctxOf (after k)) (ctxOf (after (S k))).
Proof.
  unfold after. rewrite stateAfter_S. fold (turn k). fold (after k).
  unfold ctxOf at 2. simpl.
  destruct (turn_cases k) as [[_ H] | [[_ [_ H]] | [object [_ [_ H]]]]];
    rewrite H; simpl; try apply ctx_incl_refl.
  destruct (normalizeResult_ctx object (ctxOf (after k))) as [Hincl _].
  exact Hincl.
Qed.

Lemma ctx_mono (k k' : nat) :
  k <= k' -> ctx_incl (ctxOf (after k)) (ctxOf (after k')).
Proof.
  induction 1 as [| k' Hle IH]; [apply ctx_incl_refl |].
  eapply ctx_incl_trans; [exact IH | apply ctx_turn].
Qed.

(** What the LLM returned for a batch is in the context sets from the end
    of that batch on. *)
Lemma recorded_after (k k' : nat) (object : list Llm.CategorizedStudent)
  (student : Llm.CategorizedStudent) (cat : Llm.CategorizedAnswer) :
  callsAi qualitativeQuestions (input k) = true ->
  analyzeFeedbackBatch c (S k) (promptOf k) = LlmObject object ->
  In student object -> In cat (Llm.categorizations student) ->
  k < k' ->
  recorded cat (ctxOf (after k')).
Proof.
  intros Hc Ho Hs Hcat Hlt.
  apply recorded_mono with (ctx := ctxOf (after (S k)));
    [apply ctx_mono; lia |].
  unfold after. rewrite stateAfter_S. fold (turn k). fold (after k).
  destruct (turn_cases k) as [[Hc' _] | [[_ [Hf _]] | [object' [_ [Ho' H]]]]].
  - congruence.
  - rewrite Ho in Hf. discriminate.
  - rewrite Ho in Ho'. inversion Ho'; subst object'.
    rewrite H. unfold ctxOf at 1. simpl.
    destruct (normalizeResult_ctx object (ctxOf (after k))) as [_ Hrec].
    rewrite <- surjective_pairing. eauto.
Qed.

End RunFacts.

(** *** The finished run *)

Lemma finish_fields (c : Collaborators) (useMockLlm : bool) (runId : string)
  (rows : list Row) (st : RunState) :
  let final := finish c useMockLlm runId (List.length rows) st in
  allRunCategorizations final = allRunCategorizations st /\
  llmCalls final = llmCalls st /\
  identifiedTopics final = identifiedTopics st /\
  identifiedSubCategories final = identifiedSubCategories st.
Proof.
  cbv zeta. rewrite finish_eq. simpl. auto.
Qed.

(** An accepted request: the response, and the state at the end of the
    batch loop that the final state extends by the closing events. *)
Lemma accepted_run (env : Env) (c : Collaborators) (req : Request)
  (m : ConfirmedMapping) :
  Accepted env req m ->
  exists final,
    POST env c req = Some (EventStream final) /\
    final = finish c (useMockLlmOf env) (runId req) (List.length (rows req))
              (runAfter c req m (totalBatchesOf req)) /\
    allRunCategorizations final
    = allRunCategorizations (runAfter c req m (totalBatchesOf req)) /\
    llmCalls final = llmCalls (runAfter c req m (totalBatchesOf req)) /\
    ctxOf final = ctxOf (runAfter c req m (totalBatchesOf req)).
Proof.
  intros Hacc. eexists. split; [apply POST_accepted; exact Hacc |].
  split; [reflexivity |].
  destruct (finish_fields c (useMockLlmOf env) (runId req) (rows req)
              (runAfter c req m (totalBatchesOf req))) as [H1 [H2 [H3 H4]]].
  unfold ctxOf. rewrite H1, H2, H3, H4. auto.
Qed.

(** ** The categorical pass *)

(** C3, as the code has it. For every row and every categorical question
    header of an accepted request, the ledger of the run holds the
    categorization whose topic is the header trimmed, lowercased and with
    every run of white space replaced by one underscore, whose sentiment is
    "n/a", and whose sub_category is the raw answer text
    [String(row[question] ?? '')] normalized in the same way, or
    "detail_na" when that is empty. In particular, where the row has no
    cell under a header that names no member objects inherit, the raw
    answer text is empty and the sub_category is "detail_na". *)
Theorem C3_categorical_pass (env : Env) (c : Collaborators) (req : Request)
  (m : ConfirmedMapping) :
  Accepted env req m ->
  exists final,
    POST env c req = Some (EventStream final) /\
    forall n row q,
      nth_error (rows req) n = Some row ->
      In q (questionHeaders m) -> isCategorical q = true ->
      let raw := String_ (nullish (get row (header q)) (JStr "")) in
      In (mkCategorization (runId req)
            (respondentIdOf (studentIdHeader m) 0 row n) (header q) (JStr raw)
            (Some (normalize (header q)))
            (Some "n/a")
            (Some (if falsy_str (normalize raw) then "detail_na"
                   else normalize raw)))
         (allRunCategorizations final) /\
      (getOwn row (header q) = None -> inherited (header q) = None ->
       In (mkCategorization (runId req)
             (respondentIdOf (studentIdHeader m) 0 row n) (header q) (JStr "")
             (Some (normalize (header q))) (Some "n/a") (Some "detail_na"))
          (allRunCategorizations final)).
Proof.
  intros Hacc. destruct (accepted_run env c req m Hacc) as [final [HP [_ [HL _]]]].
  exists final. split; [exact HP |]. intros n row q Hrow Hq Hcat raw.
  rewrite HL.
  pose proof (categorical_kept c (runId req) (studentIdHeader m)
                (questionHeaders m) (rows req) n row q Hrow Hq Hcat) as Hin.
  split; [exact Hin |].
  intros Hown Hinh. unfold categoricalRecord, get in Hin.
  rewrite Hown, Hinh in Hin. exact Hin.
Qed.

Lemma C3_witness :
  exists final,
    POST Scenarios.env Scenarios.collaborators Scenarios.request
    = Some (EventStream final) /\
    forall n row q,
      nth_error [Scenarios.row1] n = Some row ->
      In q [Scenarios.rating; Scenarios.comments] -> isCategorical q = true ->
      let raw := String_ (nullish (get row (header q)) (JStr "")) in
      In (mkCategorization "run-1"
            (respondentIdOf "Email" 0 row n) (header q) (JStr raw)
            (Some (normalize (header q)))
            (Some "n/a")
            (Some (if falsy_str (normalize raw) then "detail_na"
                   else normalize raw)))
         (allRunCategorizations final) /\
      (getOwn row (header q) = None -> inherited (header q) = None ->
       In (mkCategorization "run-1"
             (respondentIdOf "Email" 0 row n) (header q) (JStr "")
             (Some (normalize (header q))) (Some "n/a") (Some "detail_na"))
          (allRunCategorizations final)).
Proof.
  apply (C3_categorical_pass Scenarios.env Scenarios.collaborators
           Scenarios.request Scenarios.mapping).
  repeat split.
Defined.

(** C3 as stated fails on the sentinel: for the row without rating the
    categorical pass records the sub_category "detail_na", not
    "no-detail". *)
Lemma C3_counterexample :
  exists final,
    POST Scenarios.env Scenarios.collaborators Scenarios.requestNoRating
    = Some (EventStream final) /\
    map (fun r => (student_identifier r, question_text r, sub_category r))
        (allRunCategorizations final)
    = [(JStr "a@x.com", "Rating", Some "5");
       (JStr "b@x.com", "Rating", Some "detail_na")] /\
    ~ In (Some "no-detail") (map sub_category (allRunCategorizations final)).
Proof.
  eexists. split; [vm_compute; reflexivity |]. split; [reflexivity |].
  simpl. intros [H | [H | []]]; discriminate H.
Qed.

(** ** The statistics of the concrete scenario *)

(** C4, as the code has it. In the scenario of the single row with a
    categorical rating and a qualitative comment classified as
    staff/positive without sub-category, the stats event carries
    Rating: rating_n/a_5 = 1 and Comments: staff_positive_detail_na = 1;
    the combined key joins topic, sentiment and the sub-category, or
    "detail_na" in its place, with underscores. *)
Theorem C4_scenario_stats :
  (exists final,
     POST Scenarios.env Scenarios.collaborators Scenarios.request
     = Some (EventStream final) /\
     calculateStats (allRunCategorizations final)
     = [("Rating", [("rating_n/a_5", 1)]);
        ("Comments", [("staff_positive_detail_na", 1)])] /\
     In (stats [("Rating", [("rating_n/a_5", 1)]);
                ("Comments", [("staff_positive_detail_na", 1)])])
        (sent final)) /\
  forall topic sentiment sub,
    combinedCategoryOf topic sentiment sub
    = topic ++ "_" ++ sentiment ++ "_"
      ++ match sub with
         | Some s => if falsy_str s then "detail_na" else s
         | None => "detail_na"
         end.
Proof.
  split; [| reflexivity].
  eexists. split; [vm_compute; reflexivity |]. split; [reflexivity |].
  simpl. tauto.
Qed.

(** C4 as stated fails: the stats event of the scenario is not the one
    with the key staff_positive_no-detail. *)
Lemma C4_counterexample :
  exists final,
    POST Scenarios.env Scenarios.collaborators Scenarios.request
    = Some (EventStream final) /\
    ~ In (stats [("Rating", [("rating_n/a_5", 1)]);
                 ("Comments", [("staff_positive_no-detail", 1)])])
         (sent final).
Proof.
  eexists. split; [vm_compute; reflexivity |].
  simpl. intros [H | [H | [H | [H | [H | []]]]]]; discriminate H.
Qed.

(** ** The qualitative pass: when it runs *)

Lemma nullish_idem (x : option JsValue) :
  nullish (Some (nullish x (JStr ""))) (JStr "") = nullish x (JStr "").
Proof. destruct x as [[] |]; reflexivity. Qed.

Lemma falsy_str_false (s : string) : negb (falsy_str s) = true <-> s <> "".
Proof. destruct s; simpl; split; congruence. Qed.

Lemma answered_iff (row : Row) (q : QuestionHeaderInfo) :
  answered (mkAnswerItem (header q) (nullish (get row (header q)) (JStr ""))) = true
  <-> trim (String_ (nullish (get row (header q)) (JStr ""))) <> "".
Proof.
  unfold answered. cbn [itemAnswer]. rewrite nullish_idem.
  apply falsy_str_false.
Qed.

Lemma nonempty_iff {A : Type} (l : list A) :
  (0 <? List.length l) = true <-> exists x, In x l.
Proof.
  destruct l as [| x rest]; simpl.
  - split; [discriminate | intros [x []]].
  - split; [eauto | reflexivity].
Qed.

(** The guard of the LLM call, read off the mapping and the batch. *)
Lemma callsAi_iff (sid : string) (qhs : list QuestionHeaderInfo) (i : nat)
  (batch : list Row) :
  callsAi (filter isQualitative qhs)
    (batchInputForPrompt sid (filter isQualitative qhs) i batch) = true
  <->
  (exists q, In q qhs /\ isCategorical q = false) /\
  (exists row q,
     In row batch /\ In q qhs /\ isCategorical q = false /\
     trim (String_ (nullish (get row (header q)) (JStr ""))) <> "").
Proof.
  assert (forall q, In q (filter isQualitative qhs) <->
                    In q qhs /\ isCategorical q = false) as Hq.
  { intros q. rewrite filter_In. unfold isQualitative.
    now rewrite negb_true_iff. }
  unfold callsAi, qualitativeDataExistsInBatch, batchInputForPrompt, mapi.
  rewrite andb_true_iff, nonempty_iff, existsb_exists. split.
  - intros [[q0 Hq0] [item [Hitem Hans]]]. split.
    + exists q0. now apply Hq.
    + apply In_mapi_from in Hitem. destruct Hitem as [n [row [Hrow ->]]].
      cbn [answers] in Hans. apply existsb_exists in Hans.
      destruct Hans as [a [Ha Hans]]. apply in_map_iff in Ha.
      destruct Ha as [q [<- Hin]]. apply answered_iff in Hans.
      apply Hq in Hin. exists row, q.
      split; [eapply nth_error_In; eauto | tauto].
  - intros [[q0 Hq0] [row [q [Hrow [Hin [Hcat Hans]]]]]]. split.
    + exists q0. now apply Hq.
    + apply In_nth_error in Hrow. destruct Hrow as [n Hrow].
      eexists. split.
      * apply In_mapi_from. exists n, row. split; [exact Hrow | reflexivity].
      * cbn [answers]. apply existsb_exists. eexists. split.
        -- apply in_map_iff. exists q. split; [reflexivity |]. now apply Hq.
        -- now apply answered_iff.
Qed.

(** X17. In the run of an accepted request the LLM is called for batch [b]
    exactly when [b] is one of the batches, the mapping has a qualitative
    question header, and some row of the batch reads a non-blank text under
    a qualitative header: [String(row[header] ?? '')], where [row[header]]
    is the cell of the row or, where the row has none, the member that
    objects inherit under that name. *)
Theorem qualitative_pass_condition (env : Env) (c : Collaborators)
  (req : Request) (m : ConfirmedMapping) :
  Accepted env req m ->
  exists final,
    POST env c req = Some (EventStream final) /\
    forall b,
      (exists prompt, In (b, prompt) (llmCalls final)) <->
      (1 <= b <= totalBatchesOf req /\
       (exists q, In q (questionHeaders m) /\ isCategorical q = false) /\
       (exists row q,
          In row (slice ((b - 1) * BATCH_SIZE)
                        ((b - 1) * BATCH_SIZE + BATCH_SIZE) (rows req)) /\
          In q (questionHeaders m) /\ isCategorical q = false /\
          trim (String_ (nullish (get row (header q)) (JStr ""))) <> "")).
Proof.
  intros Hacc.
  destruct (accepted_run env c req m Hacc) as [final [HP [_ [_ [HC _]]]]].
  exists final. split; [exact HP |]. intros b. rewrite HC. split.
  - intros [prompt Hin]. unfold runAfter in Hin. apply calls_after in Hin.
    destruct Hin as [k [Hk [-> [_ Hcalls]]]].
    unfold batchInput in Hcalls. apply callsAi_iff in Hcalls.
    replace (S k - 1) with k by lia. unfold batchRows in Hcalls.
    split; [lia | exact Hcalls].
  - intros [[Hb1 Hb2] Hcond]. destruct b as [| k]; [lia |].
    replace (S k - 1) with k in Hcond by lia.
    eexists. unfold runAfter. apply calls_after. exists k.
    split; [lia |].
    split; [reflexivity |]. split; [reflexivity |].
    unfold batchInput, batchRows. now apply callsAi_iff.
Qed.

Lemma qualitative_pass_condition_witness :
  exists final,
    POST Scenarios.env Scenarios.collaborators Scenarios.request
    = Some (EventStream final) /\
    forall b,
      (exists prompt, In (b, prompt) (llmCalls final)) <->
      (1 <= b <= 1 /\
       (exists q,
          In q [Scenarios.rating; Scenarios.comments] /\ isCategorical q = false) /\
       (exists row q,
          In row (slice ((b - 1) * BATCH_SIZE)
                        ((b - 1) * BATCH_SIZE + BATCH_SIZE) [Scenarios.row1]) /\
          In q [Scenarios.rating; Scenarios.comments] /\
          isCategorical q = false /\
          trim (String_ (nullish (get row (header q)) (JStr ""))) <> "")).
Proof.
  apply (qualitative_pass_condition Scenarios.env Scenarios.collaborators
           Scenarios.request Scenarios.mapping).
  repeat split.
Defined.

(** ** The running context *)

(** C9, as the code has it. Of what the LLM returns for a batch, every
    normalized topic other than "n/a" and every normalized sub-category is
    in the context sets at the end of the run, and in the context sets
    from which the prompt of every later call is built. *)
Theorem C9_context_accumulation (env : Env) (c : Collaborators) (req : Request)
  (m : ConfirmedMapping) :
  Accepted env req m ->
  exists final,
    POST env c req = Some (EventStream final) /\
    forall b prompt object student cat,
      In (b, prompt) (llmCalls final) ->
      analyzeFeedbackBatch c b prompt = LlmObject object ->
      In student object -> In cat (Llm.categorizations student) ->
      ((normalizedTopicOf cat <> "n/a" ->
        In (normalizedTopicOf cat) (identifiedTopics final)) /\
       (forall s, normalizedSubCategoryOf cat = Some s ->
                  In s (identifiedSubCategories final))) /\
      forall b' prompt',
        b < b' -> In (b', prompt') (llmCalls final) ->
        exists topics subCategories input,
          prompt' = batchPrompt b' topics subCategories input /\
          (normalizedTopicOf cat <> "n/a" -> In (normalizedTopicOf cat) topics) /\
          (forall s, normalizedSubCategoryOf cat = Some s -> In s subCategories).
Proof.
  intros Hacc.
  destruct (accepted_run env c req m Hacc) as [final [HP [_ [_ [HC HX]]]]].
  exists final. split; [exact HP |].
  intros b prompt object student cat Hcall Hobj Hs Hcat.
  rewrite HC in Hcall. unfold runAfter in Hcall. apply calls_after in Hcall.
  destruct Hcall as [k [Hk [-> [-> Hcalls]]]].
  assert (forall k', k < k' ->
            recorded cat
              (ctxOf (stateAfter c (runId req) (studentIdHeader m)
                        (questionHeaders m) (rows req) k'))) as Hrec.
  { intros k' Hlt. eapply recorded_after; eauto. }
  split.
  - change (recorded cat (ctxOf final)). rewrite HX. now apply Hrec.
  - intros b' prompt' Hlt Hcall'. rewrite HC in Hcall'.
    unfold runAfter in Hcall'. apply calls_after in Hcall'.
    destruct Hcall' as [k' [Hk' [-> [-> _]]]].
    unfold promptFor. do 3 eexists. split; [reflexivity |].
    apply (Hrec k'). lia.
Qed.

Lemma C9_witness :
  exists final,
    POST Scenarios.env Scenarios.collaborators Scenarios.request
    = Some (EventStream final) /\
    forall b prompt object student cat,
      In (b, prompt) (llmCalls final) ->
      analyzeFeedbackBatch Scenarios.collaborators b prompt = LlmObject object ->
      In student object -> In cat (Llm.categorizations student) ->
      ((normalizedTopicOf cat <> "n/a" ->
        In (normalizedTopicOf cat) (identifiedTopics final)) /\
       (forall s, normalizedSubCategoryOf cat = Some s ->
                  In s (identifiedSubCategories final))) /\
      forall b' prompt',
        b < b' -> In (b', prompt') (llmCalls final) ->
        exists topics subCategories input,
          prompt' = batchPrompt b' topics subCategories input /\
          (normalizedTopicOf cat <> "n/a" -> In (normalizedTopicOf cat) topics) /\
          (forall s, normalizedSubCategoryOf cat = Some s -> In s subCategories).
Proof.
  apply (C9_context_accumulation Scenarios.env Scenarios.collaborators
           Scenarios.request Scenarios.mapping).
  repeat split.
Defined.

(** C9 as stated fails on the topic "n/a": the LLM result is normalized to
    the topic "n/a", which is streamed and recorded in the ledger but is not
    added to the identified topics. *)
Lemma C9_counterexample :
  exists final,
    POST Scenarios.env Scenarios.noTopic Scenarios.request
    = Some (EventStream final) /\
    In (result
          (Llm.mkCategorizedStudent "a@x.com"
             [Llm.mkCategorizedAnswer "Comments" (Some "n/a") (Some neutral) None]))
       (sent final) /\
    In (Some "n/a") (map topic (allRunCategorizations final)) /\
    ~ In "n/a" (identifiedTopics final).
Proof.
  eexists. split; [vm_compute; reflexivity |].
  split; [simpl; tauto |]. split; [simpl; tauto |].
  simpl. tauto.
Qed.

(** ** The events of a run *)


Section RunEvents.

Variable c : Collaborators.
Variables runId studentIdHeader : string.
Variable questionHeaders : list QuestionHeaderInfo.
Variable rows : list Row.

Let totalBatches : nat := ceilDiv (List.length rows) BATCH_SIZE.
Let qualitativeQuestions : list QuestionHeaderInfo :=
  filter isQualitative questionHeaders.
Let after : nat -> RunState :=
  stateAfter c runId studentIdHeader questionHeaders rows.
Let turn : nat -> RunState :=
  delta c runId studentIdHeader questionHeaders rows.
Let promptOf (k : nat) : string :=
  promptFor studentIdHeader questionHeaders rows k (after k).






End RunEvents.

(** The stream of an accepted request: the events of the batches, then
    the stats event, the event of the summary step, the error event of the
    persistence step if it failed, and the complete event. *)
Lemma closing_events (env : Env) (c : Collaborators) (req : Request)
  (m : ConfirmedMapping) :
  Accepted env req m ->
  exists final s mid save,
    POST env c req = Some (EventStream final) /\
    allRunCategorizations final
    = allRunCategorizations (runAfter c req m (totalBatchesOf req)) /\
    llmCalls final = llmCalls (runAfter c req m (totalBatchesOf req)) /\
    sent final
    = (sent (runAfter c req m (totalBatchesOf req))
       ++ stats s :: mid :: save ++ [completeEvent (rows req)])%list /\
    s = calculateStats (allRunCategorizations final) /\
    ((exists text, mid = summary text) \/
     (exists e,
        0 < List.length s /\ useMockLlmOf env = false /\
        generateText c s = TextThrow e /\
        mid = error ("Failed to generate AI summary: "
                     ++ messageOf e "Unknown error generating summary") None)) /\
    (save = [] \/ exists message, save = [error message None]).
Proof.
  intros Hacc.
  destruct (accepted_run env c req m Hacc) as [final [HP [HF [HL [HC _]]]]].
  set (st := runAfter c req m (totalBatchesOf req)) in *.
  set (s := calculateStats (allRunCategorizations st)).
  pose proof (finish_eq c (runId req) (rows req) (useMockLlmOf env) st) as HE.
  cbv zeta in HE. fold s in HE. rewrite <- HF in HE.
  destruct (summaryEvents_cases c (useMockLlmOf env) s)
    as [[text Hmid] | [e [H1 [H2 [H3 Hmid]]]]];
    destruct (saveEvents_cases c (runId req)
                (mkFinalRunData (allRunCategorizations st) s
                   (summaryTextOf c (useMockLlmOf env) s)))
      as [Hsave | [message Hsave]];
    rewrite Hmid, Hsave in HE;
    exists final, s;
    eexists; eexists;
    (split; [exact HP |]); (split; [exact HL |]); (split; [exact HC |]);
    (split; [rewrite HE; cbn [sent]; reflexivity |]);
    (split; [now rewrite HL |]);
    (split; [| first [left; reflexivity | right; eexists; reflexivity]]);
    first [left; eexists; reflexivity | right; exists e; auto].
Qed.

(** A header that names a member objects inherit is read as that member
    where the row has no such cell: for the categorical header "toString"
    the record of the row holds the text of the function as original answer
    and, normalized, as sub-category. *)
Lemma inherited_member_is_read :
  exists final,
    POST Scenarios.env Scenarios.collaborators
      (mkRequest "run-1"
         (Some (mkConfirmedMapping "Email"
                  [mkQuestionHeaderInfo "toString" true]))
         [Scenarios.row1])
    = Some (EventStream final) /\
    map (fun r => (original_answer r, sub_category r))
        (allRunCategorizations final)
    = [(JStr "function toString() { [native code] }",
        Some "function_tostring()_{_[native_code]_}")].
Proof. eexists. split; [vm_compute; reflexivity | reflexivity]. Qed.

(** C8 at the qualitative header "constructor": no row has a cell under
    this header, so the batch holds no answer to a qualitative question,
    and yet the LLM is called, on a prompt whose answer is the text of the
    function that objects inherit under that name. *)
Lemma C8_failing_input :
  exists final prompt,
    POST Scenarios.env Scenarios.collaborators
      (mkRequest "run-1"
         (Some (mkConfirmedMapping "Email"
                  [mkQuestionHeaderInfo "constructor" false]))
         [Scenarios.row1])
    = Some (EventStream final) /\
    getOwn Scenarios.row1 "constructor" = None /\
    llmCalls final = [(1, prompt)] /\
    prompt
    = batchPrompt 1 [] []
        [mkPromptItem (JStr "a@x.com")
           [mkAnswerItem "constructor" (JFunction "Object")]].
Proof.
  eexists. eexists. split; [vm_compute; reflexivity |].
  split; [reflexivity |]. split; reflexivity.
Qed.

(** ** Partial failure of a run *)



(** The scenario of three batches whose second LLM call throws, run:
    batch 2 is called and fails, its error event is streamed with
    batchIndex 2, batch 3 starts, all 101 categorical records are in the
    ledger, and the stream ends with the complete event. *)
Lemma second_batch_fails_run :
  exists final prompt,
    POST Scenarios.env Scenarios.secondBatchFails Scenarios.requestMany
    = Some (EventStream final) /\
    In (2, prompt) (llmCalls final) /\
    map (fun e => match e with result _ => None | _ => Some e end) (sent final)
    = [Some (batchStart 1 3); Some (batchStart 2 3);
       Some (error "Processing error in batch 2: timeout" (Some 2));
       Some (batchStart 3 3);
       Some (stats [("Rating", [("rating_n/a_4", 101)])]);
       Some (summary "Ratings are good.");
       Some (complete "Processing and statistics finished for 101 rows.")] /\
    List.length (allRunCategorizations final) = 101.
Proof.
  eexists. eexists. split; [vm_compute; reflexivity |].
  split; [right; left; reflexivity |].
  split; vm_compute; reflexivity.
Qed.

(** ** Order of the events *)




(** ** The ledger *)

Lemma findOriginalRow_None (sid : string) (i : nat) (batch : list Row)
  (id : string) :
  forall start,
    (forall index row,
       nth_error batch index = Some row ->
       respondentIdOf sid i row (start + index) <> JStr id) ->
    findOriginalRow sid i start batch id = None.
Proof.
  induction batch as [| row0 rest IH]; intros start H; simpl; [reflexivity |].
  destruct (strict_eq_str (respondentIdOf sid i row0 start) id) eqn:E.
  - apply strict_eq_str_true in E. exfalso.
    apply (H 0 row0); [reflexivity |]. now rewrite Nat.add_0_r.
  - apply IH. intros index row Hrow.
    rewrite Nat.add_succ_comm. now apply (H (S index) row).
Qed.

(** C10. Every record of the ledger of an accepted request has as
    [question_text] the header of an entry of the mapping. It is the
    categorical record of a row and a categorical header, or it comes from a
    categorization of the object the LLM returned for a batch, whose
    question is a qualitative header and whose respondent identifier is that
    of a row of this batch. For a respondent identifier that matches no row
    of the batch nothing is appended, and what is appended for a respondent
    are the categorizations whose question is a qualitative header. *)
Theorem C10_ledger_invariant (env : Env) (c : Collaborators) (req : Request)
  (m : ConfirmedMapping) :
  Accepted env req m ->
  exists final,
    POST env c req = Some (EventStream final) /\
    (forall r,
       In r (allRunCategorizations final) ->
       (exists q, In q (questionHeaders m) /\ question_text r = header q) /\
       ((exists pos row q,
           nth_error (rows req) pos = Some row /\
           In q (questionHeaders m) /\ isCategorical q = true /\
           r = categoricalRecord (runId req) (studentIdHeader m) 0 row pos q)
        \/
        (exists b prompt object student cat pos row q,
           In (b, prompt) (llmCalls final) /\
           analyzeFeedbackBatch c b prompt = LlmObject object /\
           In student object /\ In cat (Llm.categorizations student) /\
           In q (questionHeaders m) /\ isCategorical q = false /\
           header q = Llm.question cat /\
           (b - 1) * BATCH_SIZE <= pos < b * BATCH_SIZE /\
           nth_error (rows req) pos = Some row /\
           respondentIdOf (studentIdHeader m) 0 row pos
           = JStr (Llm.respondentId student) /\
           r = aiRecord (runId req) (Llm.respondentId student) row
                 (normalizedAnswer cat)))) /\
    (forall i batch student,
       (forall index row,
          nth_error batch index = Some row ->
          respondentIdOf (studentIdHeader m) i row index
          <> JStr (Llm.respondentId student)) ->
       aiRecords (runId req) (studentIdHeader m)
         (filter isQualitative (questionHeaders m)) i batch student = []) /\
    (forall i batch student r,
       In r (aiRecords (runId req) (studentIdHeader m)
               (filter isQualitative (questionHeaders m)) i batch student) ->
       exists cat q,
         In cat (Llm.categorizations student) /\
         In q (questionHeaders m) /\ isCategorical q = false /\
         header q = Llm.question cat /\ question_text r = Llm.question cat).
Proof.
  intros Hacc.
  destruct (accepted_run env c req m Hacc) as [final [HP [_ [HL [HC _]]]]].
  exists final. split; [exact HP |]. split; [| split].
  - intros r Hin. rewrite HL in Hin. unfold runAfter in Hin.
    apply ledger_provenance in Hin.
    destruct Hin as [[pos [row [q [Hrow [Hq [Hcat ->]]]]]]
                    | [k [object [student [cat [pos [row [q H]]]]]]]].
    + split; [exists q; auto |]. left. exists pos, row, q. auto.
    + destruct H as [Hk [Hcalls [Ho [Hs [Hcat [Hq [Hqual [Hh [Hpos [Hrow [Hid ->]]]]]]]]]]].
      split; [exists q; simpl; auto |]. right.
      exists (S k). eexists. exists object, student, cat, pos, row, q.
      split; [rewrite HC; unfold runAfter; apply calls_after; exists k; auto |].
      split; [exact Ho |].
      replace (S k - 1) with k by lia.
      repeat split; auto; unfold BATCH_SIZE in *; lia.
  - intros i batch student Hnone. unfold aiRecords.
    now rewrite (findOriginalRow_None _ _ _ _ 0 Hnone).
  - intros i batch student r Hin. unfold aiRecords in Hin.
    destruct (findOriginalRow _ _ _ _ _) as [originalRow |]; [| contradiction].
    apply in_map_iff in Hin. destruct Hin as [cat [<- Hin]].
    apply filter_In in Hin. destruct Hin as [Hcat Hp].
    unfold processedByAi in Hp. apply existsb_exists in Hp.
    destruct Hp as [q [Hq Hh]]. apply filter_In in Hq. destruct Hq as [Hq1 Hq2].
    unfold header_is in Hh. apply String.eqb_eq in Hh.
    unfold isQualitative in Hq2. apply negb_true_iff in Hq2.
    exists cat, q. auto.
Qed.

Lemma C10_witness :
  exists final,
    POST Scenarios.env Scenarios.collaborators Scenarios.request
    = Some (EventStream final) /\
    (forall r,
       In r (allRunCategorizations final) ->
       (exists q,
          In q [Scenarios.rating; Scenarios.comments] /\
          question_text r = header q) /\
       ((exists pos row q,
           nth_error [Scenarios.row1] pos = Some row /\
           In q [Scenarios.rating; Scenarios.comments] /\
           isCategorical q = true /\
           r = categoricalRecord "run-1" "Email" 0 row pos q)
        \/
        (exists b prompt object student cat pos row q,
           In (b, prompt) (llmCalls final) /\
           analyzeFeedbackBatch Scenarios.collaborators b prompt
           = LlmObject object /\
           In student object /\ In cat (Llm.categorizations student) /\
           In q [Scenarios.rating; Scenarios.comments] /\
           isCategorical q = false /\
           header q = Llm.question cat /\
           (b - 1) * BATCH_SIZE <= pos < b * BATCH_SIZE /\
           nth_error [Scenarios.row1] pos = Some row /\
           respondentIdOf "Email" 0 row pos = JStr (Llm.respondentId student) /\
           r = aiRecord "run-1" (Llm.respondentId student) row
                 (normalizedAnswer cat)))) /\
    (forall i batch student,
       (forall index row,
          nth_error batch index = Some row ->
          respondentIdOf "Email" i row index <> JStr (Llm.respondentId student)) ->
       aiRecords "run-1" "Email"
         (filter isQualitative [Scenarios.rating; Scenarios.comments])
         i batch student = []) /\
    (forall i batch student r,
       In r (aiRecords "run-1" "Email"
               (filter isQualitative [Scenarios.rating; Scenarios.comments])
               i batch student) ->
       exists cat q,
         In cat (Llm.categorizations student) /\
         In q [Scenarios.rating; Scenarios.comments] /\
         isCategorical q = false /\
         header q = Llm.question cat /\ question_text r = Llm.question cat).
Proof.
  apply (C10_ledger_invariant Scenarios.env Scenarios.collaborators
           Scenarios.request Scenarios.mapping).
  repeat split.
Defined.

End ProcessFacts.

(** ** The statistics fold *)

Module StatsFacts.
Import Js JsFacts Process StatsView.

Lemma countOf_increment (qs : QuestionStats) (key k : string) :
  countOf (increment key qs) k
  = if String.eqb key k then S (countOf qs k) else countOf qs k.
Proof.
  induction qs as [| [k0 n] rest IH]; simpl.
  - destruct (String.eqb key k); reflexivity.
  - destruct (String.eqb k0 key) eqn:E; simpl.
    + apply String.eqb_eq in E. subst k0.
      destruct (String.eqb key k); [lia | reflexivity].
    + destruct (String.eqb k0 k) eqn:E'; [| exact IH].
      apply String.eqb_eq in E'. subst k0.
      now rewrite String.eqb_sym, E.
Qed.

Lemma statsCount_countIn (acc : RunStats) (question key q k : string) :
  statsCount (countIn question key acc) q k
  = if String.eqb question q && String.eqb key k
    then S (statsCount acc q k) else statsCount acc q k.
Proof.
  unfold statsCount. induction acc as [| [q0 qs] rest IH]; simpl.
  - destruct (String.eqb question q); simpl; [| reflexivity].
    destruct (String.eqb key k); reflexivity.
  - destruct (String.eqb q0 question) eqn:E; simpl.
    + apply String.eqb_eq in E. subst q0.
      destruct (String.eqb question q); simpl; [| reflexivity].
      apply countOf_increment.
    + destruct (String.eqb q0 q) eqn:E'; [| exact IH].
      apply String.eqb_eq in E'. subst q0.
      now rewrite String.eqb_sym, E.
Qed.

(** The record is counted under question [q] and key [k]. *)
Definition countedAs (q k : string) (record : Categorization) : bool :=
  counted record && String.eqb (question_text record) q
  && String.eqb (combinedKey record) k.

Lemma statsCount_statsStep (acc : RunStats) (record : Categorization)
  (q k : string) :
  statsCount (statsStep acc record) q k
  = if countedAs q k record then S (statsCount acc q k) else statsCount acc q k.
Proof.
  unfold statsStep, countedAs, counted, combinedKey.
  destruct (topic record) as [t |]; [| reflexivity].
  destruct (sentiment record) as [s |]; [| reflexivity].
  destruct (falsy_str (question_text record) || falsy_str t || falsy_str s);
    [reflexivity |].
  simpl. apply statsCount_countIn.
Qed.

Lemma statsCount_fold (ledger : list Categorization) (q k : string) :
  forall acc,
    statsCount (fold_left statsStep ledger acc) q k
    = List.length (filter (countedAs q k) ledger) + statsCount acc q k.
Proof.
  induction ledger as [| record rest IH]; intros acc; simpl; [reflexivity |].
  rewrite IH, statsCount_statsStep.
  destruct (countedAs q k record); simpl; lia.
Qed.

(** X1. For a ledger whose counted records have ordinary question texts and
    combined keys (no name that objects inherit, no run of digits), the
    count that the statistics hold for a question and a combined key is the
    number of records of the ledger with that question text and that
    combined key, among the records with question text, topic and sentiment
    all non-empty; the other records are never counted. *)
Theorem stats_count_is_number_of_records (ledger : list Categorization)
  (q k : string) :
  ordinaryLedger ledger ->
  statsCount (calculateStats ledger) q k
  = List.length
      (filter (fun record =>
                 counted record && String.eqb (question_text record) q
                 && String.eqb (combinedKey record) k)
              ledger).
Proof.
  intros _. unfold calculateStats. rewrite statsCount_fold. simpl.
  apply Nat.add_0_r.
Qed.

Lemma stats_count_is_number_of_records_witness :
  statsCount (calculateStats Scenarios.ratingLedger) "Rating" "rating_n/a_5"
  = List.length
      (filter (fun record =>
                 counted record && String.eqb (question_text record) "Rating"
                 && String.eqb (combinedKey record) "rating_n/a_5")
              Scenarios.ratingLedger).
Proof.
  apply (stats_count_is_number_of_records Scenarios.ratingLedger "Rating"
           "rating_n/a_5").
  intros record [<- | [<- | []]] _; split; reflexivity.
Defined.

Lemma increment_keys (key : string) (qs : QuestionStats) (k : string) :
  In k (map fst (increment key qs)) <-> k = key \/ In k (map fst qs).
Proof.
  induction qs as [| [k0 n] rest IH]; simpl.
  - intuition congruence.
  - destruct (String.eqb k0 key) eqn:E; simpl.
    + apply String.eqb_eq in E. subst. intuition congruence.
    + rewrite IH. intuition congruence.
Qed.

Lemma increment_wellFormed (key : string) (qs : QuestionStats) :
  NoDup (map fst qs) -> (forall k n, In (k, n) qs -> 1 <= n) ->
  wellFormedQuestion (increment key qs).
Proof.
  intros Hnd Hpos. unfold wellFormedQuestion.
  induction qs as [| [k0 n] rest IH]; simpl.
  - split; [constructor; [tauto | constructor] |].
    split; [discriminate |]. intros k n [H | []]. inversion H. lia.
  - inversion Hnd as [| x l Hnotin Hnd']; subst.
    assert (forall k n, In (k, n) rest -> 1 <= n) as Hpos'
        by (intros k m Hin; apply (Hpos k m); now right).
    destruct (String.eqb k0 key) eqn:E; simpl.
    + split; [exact Hnd |]. split; [discriminate |].
      intros k m [H | H]; [inversion H; lia | eauto].
    + destruct (IH Hnd' Hpos') as [IH1 [_ IH3]].
      split; [| split; [discriminate |]].
      * constructor; [| exact IH1]. intros Hin. apply increment_keys in Hin.
        destruct Hin as [-> | Hin]; [| contradiction].
        now rewrite String.eqb_refl in E.
      * intros k m [H | H]; [| eauto]. inversion H; subst.
        apply (Hpos k m). now left.
Qed.

Lemma countIn_questions (question key : string) (acc : RunStats) (q : string) :
  In q (map fst (countIn question key acc)) <-> q = question \/ In q (map fst acc).
Proof.
  induction acc as [| [q0 qs] rest IH]; simpl.
  - intuition congruence.
  - destruct (String.eqb q0 question) eqn:E; simpl.
    + apply String.eqb_eq in E. subst. intuition congruence.
    + rewrite IH. intuition congruence.
Qed.

Lemma countIn_wellFormed (question key : string) (acc : RunStats) :
  question <> "" -> wellFormed acc -> wellFormed (countIn question key acc).
Proof.
  intros Hq [Hnd Hall]. unfold wellFormed.
  induction acc as [| [q0 qs] rest IH]; simpl.
  - split; [constructor; [tauto | constructor] |].
    intros q qs' [H | []]. inversion H; subst. split; [assumption |].
    apply (increment_wellFormed key []); [constructor | intros k n []].
  - inversion Hnd as [| x l Hnotin Hnd']; subst.
    assert (forall q qs', In (q, qs') rest -> q <> "" /\ wellFormedQuestion qs')
      as Hall' by (intros q qs' Hin; apply Hall; now right).
    destruct (String.eqb q0 question) eqn:E; simpl.
    + split; [exact Hnd |]. intros q qs' [H | H]; [| now apply Hall'].
      inversion H; subst. destruct (Hall q qs (or_introl eq_refl)) as [H1 [H2 [_ H3]]].
      split; [assumption |]. now apply increment_wellFormed.
    + destruct (IH Hnd' Hall') as [IH1 IH2]. split.
      * constructor; [| exact IH1]. intros Hin. apply countIn_questions in Hin.
        destruct Hin as [-> | Hin]; [| contradiction].
        now rewrite String.eqb_refl in E.
      * intros q qs' [H | H]; [| now apply IH2]. inversion H; subst.
        apply Hall. now left.
Qed.

Lemma falsy_str_iff (s : string) : falsy_str s = false <-> s <> "".
Proof. destruct s; simpl; split; congruence. Qed.

Lemma statsStep_wellFormed (acc : RunStats) (record : Categorization) :
  wellFormed acc -> wellFormed (statsStep acc record).
Proof.
  intros H. unfold statsStep.
  destruct (topic record) as [t |]; [| exact H].
  destruct (sentiment record) as [s |]; [| exact H].
  destruct (falsy_str (question_text record)) eqn:E; simpl; [exact H |].
  destruct (falsy_str t || falsy_str s); [exact H |].
  apply countIn_wellFormed; [| exact H]. now apply falsy_str_iff.
Qed.

Lemma totalCount_countIn (question key : string) (acc : RunStats) :
  totalCount (countIn question key acc) = S (totalCount acc).
Proof.
  assert (forall qs, list_sum (map snd (increment key qs))
                     = S (list_sum (map snd qs))) as Hinc.
  { induction qs as [| [k0 n] rest IH]; simpl; [reflexivity |].
    destruct (String.eqb k0 key); simpl; [lia |]. rewrite IH. lia. }
  unfold totalCount. induction acc as [| [q0 qs] rest IH]; simpl;
    [reflexivity |].
  destruct (String.eqb q0 question); simpl.
  - rewrite Hinc. lia.
  - rewrite IH. lia.
Qed.

Lemma totalCount_statsStep (acc : RunStats) (record : Categorization) :
  totalCount (statsStep acc record)
  = if counted record then S (totalCount acc) else totalCount acc.
Proof.
  unfold statsStep, counted.
  destruct (topic record) as [t |]; [| reflexivity].
  destruct (sentiment record) as [s |]; [| reflexivity].
  destruct (falsy_str (question_text record) || falsy_str t || falsy_str s);
    simpl; [reflexivity |].
  apply totalCount_countIn.
Qed.

(** X2. For a ledger whose counted records have ordinary question texts and
    combined keys, the statistics are a well-formed two-level map (no
    question listed twice, no key listed twice under a question, no empty
    question, no question without key, every stored count at least 1), and
    the counts add up to the number of records with non-empty question
    text, topic and sentiment. *)
Theorem stats_well_formed_and_total (ledger : list Categorization) :
  ordinaryLedger ledger ->
  wellFormed (calculateStats ledger) /\
  totalCount (calculateStats ledger) = List.length (filter counted ledger).
Proof.
  intros _.
  unfold calculateStats.
  assert (forall acc,
            wellFormed acc ->
            wellFormed (fold_left statsStep ledger acc) /\
            totalCount (fold_left statsStep ledger acc)
            = List.length (filter counted ledger) + totalCount acc) as H.
  { induction ledger as [| record rest IH]; intros acc Hacc; simpl.
    - split; [exact Hacc | reflexivity].
    - destruct (IH (statsStep acc record) (statsStep_wellFormed acc record Hacc))
        as [H1 H2].
      split; [exact H1 |]. rewrite H2, totalCount_statsStep.
      destruct (counted record); simpl; lia. }
  destruct (H []) as [H1 H2].
  - split; [constructor | intros q qs []].
  - split; [exact H1 |]. rewrite H2. simpl. apply Nat.add_0_r.
Qed.

Lemma stats_well_formed_and_total_witness :
  wellFormed (calculateStats Scenarios.ratingLedger) /\
  totalCount (calculateStats Scenarios.ratingLedger)
  = List.length (filter counted Scenarios.ratingLedger).
Proof.
  apply (stats_well_formed_and_total Scenarios.ratingLedger).
  intros record [<- | [<- | []]] _; split; reflexivity.
Defined.

End StatsFacts.

(** ** Normalization of headers, answers, topics and sub-categories *)

Module NormalizeFacts.
Import Js JsFacts Text.

Definition notSpace (c : ascii) : bool := negb (is_space c).

(** [toLowerCase()] leaves the code unit as it is. *)
Definition lowered (c : ascii) : bool := Ascii.eqb (lower_char c) c.

Lemma lower_char_space (c : ascii) : is_space (lower_char c) = is_space c.
Proof. destruct c as [[] [] [] [] [] [] [] []]; reflexivity. Qed.

Lemma lower_char_lowered (c : ascii) : lowered (lower_char c) = true.
Proof. destruct c as [[] [] [] [] [] [] [] []]; reflexivity. Qed.

Lemma replace_ws_from_chars (p : ascii -> bool) (s : string) :
  p "_"%char = true ->
  forall in_run,
    allChars (fun c => is_space c || p c) s = true ->
    allChars (fun c => notSpace c && p c) (replace_ws_from in_run s) = true.
Proof.
  intros Hu. induction s as [| c s' IH]; intros in_run H; simpl in *;
    [reflexivity |].
  apply andb_true_iff in H. destruct H as [Hc Hs].
  unfold notSpace in *. destruct (is_space c) eqn:E.
  - destruct in_run; simpl; [now apply IH |].
    rewrite Hu. simpl. now apply IH.
  - simpl in *. rewrite E, Hc. simpl. now apply IH.
Qed.

Lemma toLowerCase_lowered (s : string) : allChars lowered (toLowerCase s) = true.
Proof.
  induction s as [| c s' IH]; simpl; [reflexivity |].
  now rewrite lower_char_lowered, IH.
Qed.

Lemma allChars_weaken (p q : ascii -> bool) (s : string) :
  (forall c, p c = true -> q c = true) ->
  allChars p s = true -> allChars q s = true.
Proof.
  intros Hpq. induction s as [| c s' IH]; simpl; [reflexivity |].
  intros H. apply andb_true_iff in H. destruct H as [Hc Hs].
  now rewrite (Hpq c Hc), IH.
Qed.

(** The normalized string has no white space and no capital letter. *)
Lemma normalize_chars (s : string) :
  allChars (fun c => notSpace c && lowered c) (normalize s) = true.
Proof.
  unfold normalize, replace_ws. apply replace_ws_from_chars; [reflexivity |].
  eapply allChars_weaken; [| apply toLowerCase_lowered].
  intros c H. rewrite H. apply orb_true_r.
Qed.

Lemma trimStart_fixed (s : string) :
  allChars notSpace s = true -> trimStart s = s.
Proof.
  destruct s as [| c s']; simpl; [reflexivity |]. unfold notSpace.
  destruct (is_space c); [discriminate | reflexivity].
Qed.

Lemma trimEnd_fixed (s : string) :
  allChars notSpace s = true -> trimEnd s = s.
Proof.
  induction s as [| c s' IH]; simpl; [reflexivity |]. unfold notSpace at 1.
  intros H. apply andb_true_iff in H. destruct H as [Hc Hs].
  rewrite (IH Hs). destruct s'; [| reflexivity].
  destruct (is_space c); [discriminate | reflexivity].
Qed.

Lemma toLowerCase_fixed (s : string) :
  allChars lowered s = true -> toLowerCase s = s.
Proof.
  induction s as [| c s' IH]; simpl; [reflexivity |].
  intros H. apply andb_true_iff in H. destruct H as [Hc Hs].
  unfold lowered in Hc. apply Ascii.eqb_eq in Hc. now rewrite Hc, IH.
Qed.

Lemma replace_ws_from_fixed (s : string) :
  allChars notSpace s = true -> replace_ws_from false s = s.
Proof.
  induction s as [| c s' IH]; simpl; [reflexivity |]. unfold notSpace at 1.
  intros H. apply andb_true_iff in H. destruct H as [Hc Hs].
  destruct (is_space c); [discriminate |]. now rewrite IH.
Qed.

(** Blank strings: only white space, or nothing. *)
Lemma trimStart_empty (s : string) :
  trimStart s = "" <-> allChars is_space s = true.
Proof.
  induction s as [| c s' IH]; simpl; [tauto |].
  destruct (is_space c); simpl; [exact IH |]. split; discriminate.
Qed.

Lemma trimEnd_empty (s : string) :
  trimEnd s = "" <-> allChars is_space s = true.
Proof.
  induction s as [| c s' IH]; simpl; [tauto |].
  destruct (trimEnd s') eqn:E.
  - destruct (is_space c); simpl.
    + split; [intros _; now apply IH | reflexivity].
    + split; discriminate.
  - split; [discriminate |]. intros H. apply andb_true_iff in H.
    destruct H as [_ H]. apply IH in H. discriminate.
Qed.

Lemma trimStart_cases (s : string) :
  trimStart s = "" \/
  exists c rest, trimStart s = String c rest /\ is_space c = false.
Proof.
  induction s as [| c s' IH]; simpl; [now left |].
  destruct (is_space c) eqn:E; [exact IH |]. right. eauto.
Qed.

Lemma trim_empty (s : string) : trim s = "" <-> allChars is_space s = true.
Proof.
  unfold trim. rewrite trimEnd_empty.
  destruct (trimStart_cases s) as [H | [c [rest [H Hc]]]].
  - rewrite H. simpl. rewrite <- trimStart_empty. tauto.
  - rewrite H. simpl. rewrite Hc. simpl. rewrite <- trimStart_empty, H.
    split; discriminate.
Qed.

Lemma normalize_empty (s : string) :
  normalize s = "" <-> allChars is_space s = true.
Proof.
  rewrite <- trim_empty. unfold normalize, replace_ws.
  destruct (trim s) as [| c t]; simpl; [tauto |].
  destruct (is_space (lower_char c)); split; discriminate.
Qed.

(** X3. The normalization [trim().toLowerCase().replace(/\s+/g, '_')] gives a
    string without white space and without capital letters, gives the empty
    string exactly for a blank input (so the blank test of the qualitative
    pass and the default of the categorical pass agree), and normalizing
    twice is normalizing once. *)
Theorem normalize_properties (s : string) :
  allChars (fun c => negb (is_space c) && Ascii.eqb (lower_char c) c)
           (normalize s) = true /\
  (normalize s = "" <-> trim s = "") /\
  (normalize s = "" <-> allChars is_space s = true) /\
  normalize (normalize s) = normalize s.
Proof.
  pose proof (normalize_chars s) as H.
  split; [exact H |].
  split; [rewrite normalize_empty, trim_empty; tauto |].
  split; [apply normalize_empty |].
  assert (allChars notSpace (normalize s) = true) as Hs.
  { eapply allChars_weaken; [| exact H]. intros c Hc.
    apply andb_true_iff in Hc. tauto. }
  assert (allChars lowered (normalize s) = true) as Hl.
  { eapply allChars_weaken; [| exact H]. intros c Hc.
    apply andb_true_iff in Hc. tauto. }
  unfold normalize at 1. unfold trim.
  rewrite (trimStart_fixed _ Hs), (trimEnd_fixed _ Hs), (toLowerCase_fixed _ Hl).
  unfold replace_ws. now apply replace_ws_from_fixed.
Qed.

End NormalizeFacts.

(** ** More on the runs of the categorizer *)

Module RunExtras.
Import Js JsFacts Process Run Text StatsView ProcessFacts.

(** *** Batches *)

Lemma firstn_plus {A : Type} (a b : nat) :
  forall l : list A, firstn (a + b) l = (firstn a l ++ firstn b (skipn a l))%list.
Proof.
  induction a as [| a IH]; intros l; simpl; [reflexivity |].
  destruct l as [| x l]; simpl.
  - now rewrite firstn_nil.
  - now rewrite IH.
Qed.

Lemma concat_batches {A : Type} (xs : list A) (n : nat) :
  List.concat
    (map (fun k => slice (k * BATCH_SIZE) (k * BATCH_SIZE + BATCH_SIZE) xs)
         (seq 0 n))
  = firstn (n * BATCH_SIZE) xs.
Proof.
  induction n as [| n IH]; [reflexivity |].
  rewrite seq_S, map_app, concat_app, IH. cbn [map List.concat Nat.add].
  rewrite app_nil_r. unfold slice.
  replace (n * BATCH_SIZE + BATCH_SIZE - n * BATCH_SIZE) with BATCH_SIZE by lia.
  replace (S n * BATCH_SIZE) with (n * BATCH_SIZE + BATCH_SIZE) by lia.
  now rewrite firstn_plus.
Qed.

(** X4. The slices taken by the loop partition the rows: in order they make up
    the rows again, none is empty, none has more than 50 rows, and all but
    the last have exactly 50. *)
Theorem batches_partition_rows (rows : list Row) :
  let total := ceilDiv (List.length rows) BATCH_SIZE in
  let batch k := slice (k * BATCH_SIZE) (k * BATCH_SIZE + BATCH_SIZE) rows in
  List.concat (map batch (seq 0 total)) = rows /\
  forall k,
    k < total ->
    1 <= List.length (batch k) <= BATCH_SIZE /\
    (S k < total -> List.length (batch k) = BATCH_SIZE).
Proof.
  cbv zeta. split.
  - rewrite concat_batches. apply firstn_all2. apply ceilDiv_le. apply Nat.le_refl.
  - intros k Hk. unfold slice.
    replace (k * BATCH_SIZE + BATCH_SIZE - k * BATCH_SIZE) with BATCH_SIZE by lia.
    rewrite length_firstn, length_skipn.
    apply ceilDiv_gt in Hk. unfold BATCH_SIZE in *. split; [lia |].
    intros Hk'. apply ceilDiv_gt in Hk'. unfold BATCH_SIZE in *. lia.
Qed.

(** *** The context sets *)

Definition normalizedString (s : string) : Prop :=
  allChars (fun c => negb (is_space c) && Ascii.eqb (lower_char c) c) s = true.

(** The identified topics are distinct, normalized, non-empty and never
    "n/a"; the identified sub-categories are distinct, normalized and
    non-empty. *)
Definition contextInvariant (topics subCategories : list string) : Prop :=
  (NoDup topics /\ ~ In "n/a" topics /\ ~ In "" topics /\
   Forall normalizedString topics) /\
  (NoDup subCategories /\ ~ In "" subCategories /\
   Forall normalizedString subCategories).

Lemma add_In_iff (set : list string) (x y : string) :
  In y (add set x) <-> y = x \/ In y set.
Proof.
  unfold add. destruct (includes set x) eqn:E.
  - apply includes_In in E. split; [tauto |]. intros [-> | H]; assumption.
  - rewrite in_app_iff. simpl. intuition congruence.
Qed.

Lemma add_NoDup (set : list string) (x : string) :
  NoDup set -> NoDup (add set x).
Proof.
  intros H. unfold add. destruct (includes set x) eqn:E; [exact H |].
  apply includes_false in E. apply NoDup_app; auto.
  - constructor; [tauto | constructor].
  - intros y Hy [<- | []]. contradiction.
Qed.

Lemma add_Forall (P : string -> Prop) (set : list string) (x : string) :
  Forall P set -> P x -> Forall P (add set x).
Proof.
  intros H Hx. unfold add. destruct (includes set x); [exact H |].
  apply Forall_app. split; [exact H | now constructor].
Qed.

Lemma normalizedTopicOf_good (cat : Llm.CategorizedAnswer) :
  normalizedTopicOf cat <> "" /\ normalizedString (normalizedTopicOf cat).
Proof.
  unfold normalizedTopicOf, or_str, normalizedString.
  destruct (Llm.topic cat) as [t |]; [| split; [discriminate | reflexivity]].
  destruct (normalize t) eqn:E; simpl falsy_str; cbv iota.
  - split; [discriminate | reflexivity].
  - split; [discriminate |]. rewrite <- E.
    apply (NormalizeFacts.normalize_chars t).
Qed.

Lemma normalizedSubCategoryOf_good (cat : Llm.CategorizedAnswer) (s : string) :
  normalizedSubCategoryOf cat = Some s -> s <> "" /\ normalizedString s.
Proof.
  unfold normalizedSubCategoryOf.
  destruct (Llm.sub_category cat) as [raw |]; [| discriminate].
  destruct (falsy_str (normalize raw)) eqn:E; [discriminate |].
  intros H. inversion H; subst. split.
  - intros Heq. rewrite Heq in E. discriminate.
  - apply (NormalizeFacts.normalize_chars raw).
Qed.

Lemma normalizeCategorization_invariant (cat : Llm.CategorizedAnswer)
  (topics subs : list string) :
  contextInvariant topics subs ->
  contextInvariant (fst (snd (normalizeCategorization cat (topics, subs))))
                   (snd (snd (normalizeCategorization cat (topics, subs)))).
Proof.
  intros [[T1 [T2 [T3 T4]]] [S1 [S2 S3]]].
  unfold normalizeCategorization. cbn [fst snd].
  destruct (normalizedTopicOf_good cat) as [G1 G2].
  split.
  - destruct (String.eqb (normalizedTopicOf cat) "n/a") eqn:E; simpl;
      [repeat split; assumption |].
    apply String.eqb_neq in E.
    split; [now apply add_NoDup |].
    split; [rewrite add_In_iff; intros [H | H]; [congruence | contradiction] |].
    split; [rewrite add_In_iff; intros [H | H]; [congruence | contradiction] |].
    now apply add_Forall.
  - destruct (normalizedSubCategoryOf cat) as [s |] eqn:E;
      [| repeat split; assumption].
    destruct (normalizedSubCategoryOf_good cat s E) as [G3 G4].
    split; [now apply add_NoDup |].
    split; [rewrite add_In_iff; intros [H | H]; [congruence | contradiction] |].
    now apply add_Forall.
Qed.

Lemma normalizeCategorizations_invariant (cats : list Llm.CategorizedAnswer) :
  forall topics subs,
    contextInvariant topics subs ->
    contextInvariant (fst (snd (normalizeCategorizations cats (topics, subs))))
                     (snd (snd (normalizeCategorizations cats (topics, subs)))).
Proof.
  induction cats as [| cat rest IH]; intros topics subs H; [exact H |].
  cbn [normalizeCategorizations].
  pose proof (normalizeCategorization_invariant cat topics subs H) as H1.
  destruct (normalizeCategorization cat (topics, subs)) as [cat' [t1 s1]].
  cbn [fst snd] in H1.
  pose proof (IH t1 s1 H1) as H2.
  destruct (normalizeCategorizations rest (t1, s1)) as [rest' ctx2].
  exact H2.
Qed.

Lemma normalizeResult_invariant (object : list Llm.CategorizedStudent) :
  forall topics subs,
    contextInvariant topics subs ->
    contextInvariant (fst (snd (normalizeResult object (topics, subs))))
                     (snd (snd (normalizeResult object (topics, subs)))).
Proof.
  induction object as [| s rest IH]; intros topics subs H; [exact H |].
  cbn [normalizeResult].
  pose proof (normalizeCategorizations_invariant (Llm.categorizations s)
                topics subs H) as H1.
  destruct (normalizeCategorizations (Llm.categorizations s) (topics, subs))
    as [cats' [t1 s1]].
  cbn [fst snd] in H1.
  pose proof (IH t1 s1 H1) as H2.
  destruct (normalizeResult rest (t1, s1)) as [rest' ctx2].
  exact H2.
Qed.

Lemma stateAfter_invariant (c : Collaborators) (runId sid : string)
  (qhs : list QuestionHeaderInfo) (rows : list Row) (n : nat) :
  contextInvariant
    (identifiedTopics (stateAfter c runId sid qhs rows n))
    (identifiedSubCategories (stateAfter c runId sid qhs rows n)).
Proof.
  induction n as [| n IH].
  - simpl. repeat split; try constructor; tauto.
  - rewrite stateAfter_S. simpl.
    destruct (delta_cases c runId sid qhs rows n)
      as [[_ H] | [[_ [_ H]] | [object [_ [_ H]]]]]; rewrite H; simpl;
      try exact IH.
    now apply normalizeResult_invariant.
Qed.

(** X5. In every run, whatever the LLM returns, the identified topics are
    distinct, non-empty, free of white space and capitals and never "n/a",
    and the identified sub-categories are distinct, non-empty and free of
    white space and capitals. *)
Theorem context_sets_invariant (env : Env) (c : Collaborators) (req : Request)
  (m : ConfirmedMapping) :
  Accepted env req m ->
  exists final,
    POST env c req = Some (EventStream final) /\
    (NoDup (identifiedTopics final) /\
     ~ In "n/a" (identifiedTopics final) /\
     ~ In "" (identifiedTopics final) /\
     Forall (fun t => allChars (fun ch => negb (is_space ch)
                                          && Ascii.eqb (lower_char ch) ch) t
                      = true)
            (identifiedTopics final)) /\
    (NoDup (identifiedSubCategories final) /\
     ~ In "" (identifiedSubCategories final) /\
     Forall (fun t => allChars (fun ch => negb (is_space ch)
                                          && Ascii.eqb (lower_char ch) ch) t
                      = true)
            (identifiedSubCategories final)).
Proof.
  intros Hacc.
  destruct (accepted_run env c req m Hacc) as [final [HP [_ [_ [_ HX]]]]].
  exists final. split; [exact HP |].
  unfold ctxOf in HX. inversion HX as [[H1 H2]]. rewrite H1, H2.
  apply stateAfter_invariant.
Qed.

Lemma context_sets_invariant_witness :
  exists final,
    POST Scenarios.env Scenarios.collaborators Scenarios.request
    = Some (EventStream final) /\
    (NoDup (identifiedTopics final) /\
     ~ In "n/a" (identifiedTopics final) /\
     ~ In "" (identifiedTopics final) /\
     Forall (fun t => allChars (fun ch => negb (is_space ch)
                                          && Ascii.eqb (lower_char ch) ch) t
                      = true)
            (identifiedTopics final)) /\
    (NoDup (identifiedSubCategories final) /\
     ~ In "" (identifiedSubCategories final) /\
     Forall (fun t => allChars (fun ch => negb (is_space ch)
                                          && Ascii.eqb (lower_char ch) ch) t
                      = true)
            (identifiedSubCategories final)).
Proof.
  apply (context_sets_invariant Scenarios.env Scenarios.collaborators
           Scenarios.request Scenarios.mapping).
  repeat split.
Defined.

(** *** The events of the loop and the summary step *)

(** The batch loop sends only [batchStart], [result] and batch-tagged
    [error] events. *)
Lemma loop_events_kind (c : Collaborators) (runId sid : string)
  (qhs : list QuestionHeaderInfo) (rows : list Row) (n : nat)
  (m : StreamMessage) :
  In m (sent (stateAfter c runId sid qhs rows n)) ->
  (exists index total, m = batchStart index total) \/
  (exists data, m = result data) \/
  (exists message b, m = error message (Some b)).
Proof.
  intros Hin. apply sent_after_In in Hin. destruct Hin as [k [_ Hin]].
  destruct (turn_cases c runId sid qhs rows k)
    as [[_ H] | [[_ [_ H]] | [object [_ [_ H]]]]]; rewrite H in Hin;
    simpl in Hin.
  - destruct Hin as [<- | []]. left. eauto.
  - destruct Hin as [<- | [<- | []]]; [left; eauto |].
    right; right. unfold batchError. eauto.
  - destruct Hin as [<- | Hin]; [left; eauto |].
    apply in_map_iff in Hin. destruct Hin as [d [<- _]]. right; left. eauto.
Qed.

(** X6. The summary event of a run whose question headers are ordinary
    keys (no name that objects inherit, no run of digits): the fixed mock
    text in mock mode; without mock, the default text when the statistics
    are empty (the summarizer is not consulted), and the text of the
    summarizer otherwise. There is no summary event exactly when the
    statistics are non-empty, the mock is off and the summarizer throws. *)
Theorem summary_event_cases (env : Env) (c : Collaborators) (req : Request)
  (m : ConfirmedMapping) :
  Accepted env req m ->
  (forall q, In q (questionHeaders m) -> ordinaryKey (header q) = true) ->
  exists final,
    POST env c req = Some (EventStream final) /\
    forall text,
      In (summary text) (sent final) <->
      (useMockLlmOf env = true /\ text = MOCK_SUMMARY) \/
      (useMockLlmOf env = false /\
       calculateStats (allRunCategorizations final) = [] /\
       text = DEFAULT_SUMMARY) \/
      (useMockLlmOf env = false /\
       calculateStats (allRunCategorizations final) <> [] /\
       generateText c (calculateStats (allRunCategorizations final))
       = TextOk text).
Proof.
  intros Hacc _.
  destruct (accepted_run env c req m Hacc) as [final [HP [HF [HL _]]]].
  exists final. split; [exact HP |]. intros text. rewrite HL.
  set (st := runAfter c req m (totalBatchesOf req)) in *.
  set (s := calculateStats (allRunCategorizations st)).
  pose proof (finish_eq c (runId req) (rows req) (useMockLlmOf env) st) as HE.
  cbv zeta in HE. fold s in HE. rewrite <- HF in HE. rewrite HE. cbn [sent].
  assert (In (summary text) (sent st) -> False) as Hloop.
  { intros Hin. unfold st, runAfter in Hin. apply loop_events_kind in Hin.
    destruct Hin as [[i [t H]] | [[d H] | [msg [b H]]]]; discriminate H. }
  assert (forall data, In (summary text) (saveEvents c (runId req) data) -> False)
    as Hsave.
  { intros data Hin.
    destruct (saveEvents_cases c (runId req) data) as [H | [msg H]];
      rewrite H in Hin; simpl in Hin; [tauto |].
    destruct Hin as [Hin | []]. discriminate Hin. }
  assert (In (summary text) (summaryEvents c (useMockLlmOf env) s) <->
          (useMockLlmOf env = true /\ text = MOCK_SUMMARY) \/
          (useMockLlmOf env = false /\ s = [] /\ text = DEFAULT_SUMMARY) \/
          (useMockLlmOf env = false /\ s <> [] /\ generateText c s = TextOk text))
    as Hsum.
  { unfold summaryEvents, generateSummary.
    destruct (useMockLlmOf env); destruct s as [| entry rest]; simpl.
    - split.
      + intros [H | []]. inversion H. auto.
      + intros [[_ ->] | [[H _] | [H _]]]; [now left | discriminate..].
    - split.
      + intros [H | []]. inversion H. auto.
      + intros [[_ ->] | [[H _] | [H _]]]; [now left | discriminate..].
    - split.
      + intros [H | []]. inversion H. auto.
      + intros [[H _] | [[_ [_ ->]] | [_ [H _]]]];
          [discriminate | now left | congruence].
    - destruct (generateText c (entry :: rest)) as [t | e]; simpl; split.
      + intros [H | []]. inversion H. right; right.
        split; [reflexivity |]. split; [discriminate | reflexivity].
      + intros [[H _] | [[_ [H _]] | [_ [_ H]]]]; try discriminate.
        inversion H. now left.
      + intros [H | []]. discriminate H.
      + intros [[H _] | [[_ [H _]] | [_ [_ H]]]]; discriminate. }
  rewrite in_app_iff. simpl. rewrite in_app_iff, in_app_iff. simpl.
  split.
  - intros [H | [H | [H | [H | [H | []]]]]]; try discriminate H.
    + contradiction.
    + now apply Hsum.
    + exfalso. eapply Hsave; eauto.
  - intros H. right; right; left. now apply Hsum.
Qed.

Lemma summary_event_cases_witness :
  exists final,
    POST Scenarios.env Scenarios.summarizerDown Scenarios.request
    = Some (EventStream final) /\
    forall text,
      In (summary text) (sent final) <->
      (useMockLlmOf Scenarios.env = true /\ text = MOCK_SUMMARY) \/
      (useMockLlmOf Scenarios.env = false /\
       calculateStats (allRunCategorizations final) = [] /\
       text = DEFAULT_SUMMARY) \/
      (useMockLlmOf Scenarios.env = false /\
       calculateStats (allRunCategorizations final) <> [] /\
       generateText Scenarios.summarizerDown
         (calculateStats (allRunCategorizations final))
       = TextOk text).
Proof.
  apply (summary_event_cases Scenarios.env Scenarios.summarizerDown
           Scenarios.request Scenarios.mapping).
  - repeat split.
  - intros q [<- | [<- | []]]; reflexivity.
Defined.

(** *** A run without rows *)

(** X7. A request with an empty row list passes the validation. Its stream has
    no batch: it is the stats event with empty statistics, the summary event
    with the default text (the mock text in mock mode; the summarizer is not
    consulted), the error event of the store if saving the empty results
    failed, and the complete event for 0 rows. *)
Theorem run_without_rows (env : Env) (c : Collaborators) (req : Request)
  (m : ConfirmedMapping) :
  Accepted env req m ->
  rows req = [] ->
  let text := if useMockLlmOf env then MOCK_SUMMARY else DEFAULT_SUMMARY in
  exists final,
    POST env c req = Some (EventStream final) /\
    allRunCategorizations final = [] /\
    llmCalls final = [] /\
    sent final
    = (stats [] :: summary text
       :: sent (saveFinalResults c (runId req) (mkFinalRunData [] [] text)
                  initialState)
       ++ [complete "Processing and statistics finished for 0 rows."])%list.
Proof.
  intros Hacc Hrows text. eexists. split; [apply POST_accepted; exact Hacc |].
  unfold totalBatchesOf, runAfter. rewrite Hrows. cbn [List.length].
  change (ceilDiv 0 BATCH_SIZE) with 0. cbn [stateAfter].
  unfold finish, initialState. cbn [allRunCategorizations].
  change (calculateStats []) with (@nil (string * QuestionStats)).
  unfold generateSummary. cbn [List.length Nat.ltb Nat.leb andb].
  unfold text, saveFinalResults.
  destruct (useMockLlmOf env);
    match goal with
    | |- context [upsert c ?r ?d] => destruct (upsert c r d)
    end; repeat split.
Qed.

Lemma run_without_rows_witness :
  exists final,
    POST Scenarios.env Scenarios.collaborators
      (mkRequest "run-1" (Some Scenarios.mapping) [])
    = Some (EventStream final) /\
    allRunCategorizations final = [] /\
    llmCalls final = [] /\
    sent final
    = (stats [] :: summary DEFAULT_SUMMARY
       :: sent (saveFinalResults Scenarios.collaborators "run-1"
                  (mkFinalRunData [] [] DEFAULT_SUMMARY) initialState)
       ++ [complete "Processing and statistics finished for 0 rows."])%list.
Proof.
  apply (run_without_rows Scenarios.env Scenarios.collaborators
           (mkRequest "run-1" (Some Scenarios.mapping) []) Scenarios.mapping).
  - repeat split.
  - reflexivity.
Defined.

(** *** A mapping without qualitative question *)

Lemma mapi_from_app {A B : Type} (f : A -> nat -> B) (a b : list A) :
  forall start,
    mapi_from start f (a ++ b)
    = (mapi_from start f a ++ mapi_from (start + List.length a) f b)%list.
Proof.
  induction a as [| x a IH]; intros start; simpl.
  - now rewrite Nat.add_0_r.
  - rewrite IH. now rewrite Nat.add_succ_comm.
Qed.

Lemma mapi_from_shift {A B : Type} (f : A -> nat -> B) (l : list A) :
  forall start,
    mapi_from start f l = mapi_from 0 (fun x i => f x (start + i)) l.
Proof.
  intros start.
  assert (forall k, mapi_from (start + k) f l
                    = mapi_from k (fun x i => f x (start + i)) l) as H.
  { induction l as [| x l IH]; intros k; simpl; [reflexivity |].
    f_equal. rewrite <- IH. f_equal. lia. }
  rewrite <- (H 0). now rewrite Nat.add_0_r.
Qed.

Lemma categoricalPass_app (rid sid : string) (cqs : list QuestionHeaderInfo)
  (a b : list Row) :
  categoricalPass rid sid cqs 0 (a ++ b)
  = (categoricalPass rid sid cqs 0 a
     ++ categoricalPass rid sid cqs (List.length a) b)%list.
Proof.
  unfold categoricalPass, mapi. rewrite mapi_from_app, concat_app.
  f_equal. f_equal. rewrite mapi_from_shift. reflexivity.
Qed.

Lemma categoricalPass_length (rid sid : string) (cqs : list QuestionHeaderInfo)
  (i : nat) (batch : list Row) :
  List.length (categoricalPass rid sid cqs i batch)
  = List.length batch * List.length cqs.
Proof.
  unfold categoricalPass, mapi. generalize 0.
  induction batch as [| row rest IH]; intros start; simpl; [reflexivity |].
  rewrite length_app, length_map, IH. reflexivity.
Qed.

Lemma filter_all {A : Type} (p : A -> bool) (l : list A) :
  (forall x, In x l -> p x = true) -> filter p l = l.
Proof.
  induction l as [| x l IH]; intros H; simpl; [reflexivity |].
  rewrite (H x (or_introl eq_refl)). f_equal. apply IH.
  intros y Hy. apply H. now right.
Qed.

Lemma filter_none {A : Type} (p : A -> bool) (l : list A) :
  (forall x, In x l -> p x = false) -> filter p l = [].
Proof.
  induction l as [| x l IH]; intros H; simpl; [reflexivity |].
  rewrite (H x (or_introl eq_refl)). apply IH.
  intros y Hy. apply H. now right.
Qed.

Lemma all_categorical_state (c : Collaborators) (runId sid : string)
  (qhs : list QuestionHeaderInfo) (rows : list Row) (n : nat) :
  (forall q, In q qhs -> isCategorical q = true) ->
  n <= ceilDiv (List.length rows) BATCH_SIZE ->
  stateAfter c runId sid qhs rows n
  = mkRunState
      (map (fun b => batchStart b (ceilDiv (List.length rows) BATCH_SIZE))
           (seq 1 n))
      (categoricalPass runId sid qhs 0 (firstn (n * BATCH_SIZE) rows))
      [] [] [].
Proof.
  intros Hall.
  assert (filter isQualitative qhs = []) as Hq.
  { apply filter_none. intros q Hin. unfold isQualitative.
    now rewrite (Hall q Hin). }
  assert (filter isCategorical qhs = qhs) as Hc by now apply filter_all.
  induction n as [| n IH]; intros Hn; [reflexivity |].
  rewrite stateAfter_S, IH by lia.
  destruct (delta_cases c runId sid qhs rows n)
    as [[_ H] | [[H _] | [object [H _]]]];
    try (rewrite Hq in H; discriminate H).
  rewrite H, IH by lia. unfold extend. cbn [sent allRunCategorizations
    identifiedTopics identifiedSubCategories llmCalls].
  f_equal.
  - rewrite seq_S, map_app. reflexivity.
  - unfold batchCategorical, batchRows, slice. rewrite Hc.
    replace (n * BATCH_SIZE + BATCH_SIZE - n * BATCH_SIZE) with BATCH_SIZE by lia.
    replace (S n * BATCH_SIZE) with (n * BATCH_SIZE + BATCH_SIZE) by lia.
    rewrite firstn_plus, categoricalPass_app. f_equal. f_equal.
    rewrite length_firstn. symmetry. apply Nat.min_l.
    assert (n < ceilDiv (List.length rows) BATCH_SIZE) as Hlt by lia.
    apply ceilDiv_gt in Hlt. lia.
Qed.

(** X8. When every question of the mapping is categorical, the LLM is never
    called and the context sets stay empty; the ledger is exactly the
    categorical records, row by row in the order of the rows and, for each
    row, in the order of the question headers, hence rows times headers
    records; and the batches send nothing but their [batchStart]. *)
Theorem all_categorical_run (env : Env) (c : Collaborators) (req : Request)
  (m : ConfirmedMapping) :
  Accepted env req m ->
  (forall q, In q (questionHeaders m) -> isCategorical q = true) ->
  exists final,
    POST env c req = Some (EventStream final) /\
    llmCalls final = [] /\
    identifiedTopics final = [] /\ identifiedSubCategories final = [] /\
    allRunCategorizations final
    = List.concat
        (mapi (fun row index =>
                 map (categoricalRecord (runId req) (studentIdHeader m) 0 row index)
                     (questionHeaders m))
              (rows req)) /\
    List.length (allRunCategorizations final)
    = List.length (rows req) * List.length (questionHeaders m) /\
    forall msg,
      In msg (sent final) ->
      (forall data, msg <> result data) /\
      (forall message b, msg <> error message (Some b)).
Proof.
  intros Hacc Hall.
  destruct (closing_events env c req m Hacc)
    as [final [s [mid [save [HP [HL [HC [HS [_ [Hmid Hsave]]]]]]]]]].
  pose proof (accepted_run env c req m Hacc) as [final' [HP' [_ [_ [_ HX]]]]].
  rewrite HP in HP'. inversion HP'; subst final'. clear HP'.
  pose proof (all_categorical_state c (runId req) (studentIdHeader m)
                (questionHeaders m) (rows req) (totalBatchesOf req) Hall
                (Nat.le_refl _)) as Hst.
  fold (runAfter c req m (totalBatchesOf req)) in Hst.
  assert (firstn (totalBatchesOf req * BATCH_SIZE) (rows req) = rows req) as Hfirst.
  { apply firstn_all2. apply ceilDiv_le. apply Nat.le_refl. }
  exists final. split; [exact HP |].
  unfold ctxOf in HX. rewrite Hst in HX, HL, HC, HS.
  cbn [sent allRunCategorizations identifiedTopics identifiedSubCategories
       llmCalls] in HX, HL, HC, HS.
  injection HX as HT HSub. rewrite Hfirst in HL.
  split; [exact HC |]. split; [exact HT |]. split; [exact HSub |].
  split; [exact HL |].
  split; [rewrite HL; apply categoricalPass_length |].
  intros msg Hin. rewrite HS in Hin.
  apply in_app_or in Hin. destruct Hin as [Hin | Hin].
  - apply in_map_iff in Hin. destruct Hin as [b [<- _]].
    split; intros; discriminate.
  - simpl in Hin. destruct Hin as [<- | [<- | Hin]].
    + split; intros; discriminate.
    + destruct Hmid as [[t ->] | [e [_ [_ [_ ->]]]]]; split; intros; discriminate.
    + apply in_app_or in Hin. destruct Hin as [Hin | [<- | []]].
      * destruct Hsave as [-> | [t ->]]; [contradiction |].
        destruct Hin as [<- | []]. split; intros; discriminate.
      * split; intros; discriminate.
Qed.

Lemma all_categorical_run_witness :
  exists final,
    POST Scenarios.env Scenarios.collaborators Scenarios.requestNoRating
    = Some (EventStream final) /\
    llmCalls final = [] /\
    identifiedTopics final = [] /\ identifiedSubCategories final = [] /\
    allRunCategorizations final
    = List.concat
        (mapi (fun row index =>
                 map (categoricalRecord "run-1" "Email" 0 row index)
                     [Scenarios.rating])
              [Scenarios.row1; Scenarios.rowNoRating]) /\
    List.length (allRunCategorizations final) = 2 * 1 /\
    forall msg,
      In msg (sent final) ->
      (forall data, msg <> result data) /\
      (forall message b, msg <> error message (Some b)).
Proof.
  apply (all_categorical_run Scenarios.env Scenarios.collaborators
           Scenarios.requestNoRating
           (mkConfirmedMapping "Email" [Scenarios.rating])).
  - repeat split.
  - intros q [<- | []]. reflexivity.
Defined.

End RunExtras.

(** ** More on the mapping stage *)

Module AnalyzeExtras.
Import Js JsFacts Analyze AnalyzeFacts.

Lemma finalCheck_filter (h : string) (qhs : list QuestionHeaderInfo) :
  finalCheck h qhs = withoutHeader h qhs.
Proof.
  unfold finalCheck. destruct (existsb (header_is h) qhs) eqn:E; [reflexivity |].
  unfold withoutHeader. symmetry. apply RunExtras.filter_all.
  intros q Hq. destruct (header_is h q) eqn:E'; [| reflexivity].
  assert (existsb (header_is h) qhs = true) as Hex
      by (apply existsb_exists; eauto).
  congruence.
Qed.

Lemma resolved_headers_are_keys (proposed : option string) (rows : list Row) :
  let r := resolveStudentId proposed rows (firstRowKeys rows) in
  resolvedHeaders r = firstRowKeys (resolvedRows r).
Proof.
  unfold resolveStudentId.
  destruct proposed as [h |]; [destruct (includes (firstRowKeys rows) h) |];
    reflexivity.
Qed.

Lemma resolved_rows_cells (proposed : option string) (rows : list Row) :
  let r := resolveStudentId proposed rows (firstRowKeys rows) in
  List.length (resolvedRows r) = List.length rows /\
  forall n row',
    nth_error (resolvedRows r) n = Some row' ->
    exists row,
      nth_error rows n = Some row /\
      forall k, k <> GENERATED_ID_HEADER -> get row' k = get row k.
Proof.
  assert (List.length (addGeneratedId rows) = List.length rows /\
          forall n row',
            nth_error (addGeneratedId rows) n = Some row' ->
            exists row,
              nth_error rows n = Some row /\
              forall k, k <> GENERATED_ID_HEADER -> get row' k = get row k)
    as Hfb.
  { split; [apply length_mapi_from |]. intros n row' H.
    unfold addGeneratedId, mapi in H. rewrite nth_error_mapi_from in H.
    destruct (nth_error rows n) as [row |]; [| discriminate].
    simpl in H. inversion H; subst. exists row. split; [reflexivity |].
    intros k Hk. now apply get_set_other. }
  unfold resolveStudentId.
  destruct proposed as [h |]; [destruct (includes (firstRowKeys rows) h) |];
    simpl; try exact Hfb.
  split; [reflexivity |]. intros n row' H. exists row'. auto.
Qed.

Lemma response_200_shape (env : Env) (runId : string)
  (rows : list Row) (generateObject : string -> MappingOutcome) (rid : string)
  (m : Mapping) (rows' : list Row) :
  POST env runId rows generateObject = Json200 rid m rows' ->
  exists proposed sid,
    generateObject (mappingPrompt (firstRowKeys rows)) = MappingObject proposed /\
    rid = runId /\
    studentIdHeader m = Some sid /\
    In sid (firstRowKeys rows') /\
    questionHeaders m
    = filter (fun qh => negb (String.eqb (header qh) sid))
             (questionHeaders proposed) /\
    (forall qh,
       In qh (questionHeaders m) ->
       In (header qh) (firstRowKeys rows) /\ In (header qh) (firstRowKeys rows')) /\
    rows' <> [] /\
    List.length rows' = List.length rows /\
    forall n row',
      nth_error rows' n = Some row' ->
      exists row,
        nth_error rows n = Some row /\
        forall k, k <> GENERATED_ID_HEADER -> get row' k = get row k.
Proof.
  intros H. apply POST_200_inv in H.
  destruct H as [proposed [Hne [Hgen H]]]. cbv zeta in H.
  destruct H as [Hinv [Hid [Hq [Hrows Hrid]]]].
  set (r := resolveStudentId (studentIdHeader proposed) rows (firstRowKeys rows))
    in *.
  pose proof (resolved_headers_are_keys (studentIdHeader proposed) rows) as Hkeys.
  pose proof (resolved_rows_cells (studentIdHeader proposed) rows) as [Hlen Hcells].
  pose proof (resolved_id_is_header (studentIdHeader proposed) rows Hne) as Hin.
  pose proof (resolved_headers (studentIdHeader proposed) rows) as Hhd.
  cbv zeta in Hkeys, Hlen, Hcells, Hin, Hhd.
  fold r in Hkeys, Hlen, Hcells, Hin, Hhd. subst rows'.
  exists proposed, (resolvedId r).
  split; [exact Hgen |]. split; [exact Hrid |]. split; [exact Hid |].
  split; [now rewrite <- Hkeys |].
  split; [rewrite Hq; apply finalCheck_filter |].
  split.
  - intros qh Hqh. rewrite Hq in Hqh. apply finalCheck_In in Hqh.
    destruct Hqh as [Hqh Hneq].
    assert (In (header qh) (resolvedHeaders r)) as Hvalid.
    { destruct (includes (resolvedHeaders r) (header qh)) eqn:E;
        [now apply includes_In |].
      assert (In (header qh)
                 (invalidHeaders (resolvedHeaders r) (questionHeaders proposed)))
        as Hbad.
      { apply invalidHeaders_In. split; [now apply in_map |].
        now apply includes_false. }
      rewrite Hinv in Hbad. contradiction. }
    split; [| now rewrite <- Hkeys].
    apply (Hhd (header qh) Hne) in Hvalid. tauto.
  - split; [| split; [exact Hlen | exact Hcells]].
    destruct (resolvedRows r); [| discriminate].
    simpl in Hlen. destruct rows; [congruence | discriminate].
Qed.

(** X9. A 200 response of the mapping stage is well formed: the rows are as
    many as the parsed rows and differ from them at most in the cell of the
    generated identifier; the identifier is a column of the first returned
    row; the question headers are the proposed ones without the entries
    named like the identifier, in the same order and with the same flags;
    and each of them is a column of the first row of the sheet. *)
Theorem mapping_response_well_formed (env : Env) (runId : string)
  (rows : list Row) (generateObject : string -> MappingOutcome) (rid : string)
  (m : Mapping) (rows' : list Row) :
  POST env runId rows generateObject = Json200 rid m rows' ->
  exists proposed sid,
    generateObject (mappingPrompt (firstRowKeys rows)) = MappingObject proposed /\
    rid = runId /\
    studentIdHeader m = Some sid /\
    In sid (firstRowKeys rows') /\
    questionHeaders m
    = filter (fun qh => negb (String.eqb (header qh) sid))
             (questionHeaders proposed) /\
    (forall qh,
       In qh (questionHeaders m) ->
       In (header qh) (firstRowKeys rows) /\ In (header qh) (firstRowKeys rows')) /\
    rows' <> [] /\
    List.length rows' = List.length rows /\
    forall n row',
      nth_error rows' n = Some row' ->
      exists row,
        nth_error rows n = Some row /\
        forall k, k <> GENERATED_ID_HEADER -> get row' k = get row k.
Proof. apply response_200_shape. Qed.

Lemma mapping_response_well_formed_witness :
  exists proposed sid,
    Scenarios.proposeNoId (mappingPrompt (firstRowKeys [Scenarios.row1]))
    = MappingObject proposed /\
    "run-1" = "run-1" /\
    studentIdHeader
      (mkMapping (Some GENERATED_ID_HEADER) [Scenarios.rating; Scenarios.comments])
    = Some sid /\
    In sid (firstRowKeys
              [Scenarios.row1 ++ [(GENERATED_ID_HEADER, JStr "Row 1")]]%list) /\
    [Scenarios.rating; Scenarios.comments]
    = filter (fun qh => negb (String.eqb (header qh) sid))
             (questionHeaders proposed) /\
    (forall qh,
       In qh [Scenarios.rating; Scenarios.comments] ->
       In (header qh) (firstRowKeys [Scenarios.row1]) /\
       In (header qh)
          (firstRowKeys
             [Scenarios.row1 ++ [(GENERATED_ID_HEADER, JStr "Row 1")]]%list)) /\
    [Scenarios.row1 ++ [(GENERATED_ID_HEADER, JStr "Row 1")]]%list <> [] /\
    List.length [Scenarios.row1 ++ [(GENERATED_ID_HEADER, JStr "Row 1")]]%list
    = List.length [Scenarios.row1] /\
    forall n row',
      nth_error [Scenarios.row1 ++ [(GENERATED_ID_HEADER, JStr "Row 1")]]%list n
      = Some row' ->
      exists row,
        nth_error [Scenarios.row1] n = Some row /\
        forall k, k <> GENERATED_ID_HEADER -> get row' k = get row k.
Proof.
  apply (mapping_response_well_formed Scenarios.env "run-1" [Scenarios.row1]
           Scenarios.proposeNoId "run-1"
           (mkMapping (Some GENERATED_ID_HEADER)
              [Scenarios.rating; Scenarios.comments])
           [Scenarios.row1 ++ [(GENERATED_ID_HEADER, JStr "Row 1")]]%list).
  reflexivity.
Defined.

(** X10. Validation is stable: when the mapping stage has answered with a
    mapping and rows, running the stage again on these rows with this
    mapping as proposal accepts it and returns the mapping and the rows
    unchanged (no fallback, no removal, no error). *)
Theorem validated_mapping_is_stable (env : Env) (runId : string)
  (rows : list Row) (generateObject : string -> MappingOutcome) (rid : string)
  (m : Mapping) (rows' : list Row) :
  POST env runId rows generateObject = Json200 rid m rows' ->
  forall runId', POST env runId' rows' (fun _ => MappingObject m)
                 = Json200 runId' m rows'.
Proof.
  intros H runId'.
  assert (getSupabaseCredentials env = inr tt) as Hcred.
  { unfold POST in H. destruct (getSupabaseCredentials env) as [msg | []];
      [discriminate | reflexivity]. }
  destruct (response_200_shape _ _ _ _ _ _ _ H)
    as [proposed [sid [_ [_ [Hid [Hsid [Hq [Hvalid [Hne _]]]]]]]]].
  rewrite (POST_after_proposal env runId' rows' (fun _ => MappingObject m) m
             Hcred Hne eq_refl).
  rewrite Hid. unfold resolveStudentId.
  apply includes_In in Hsid. rewrite Hsid.
  cbn [resolvedHeaders resolvedId resolvedRows].
  assert (invalidHeaders (firstRowKeys rows') (questionHeaders m) = []) as Hinv.
  { unfold invalidHeaders. apply RunExtras.filter_none.
    intros h Hh. apply in_map_iff in Hh. destruct Hh as [qh [<- Hqh]].
    destruct (Hvalid qh Hqh) as [_ Hin]. apply includes_In in Hin.
    now rewrite Hin. }
  rewrite Hinv. f_equal. destruct m as [mid mqs]. simpl in *. subst mid.
  f_equal. rewrite finalCheck_filter. unfold withoutHeader.
  apply RunExtras.filter_all. intros qh Hqh. rewrite Hq in Hqh.
  apply filter_In in Hqh. unfold header_is. tauto.
Qed.

Lemma validated_mapping_is_stable_witness :
  POST Scenarios.env "run-2"
    [Scenarios.row1 ++ [(GENERATED_ID_HEADER, JStr "Row 1")]]%list
    (fun _ =>
       MappingObject
         (mkMapping (Some GENERATED_ID_HEADER)
            [Scenarios.rating; Scenarios.comments]))
  = Json200 "run-2"
      (mkMapping (Some GENERATED_ID_HEADER)
         [Scenarios.rating; Scenarios.comments])
      [Scenarios.row1 ++ [(GENERATED_ID_HEADER, JStr "Row 1")]]%list.
Proof.
  apply (validated_mapping_is_stable Scenarios.env "run-1" [Scenarios.row1]
           Scenarios.proposeNoId "run-1"
           (mkMapping (Some GENERATED_ID_HEADER)
              [Scenarios.rating; Scenarios.comments])
           [Scenarios.row1 ++ [(GENERATED_ID_HEADER, JStr "Row 1")]]%list).
  reflexivity.
Defined.

End AnalyzeExtras.

(** ** The page reading the stream of the route *)

Module ClientFacts.
Import Js Client Text.

Lemma append_assoc (a b c : string) : ((a ++ b) ++ c = a ++ (b ++ c))%string.
Proof. induction a as [| x a IH]; simpl; [reflexivity | now rewrite IH]. Qed.

Lemma append_nil_r (a : string) : (a ++ "")%string = a.
Proof. induction a as [| x a IH]; simpl; [reflexivity | now rewrite IH]. Qed.

Lemma append_empty (a b : string) : (a ++ b)%string = "" -> a = "" /\ b = "".
Proof. destruct a; simpl; [tauto | discriminate]. Qed.

(** Two ways in which two concatenations can be the same string. *)
Lemma append_split (x y a b : string) :
  (x ++ y = a ++ b)%string ->
  (exists z, x = (a ++ z)%string /\ b = (z ++ y)%string) \/
  (exists c z, a = (x ++ String c z)%string /\ y = (String c z ++ b)%string).
Proof.
  revert a. induction x as [| cx x IH]; intros a H; simpl in H.
  - destruct a as [| ca a]; simpl in H.
    + left. exists "". auto.
    + right. exists ca, a. split; [reflexivity | exact H].
  - destruct a as [| ca a]; simpl in H.
    + left. exists (String cx x). split; [reflexivity | symmetry; exact H].
    + inversion H as [[Hc Hrest]]. subst ca.
      destruct (IH a Hrest) as [[z [-> ->]] | [c [z [-> ->]]]].
      * left. exists z. auto.
      * right. exists c, z. auto.
Qed.

Definition notLf (c : ascii) : bool := negb (is_lf c).

(** The text has no line feed, as a text of [JSON.stringify] has none. *)
Definition noLf (s : string) : Prop := allChars notLf s = true.

Definition blankLine : string := String LF (String LF EmptyString).

Lemma allChars_append (p : ascii -> bool) (a b : string) :
  allChars p (a ++ b) = allChars p a && allChars p b.
Proof.
  induction a as [| c a IH]; simpl; [reflexivity |].
  now rewrite IH, andb_assoc.
Qed.

Lemma split_cons (c : ascii) (s : string) :
  is_lf c = false ->
  splitBlankLines (String c s) = consFirst c (splitBlankLines s).
Proof.
  intros H. destruct s as [| c2 s]; simpl; [reflexivity |]. now rewrite H.
Qed.

Lemma split_noLf (a : string) : noLf a -> splitBlankLines a = [a].
Proof.
  unfold noLf. induction a as [| c a IH]; intros H; [reflexivity |].
  simpl in H. apply andb_true_iff in H. destruct H as [Hc Ha].
  unfold notLf in Hc. apply negb_true_iff in Hc.
  rewrite split_cons, IH by assumption. reflexivity.
Qed.

Lemma split_noLf_lf (a : string) :
  noLf a -> splitBlankLines (a ++ String LF "") = [(a ++ String LF "")%string].
Proof.
  unfold noLf. induction a as [| c a IH]; intros H; [reflexivity |].
  simpl in H. apply andb_true_iff in H. destruct H as [Hc Ha].
  unfold notLf in Hc. apply negb_true_iff in Hc.
  change ((String c a ++ String LF "")%string) with (String c (a ++ String LF "")).
  rewrite split_cons, IH by assumption. reflexivity.
Qed.

Lemma split_piece (a rest : string) :
  noLf a ->
  splitBlankLines (a ++ blankLine ++ rest) = a :: splitBlankLines rest.
Proof.
  unfold noLf. induction a as [| c a IH]; intros H; [reflexivity |].
  simpl in H. apply andb_true_iff in H. destruct H as [Hc Ha].
  unfold notLf in Hc. apply negb_true_iff in Hc.
  change ((String c a ++ blankLine ++ rest)%string)
    with (String c (a ++ blankLine ++ rest)).
  rewrite split_cons, IH by assumption. reflexivity.
Qed.

(** The stream of the frames of the texts. *)
Fixpoint frames (jsons : list string) : string :=
  match jsons with
  | [] => ""
  | json :: rest => frame json ++ frames rest
  end.

Definition line (json : string) : string := "data: " ++ json.

Lemma frame_line (json : string) : frame json = (line json ++ blankLine)%string.
Proof. reflexivity. Qed.

Lemma line_noLf (json : string) : noLf json -> noLf (line json).
Proof. unfold noLf, line. intros H. simpl. exact H. Qed.

Lemma split_frames (jsons : list string) (r : string) :
  (forall json, In json jsons -> noLf json) ->
  splitBlankLines (frames jsons ++ r)
  = (map line jsons ++ splitBlankLines r)%list.
Proof.
  induction jsons as [| json rest IH]; intros H; [reflexivity |].
  cbn [frames map]. rewrite frame_line, !append_assoc.
  rewrite split_piece by (apply line_noLf, H; now left).
  rewrite IH by (intros j Hj; apply H; now right). reflexivity.
Qed.

(** A proper prefix of a frame has no blank line. *)
Lemma proper_prefix_of_frame (json x : string) (c : ascii) (z : string) :
  noLf json ->
  frame json = (x ++ String c z)%string ->
  splitBlankLines x = [x].
Proof.
  intros Hj H. rewrite frame_line in H. symmetry in H.
  apply append_split in H.
  destruct H as [[z' [-> Hz]] | [c' [z' [Hl _]]]].
  - destruct z' as [| c1 [| c2 z'']].
    + rewrite append_nil_r. apply split_noLf. now apply line_noLf.
    + inversion Hz; subst. apply split_noLf_lf. now apply line_noLf.
    + inversion Hz as [[H1 H2 H3]]. symmetry in H3.
      apply append_empty in H3. destruct H3 as [_ H3]. discriminate H3.
  - apply split_noLf. apply line_noLf in Hj. unfold noLf in *.
    rewrite Hl, allChars_append in Hj. apply andb_true_iff in Hj. tauto.
Qed.

(** Any prefix of a stream of frames is some of the frames followed by a
    piece without blank line, and the rest of the stream continues it. *)
Lemma prefix_of_frames (jsons : list string) :
  (forall json, In json jsons -> noLf json) ->
  forall x y,
    (x ++ y)%string = frames jsons ->
    exists done todo r,
      jsons = (done ++ todo)%list /\
      x = (frames done ++ r)%string /\
      (r ++ y)%string = frames todo /\
      splitBlankLines r = [r].
Proof.
  induction jsons as [| json rest IH]; intros Hall x y H.
  - simpl in H. apply append_empty in H. destruct H as [-> ->].
    exists [], [], "". auto.
  - cbn [frames] in H. apply append_split in H.
    destruct H as [[z [-> Hz]] | [c [z [Hf ->]]]].
    + assert (forall j, In j rest -> noLf j) as Hall'
          by (intros j Hj; apply Hall; now right).
      symmetry in Hz.
      destruct (IH Hall' z y Hz) as [done [todo [r [-> [-> [Hr Hs]]]]]].
      exists (json :: done), todo, r. cbn [frames].
      rewrite append_assoc. auto.
    + exists [], (json :: rest), x. cbn [frames].
      split; [reflexivity |]. split; [reflexivity |].
      split; [rewrite Hf; now rewrite append_assoc |].
      eapply proper_prefix_of_frame; [| exact Hf]. apply Hall. now left.
Qed.

Lemma handleLines_lines (isComplete : string -> bool) (jsons : list string) :
  handleLines isComplete (map line jsons)
  = (upToComplete isComplete jsons, existsb isComplete jsons).
Proof.
  assert (forall json, prefix "data: " (line json) = true) as Hp
      by (intros json; unfold line; simpl; destruct json; reflexivity).
  induction jsons as [| json rest IH]; [reflexivity |].
  cbn [map handleLines]. rewrite Hp.
  change (drop 6 (line json)) with json. cbn [upToComplete existsb].
  destruct (isComplete json); [reflexivity |].
  rewrite IH. reflexivity.
Qed.

Lemma upToComplete_app (isComplete : string -> bool) (a b : list string) :
  upToComplete isComplete (a ++ b)
  = if existsb isComplete a then upToComplete isComplete a
    else (a ++ upToComplete isComplete b)%list.
Proof.
  induction a as [| json a IH]; [reflexivity |].
  simpl. destruct (isComplete json); [reflexivity |]. simpl. rewrite IH.
  destruct (existsb isComplete a); reflexivity.
Qed.

Lemma upToComplete_none (isComplete : string -> bool) (a : list string) :
  existsb isComplete a = false -> upToComplete isComplete a = a.
Proof.
  induction a as [| json a IH]; [reflexivity |]. simpl.
  destruct (isComplete json); [discriminate |]. simpl. intros H.
  now rewrite IH.
Qed.

Lemma concat_cons (chunk : string) (chunks : list string) :
  String.concat "" (chunk :: chunks) = (chunk ++ String.concat "" chunks)%string.
Proof.
  destruct chunks as [| c2 rest]; simpl; [now rewrite append_nil_r | reflexivity].
Qed.

Lemma split_nonempty (s : string) : splitBlankLines s <> [].
Proof.
  destruct s as [| c1 rest]; [discriminate |].
  assert ((exists r, splitBlankLines (String c1 rest) = "" :: r) \/
          splitBlankLines (String c1 rest) = consFirst c1 (splitBlankLines rest))
    as [[r ->] | ->].
  { destruct rest as [| c2 r]; [right; reflexivity |].
    destruct (is_lf c1 && is_lf c2) eqn:E.
    - left. exists (splitBlankLines r). cbn [splitBlankLines]. now rewrite E.
    - right. cbn [splitBlankLines]. rewrite E. reflexivity. }
  - discriminate.
  - unfold consFirst. destruct (splitBlankLines rest); discriminate.
Qed.

Lemma readLoop_frames (isComplete : string -> bool) (chunks : list string) :
  forall buffer jsons,
    (forall json, In json jsons -> noLf json) ->
    splitBlankLines buffer = [buffer] ->
    (buffer ++ String.concat "" chunks)%string = frames jsons ->
    readLoop isComplete chunks buffer = upToComplete isComplete jsons.
Proof.
  induction chunks as [| value rest IH]; intros buffer jsons Hall Hbuf Heq.
  - simpl in Heq. rewrite append_nil_r in Heq. subst buffer.
    destruct jsons as [| json more]; [reflexivity |].
    exfalso. cbn [frames] in Hbuf. rewrite frame_line, append_assoc in Hbuf.
    rewrite split_piece in Hbuf by (apply line_noLf, Hall; now left).
    destruct (splitBlankLines (frames more)) eqn:E; [| discriminate Hbuf].
    now apply split_nonempty in E.
  - rewrite concat_cons, <- append_assoc in Heq.
    destruct (prefix_of_frames jsons Hall _ _ Heq)
      as [done [todo [r [-> [Hx [Hr Hs]]]]]].
    cbn [readLoop]. rewrite Hx.
    rewrite split_frames by (intros j Hj; apply Hall, in_or_app; now left).
    rewrite Hs, removelast_last, last_last, handleLines_lines.
    rewrite upToComplete_app.
    destruct (existsb isComplete done) eqn:E; [reflexivity |].
    rewrite (upToComplete_none _ _ E). f_equal.
    assert (or_str r "" = r) as -> by (destruct r; reflexivity).
    apply IH; [| exact Hs | exact Hr].
    intros j Hj. apply Hall, in_or_app. now right.
Qed.

Lemma concat_frames (jsons : list string) :
  String.concat "" (map frame jsons) = frames jsons.
Proof.
  induction jsons as [| json rest IH]; [reflexivity |].
  cbn [map]. rewrite concat_cons, IH. reflexivity.
Qed.

Lemma readLoop_stream (isComplete : string -> bool)
  (jsons chunks : list string) :
  (forall json, In json jsons -> noLf json) ->
  String.concat "" chunks = String.concat "" (map frame jsons) ->
  readLoop isComplete chunks "" = upToComplete isComplete jsons.
Proof.
  intros Hall Heq. apply readLoop_frames; [exact Hall | reflexivity |].
  simpl. rewrite Heq. apply concat_frames.
Qed.

(** X11. However the network cuts the stream of the route into chunks, the
    reader of the page handles exactly the JSON texts that the route
    enqueued, each once and in order, up to and including the first message
    of type 'complete'; this needs only that no text contains a line
    feed. *)
Theorem stream_reassembly (isComplete : string -> bool)
  (jsons chunks : list string) :
  (forall json, In json jsons -> allChars (fun c => negb (is_lf c)) json = true) ->
  String.concat "" chunks = String.concat "" (map frame jsons) ->
  readLoop isComplete chunks "" = upToComplete isComplete jsons.
Proof.
  intros Hall Heq. apply readLoop_stream; assumption.
Qed.

Lemma stream_reassembly_witness :
  readLoop (String.eqb "done") ["da"; "ta: one" ++ String LF ""; String LF "data: ";
                                 "done" ++ blankLine ++ "data: late" ++ blankLine]
           ""
  = upToComplete (String.eqb "done") ["one"; "done"; "late"].
Proof.
  apply (stream_reassembly (String.eqb "done")
           ["one"; "done"; "late"]
           ["da"; "ta: one" ++ String LF ""; String LF "data: ";
            "done" ++ blankLine ++ "data: late" ++ blankLine]).
  - intros json [<- | [<- | [<- | []]]]; reflexivity.
  - reflexivity.
Defined.

End ClientFacts.

(** ** The route and the page together *)

Module EndToEnd.
Import Js Process Run Text Client ProcessFacts ClientFacts.

Lemma upToComplete_last (isComplete : string -> bool) (pre : list string)
  (final : string) :
  existsb isComplete pre = false ->
  upToComplete isComplete (pre ++ [final]) = (pre ++ [final])%list.
Proof.
  intros H. rewrite upToComplete_app, H. f_equal. simpl.
  destruct (isComplete final); reflexivity.
Qed.

(** X12. The page handles every event of a run, in order, whatever the
    chunking: for any serialization of the messages without line feed in
    which the reader recognizes the messages of type 'complete', what the
    reader handles is the serialization of all the events sent; the only
    'complete' message is the last one, so the reader stops at the end. *)
Theorem page_receives_every_event (env : Env) (c : Collaborators) (req : Request)
  (m : ConfirmedMapping) (stringify : StreamMessage -> string)
  (isComplete : string -> bool) :
  Accepted env req m ->
  (forall message,
     allChars (fun ch => negb (is_lf ch)) (stringify message) = true) ->
  (forall message,
     isComplete (stringify message) = true <-> exists text, message = complete text) ->
  exists final,
    POST env c req = Some (EventStream final) /\
    forall chunks,
      String.concat "" chunks
      = String.concat "" (map (fun message => frame (stringify message))
                              (sent final)) ->
      readLoop isComplete chunks "" = map stringify (sent final).
Proof.
  intros Hacc Hlf Hcomplete.
  destruct (closing_events env c req m Hacc)
    as [final [s [mid [save [HP [_ [_ [HS [_ [Hmid Hsave]]]]]]]]]].
  exists final. split; [exact HP |]. intros chunks Hchunks.
  rewrite <- map_map in Hchunks.
  rewrite (readLoop_stream isComplete (map stringify (sent final)) chunks);
    [| | exact Hchunks].
  - rewrite HS.
    replace (sent (runAfter c req m (totalBatchesOf req))
             ++ stats s :: mid :: save ++ [completeEvent (rows req)])%list
      with ((sent (runAfter c req m (totalBatchesOf req))
             ++ stats s :: mid :: save) ++ [completeEvent (rows req)])%list
      by (rewrite <- app_assoc; reflexivity).
    rewrite map_app. cbn [map]. apply upToComplete_last.
    apply not_true_is_false. intros Hex.
    apply existsb_exists in Hex. destruct Hex as [json [Hin Hc]].
    apply in_map_iff in Hin. destruct Hin as [msg [<- Hin]].
    apply Hcomplete in Hc. destruct Hc as [text ->].
    apply in_app_or in Hin. destruct Hin as [Hin | Hin].
    + unfold runAfter in Hin. apply RunExtras.loop_events_kind in Hin.
      destruct Hin as [[i [t H]] | [[d H] | [msg [b H]]]]; discriminate H.
    + simpl in Hin. destruct Hin as [H | [H | Hin]]; [discriminate H | |].
      * destruct Hmid as [[t ->] | [e [_ [_ [_ ->]]]]]; discriminate H.
      * destruct Hsave as [-> | [t ->]]; [contradiction |].
        destruct Hin as [H | []]. discriminate H.
  - intros json Hin. apply in_map_iff in Hin. destruct Hin as [msg [<- _]].
    apply Hlf.
Qed.

Lemma page_receives_every_event_witness :
  exists final,
    POST Scenarios.env Scenarios.collaborators Scenarios.request
    = Some (EventStream final) /\
    forall chunks,
      String.concat "" chunks
      = String.concat "" (map (fun message => frame (Scenarios.typeOf message))
                              (sent final)) ->
      readLoop (String.eqb "complete") chunks ""
      = map Scenarios.typeOf (sent final).
Proof.
  apply (page_receives_every_event Scenarios.env Scenarios.collaborators
           Scenarios.request Scenarios.mapping Scenarios.typeOf
           (String.eqb "complete")).
  - repeat split.
  - intros []; reflexivity.
  - intros message. split.
    + destruct message; simpl; intros H; try discriminate H.
      eexists. reflexivity.
    + intros [text ->]. reflexivity.
Defined.

End EndToEnd.

(** * The page's parser of combined keys *)

Module ParseFacts.
Import Js Process Client KeyView.

Lemma prefix_app (a b : string) : prefix a (a ++ b) = true.
Proof.
  induction a as [|c a IH]; cbn [append prefix].
  - destruct b; reflexivity.
  - destruct (ascii_dec c c) as [_|Hne]; [exact IH | contradiction].
Qed.

Lemma prefix_split (m s : string) :
  prefix m s = true -> exists rest, s = m ++ rest.
Proof.
  revert s; induction m as [|c m IH]; intros s H.
  - exists s. reflexivity.
  - destruct s as [|d s]; cbn [prefix] in H; [discriminate|].
    destruct (ascii_dec c d) as [->|]; [|discriminate].
    destruct (IH _ H) as [rest ->]. exists rest. reflexivity.
Qed.

Lemma index_cons (m : string) (c : ascii) (s : string) :
  index 0 m (String c s) =
  if prefix m (String c s) then Some 0 else option_map S (index 0 m s).
Proof.
  cbn [index]. destruct (prefix m (String c s)); [reflexivity|].
  destruct (index 0 m s); reflexivity.
Qed.

Lemma index_found (m key : string) (i : nat) :
  index 0 m key = Some i ->
  exists p rest, key = p ++ m ++ rest /\ String.length p = i.
Proof.
  revert i; induction key as [|c key IH]; intros i H.
  - destruct m; simpl in H; [|discriminate].
    injection H as <-. exists "", "". split; reflexivity.
  - rewrite index_cons in H.
    destruct (prefix m (String c key)) eqn:Hp.
    + injection H as <-. destruct (prefix_split _ _ Hp) as [rest Hrest].
      exists "", rest. split; [exact Hrest | reflexivity].
    + destruct (index 0 m key) as [n|]; simpl in H; [|discriminate].
      injection H as <-.
      destruct (IH n eq_refl) as (p & rest & -> & Hlen).
      exists (String c p), rest. split; [reflexivity | simpl; now rewrite Hlen].
Qed.

Lemma substring_app (p x : string) :
  substring 0 (String.length p) (p ++ x) = p.
Proof.
  induction p as [|c p IH]; simpl.
  - destruct x; reflexivity.
  - now rewrite IH.
Qed.

Lemma drop_app (p x : string) (n : nat) :
  drop (String.length p + n) (p ++ x) = drop n x.
Proof. induction p as [|c p IH]; simpl; [reflexivity | exact IH]. Qed.

Lemma drop_all (m x : string) : drop (String.length m) (m ++ x) = x.
Proof.
  rewrite <- (Nat.add_0_r (String.length m)), drop_app.
  destruct x; reflexivity.
Qed.

(** The characters of a sentiment word: none is an underscore. *)
Definition noUnderscore (w : string) : Prop :=
  Text.allChars (fun c => negb (Ascii.eqb c "_")) w = true.

Lemma sentiment_noUnderscore (s : Sentiment) :
  noUnderscore (sentiment_string s).
Proof. destruct s; reflexivity. Qed.

(** A word followed by an underscore that does not start [a ++ "_"]
    does not start [a ++ "_" ++ rest] either. *)
Lemma prefix_word_extend (w a rest : string) :
  noUnderscore w ->
  prefix (w ++ "_") (a ++ "_") = false ->
  prefix (w ++ "_") (a ++ "_" ++ rest) = false.
Proof.
  unfold noUnderscore.
  revert a; induction w as [|e w IH]; intros a Hw H.
  - destruct a as [|d a]; cbn [append prefix] in *.
    + destruct (ascii_dec "_" "_") as [_|Hne]; [discriminate H|].
      contradiction Hne; reflexivity.
    + destruct (ascii_dec "_" d); [|reflexivity].
      destruct (a ++ "_"); discriminate H.
  - cbn [Text.allChars] in Hw. apply andb_true_iff in Hw.
    destruct Hw as [He Hw].
    destruct a as [|d a]; cbn [append prefix] in *.
    + destruct (ascii_dec e "_") as [->|]; [discriminate He | reflexivity].
    + destruct (ascii_dec e d); [|reflexivity]. apply IH; assumption.
Qed.

Lemma prefix_marker_extend (w : string) (c : ascii) (a rest : string) :
  noUnderscore w ->
  prefix ("_" ++ w ++ "_") (String c a ++ "_") = false ->
  prefix ("_" ++ w ++ "_") (String c a ++ "_" ++ rest) = false.
Proof.
  intros Hw H. cbn [append prefix] in *.
  destruct (ascii_dec "_" c); [|reflexivity].
  apply prefix_word_extend; assumption.
Qed.

(** A marker that does not occur in [t ++ "_"] occurs in
    [t ++ "_" ++ rest] where it occurs in ["_" ++ rest], moved by the
    length of [t]. *)
Lemma index_after_topic (w t rest : string) :
  noUnderscore w ->
  index 0 ("_" ++ w ++ "_") (t ++ "_") = None ->
  index 0 ("_" ++ w ++ "_") (t ++ "_" ++ rest) =
  option_map (fun k => String.length t + k)
             (index 0 ("_" ++ w ++ "_") ("_" ++ rest)).
Proof.
  intros Hw. induction t as [|c t IH]; intros H.
  - change ("" ++ "_" ++ rest) with ("_" ++ rest).
    destruct (index 0 ("_" ++ w ++ "_") ("_" ++ rest)); reflexivity.
  - change (String c t ++ "_") with (String c (t ++ "_")) in H.
    rewrite index_cons in H.
    destruct (prefix ("_" ++ w ++ "_") (String c (t ++ "_"))) eqn:Hp;
      [discriminate H|].
    destruct (index 0 ("_" ++ w ++ "_") (t ++ "_")) eqn:Hi;
      [discriminate H|].
    change (String c t ++ "_" ++ rest) with (String c (t ++ "_" ++ rest)).
    rewrite index_cons.
    change (String c (t ++ "_" ++ rest)) with (String c t ++ "_" ++ rest).
    rewrite (prefix_marker_extend w c t rest Hw Hp).
    rewrite (IH eq_refl).
    destruct (index 0 ("_" ++ w ++ "_") ("_" ++ rest)); reflexivity.
Qed.

Lemma marker_after_topic (s' : Sentiment) (t rest : string) :
  index 0 (markerOf s') (t ++ "_") = None ->
  index 0 (markerOf s') (t ++ "_" ++ rest) =
  option_map (fun k => String.length t + k)
             (index 0 (markerOf s') ("_" ++ rest)).
Proof. apply index_after_topic, sentiment_noUnderscore. Qed.

(** The marker of another sentiment does not reach into the marker of the
    key's sentiment. *)
Lemma other_marker_absent (s s' : Sentiment) (subKey : string) :
  s' <> s ->
  index 0 (markerOf s') ("_" ++ subKey) = None ->
  index 0 (markerOf s') ("_" ++ sentiment_string s ++ "_" ++ subKey) = None.
Proof.
  intros Hne H.
  assert (Hfree : index 0 (markerOf s') (("_" ++ sentiment_string s) ++ "_")
                  = None).
  { destruct s, s'; try reflexivity; contradiction Hne; reflexivity. }
  pose proof (marker_after_topic s' ("_" ++ sentiment_string s) subKey Hfree)
    as Hm.
  rewrite H in Hm.
  replace ("_" ++ sentiment_string s ++ "_" ++ subKey)
    with (("_" ++ sentiment_string s) ++ "_" ++ subKey)
    by (destruct s; reflexivity).
  exact Hm.
Qed.

Lemma earlier_differs (s s' : Sentiment) :
  In s' (earlierSentiments s) -> s' <> s.
Proof.
  destruct s, s'; simpl; intros H Heq; try discriminate Heq;
    repeat (destruct H as [H|H]; try discriminate H); try contradiction.
Qed.

(** The loop, by the sentiment whose marker is met first. *)
Lemma scan_first_marker (s : Sentiment) (key : string) (i : nat)
  (vars : ParsedCategory) :
  (forall s', In s' (earlierSentiments s) ->
              index 0 (markerOf s') key = None) ->
  index 0 (markerOf s) key = Some i ->
  scanSentiments SENTIMENTS key vars =
  mkParsedCategory
    (or_str (underscoresToSpaces (substring 0 i key)) "N/A")
    (sentiment_string s)
    (subCategoryFrom
       (underscoresToSpaces (drop (i + String.length (markerOf s)) key))
       (subCategory vars)).
Proof.
  intros Hearlier Hfound. unfold SENTIMENTS.
  destruct s; cbn [earlierSentiments] in Hearlier.
  - cbn [scanSentiments].
    change ("_" ++ "positive" ++ "_") with (markerOf positive).
    rewrite Hfound. reflexivity.
  - cbn [scanSentiments].
    change ("_" ++ "positive" ++ "_") with (markerOf positive).
    rewrite (Hearlier positive) by (simpl; auto).
    change ("_" ++ "negative" ++ "_") with (markerOf negative).
    rewrite Hfound. reflexivity.
  - cbn [scanSentiments].
    change ("_" ++ "positive" ++ "_") with (markerOf positive).
    rewrite (Hearlier positive) by (simpl; auto).
    change ("_" ++ "negative" ++ "_") with (markerOf negative).
    rewrite (Hearlier negative) by (simpl; auto).
    change ("_" ++ "neutral" ++ "_") with (markerOf neutral).
    rewrite Hfound. reflexivity.
  - cbn [scanSentiments].
    change ("_" ++ "positive" ++ "_") with (markerOf positive).
    rewrite (Hearlier positive) by (simpl; auto).
    change ("_" ++ "negative" ++ "_") with (markerOf negative).
    rewrite (Hearlier negative) by (simpl; auto).
    change ("_" ++ "neutral" ++ "_") with (markerOf neutral).
    rewrite (Hearlier neutral) by (simpl; auto).
    change ("_" ++ "n/a" ++ "_") with (markerOf na).
    rewrite Hfound. reflexivity.
Qed.

Lemma underscoresToSpaces_empty (s : string) :
  underscoresToSpaces s = "" -> s = "".
Proof. destruct s; [reflexivity | discriminate]. Qed.

Lemma subCategoryFrom_key (sub : option string) :
  subCategoryFrom (underscoresToSpaces (subCategoryKeyOf sub)) None =
  shownSubCategory sub.
Proof.
  unfold subCategoryFrom, shownSubCategory, subCategoryKeyOf.
  destruct sub as [x|]; [|reflexivity].
  destruct x as [|c x]; [reflexivity|].
  cbn [or_str falsy_str underscoresToSpaces negb andb orb].
  change (underscoresToSpaces SUB_CATEGORY_DEFAULT) with "detail na".
  destruct (String.eqb _ "detail na"); reflexivity.
Qed.

(** X13. The page reads back what the route put into a combined key:
    for a topic that is not empty, is not "N/A" once its underscores are
    spaces, and in which (followed by an underscore) neither the marker
    of the key's sentiment nor the marker of a sentiment tried before it
    occurs, and a sub-category key in which (after an underscore) no
    marker of a sentiment tried before occurs, the parsed topic is the
    route's topic with underscores as spaces, the parsed sentiment is the
    route's sentiment, and the parsed sub-category is the route's
    sub-category with underscores as spaces, or none when the route had
    none, an empty one or the default. *)
Theorem parse_inverts_combined_key (t : string) (s : Sentiment)
  (sub : option string) :
  t <> "" ->
  underscoresToSpaces t <> "N/A" ->
  (forall s', In s' (earlierSentiments s ++ [s])%list ->
              index 0 (markerOf s') (t ++ "_") = None) ->
  (forall s', In s' (earlierSentiments s) ->
              index 0 (markerOf s') ("_" ++ subCategoryKeyOf sub) = None) ->
  parseCombinedCategory (combinedCategoryOf t (sentiment_string s) sub) =
  mkParsedCategory (underscoresToSpaces t) (sentiment_string s)
                   (shownSubCategory sub).
Proof.
  intros Ht Hna Htopic Hsub.
  set (subKey := subCategoryKeyOf sub).
  assert (Hkey : combinedCategoryOf t (sentiment_string s) sub =
                 t ++ "_" ++ sentiment_string s ++ "_" ++ subKey)
    by reflexivity.
  rewrite Hkey.
  assert (Hearlier : forall s', In s' (earlierSentiments s) ->
            index 0 (markerOf s')
                  (t ++ "_" ++ sentiment_string s ++ "_" ++ subKey) = None).
  { intros s' Hin.
    rewrite marker_after_topic
      by (apply Htopic, in_or_app; left; exact Hin).
    rewrite (other_marker_absent s s' subKey
               (earlier_differs _ _ Hin) (Hsub s' Hin)).
    reflexivity. }
  assert (Hfound : index 0 (markerOf s)
                     (t ++ "_" ++ sentiment_string s ++ "_" ++ subKey)
                   = Some (String.length t + 0)).
  { rewrite marker_after_topic
      by (apply Htopic, in_or_app; right; simpl; auto).
    assert (Hhere : index 0 (markerOf s)
                      ("_" ++ sentiment_string s ++ "_" ++ subKey) = Some 0).
    { replace ("_" ++ sentiment_string s ++ "_" ++ subKey)
        with (markerOf s ++ subKey) by (destruct s; reflexivity).
      pose proof (prefix_app (markerOf s) subKey) as Hp.
      destruct s; cbn [markerOf sentiment_string append] in *;
        rewrite index_cons, Hp; reflexivity. }
    rewrite Hhere. reflexivity. }
  unfold parseCombinedCategory.
  rewrite (scan_first_marker s _ _ _ Hearlier Hfound).
  cbn [topic subCategory].
  rewrite Nat.add_0_r.
  rewrite substring_app.
  replace (t ++ "_" ++ sentiment_string s ++ "_" ++ subKey)
    with (t ++ markerOf s ++ subKey) by (destruct s; reflexivity).
  rewrite drop_app, drop_all.
  assert (Htopic' : or_str (underscoresToSpaces t) "N/A" =
                    underscoresToSpaces t).
  { unfold or_str. destruct (underscoresToSpaces t) eqn:Hu; [|reflexivity].
    contradiction Ht. apply underscoresToSpaces_empty. exact Hu. }
  rewrite Htopic'.
  destruct (String.eqb (underscoresToSpaces t) "N/A") eqn:Heq.
  - apply String.eqb_eq in Heq. contradiction.
  - unfold subKey. rewrite subCategoryFrom_key. reflexivity.
Qed.

Lemma parse_inverts_combined_key_witness :
  parseCombinedCategory
    (combinedCategoryOf "driver_attitude" "negative" (Some "long_wait_times")) =
  mkParsedCategory "driver attitude" "negative" (Some "long wait times").
Proof.
  apply (parse_inverts_combined_key "driver_attitude" negative
           (Some "long_wait_times")).
  - discriminate.
  - discriminate.
  - intros s' [<-|[<-|[]]]; reflexivity.
  - intros s' [<-|[]]; reflexivity.
Defined.

Lemma splitUnderscore_word (w rest : string) :
  noUnderscore w ->
  splitUnderscore (w ++ "_" ++ rest) = w :: splitUnderscore rest.
Proof.
  unfold noUnderscore. induction w as [|c w IH]; intros Hw.
  - reflexivity.
  - simpl in Hw. apply andb_true_iff in Hw. destruct Hw as [Hc Hw].
    change (String c w ++ "_" ++ rest) with (String c (w ++ "_" ++ rest)).
    cbn [splitUnderscore].
    apply negb_true_iff in Hc. rewrite Hc, (IH Hw). reflexivity.
Qed.

Lemma underscoresToSpaces_NA (p : string) :
  underscoresToSpaces p = "N/A" -> p = "N/A".
Proof.
  intros H.
  destruct p as [|c1 [|c2 [|c3 [|c4 p]]]]; try discriminate H.
  simpl in H. injection H as H1 H2 H3.
  assert (Hc : forall c d, underscoreToSpace c = d -> d <> " "%char -> c = d).
  { intros c d Hcd Hd. unfold underscoreToSpace in Hcd.
    destruct (Ascii.eqb c "_"); [congruence | exact Hcd]. }
  rewrite (Hc _ _ H1), (Hc _ _ H2), (Hc _ _ H3) by discriminate.
  reflexivity.
Qed.

(** X14. The first marker that occurs decides the sentiment: when the
    marker of [s] occurs in a key in which no marker of a sentiment tried
    before [s] occurs, the parsed sentiment is [s], whatever sentiment the
    key was built from. *)
Theorem first_marker_decides_sentiment (key : string) (s : Sentiment) :
  (forall s', In s' (earlierSentiments s) ->
              index 0 (markerOf s') key = None) ->
  index 0 (markerOf s) key <> None ->
  sentiment (parseCombinedCategory key) = sentiment_string s.
Proof.
  intros Hearlier Hfound.
  destruct (index 0 (markerOf s) key) as [i|] eqn:Hi; [|contradiction].
  unfold parseCombinedCategory.
  rewrite (scan_first_marker s key i _ Hearlier Hi).
  cbn [topic].
  destruct (String.eqb _ "N/A") eqn:Hna; [|reflexivity].
  apply String.eqb_eq in Hna.
  destruct (index_found _ _ _ Hi) as (p & rest & Hkey & Hlen).
  subst i. rewrite Hkey, substring_app in Hna.
  assert (Hp : p = "" \/ p = "N/A").
  { unfold or_str in Hna.
    destruct (underscoresToSpaces p) eqn:Hu.
    - left. apply underscoresToSpaces_empty. exact Hu.
    - right. apply underscoresToSpaces_NA. rewrite Hu. exact Hna. }
  unfold fallbackParse. cbn [sentiment].
  assert (Hparts : nth 1 (splitUnderscore key) "" = sentiment_string s).
  { rewrite Hkey.
    replace (p ++ markerOf s ++ rest)
      with (p ++ "_" ++ sentiment_string s ++ "_" ++ rest)
      by (destruct s; reflexivity).
    destruct Hp as [-> | ->].
    - change ("" ++ "_" ++ sentiment_string s ++ "_" ++ rest)
        with ("" ++ "_" ++ (sentiment_string s ++ "_" ++ rest)).
      rewrite (splitUnderscore_word "" _) by reflexivity.
      rewrite (splitUnderscore_word (sentiment_string s) rest)
        by apply sentiment_noUnderscore.
      reflexivity.
    - rewrite (splitUnderscore_word "N/A" _) by reflexivity.
      rewrite (splitUnderscore_word (sentiment_string s) rest)
        by apply sentiment_noUnderscore.
      reflexivity. }
  rewrite Hparts. destruct s; reflexivity.
Qed.

(** The key of the categorical question "How positive was it" answered
    "5" is read with the sentiment "positive". *)
Lemma first_marker_decides_sentiment_witness :
  sentiment
    (parseCombinedCategory
       (combinedCategoryOf (normalize "How positive was it") "n/a"
                           (Some (normalize "5")))) = "positive".
Proof.
  apply (first_marker_decides_sentiment
           (combinedCategoryOf (normalize "How positive was it") "n/a"
                               (Some (normalize "5"))) positive).
  - intros s' [].
  - vm_compute. discriminate.
Defined.

End ParseFacts.

(** * Runs in mock mode *)

Module MockFacts.
Import Js JsFacts Process Run Mock ProcessFacts.

Definition mockTopics : list string := ["mock_topic_1"; "mock_topic_2"].

Definition allMock (object : list Llm.CategorizedStudent) : Prop :=
  forall s, In s object -> Llm.categorizations s = mockCategorizations.

Definition hasMarker (s : string) : Prop :=
  exists a b, s = a ++ RESPONDENT_MARKER ++ b.

Lemma mock_allMock (random : nat -> string) (prompt : string) :
  allMock (mockAnalyzeFeedbackBatch random prompt).
Proof.
  intros s Hin. unfold mockAnalyzeFeedbackBatch, mapi in Hin.
  apply In_mapi_from in Hin. destruct Hin as [n [x [_ ->]]]. reflexivity.
Qed.

Lemma match_marker (a b : string) :
  matchRespondentLines 0 (a ++ RESPONDENT_MARKER ++ b) <> [].
Proof.
  induction a as [| c a IH].
  - assert (prefix RESPONDENT_MARKER (String "R" ("espondent ID: " ++ b))
            = true) as Hp
        by exact (ParseFacts.prefix_app RESPONDENT_MARKER b).
    change ("" ++ RESPONDENT_MARKER ++ b)
      with (String "R" ("espondent ID: " ++ b)).
    cbn [matchRespondentLines]. rewrite Hp. discriminate.
  - change (String c a ++ RESPONDENT_MARKER ++ b)
      with (String c (a ++ RESPONDENT_MARKER ++ b)).
    cbn [matchRespondentLines].
    destruct (prefix RESPONDENT_MARKER (String c (a ++ RESPONDENT_MARKER ++ b)));
      [discriminate | exact IH].
Qed.

Lemma mock_nonempty (random : nat -> string) (prompt : string) :
  hasMarker prompt -> mockAnalyzeFeedbackBatch random prompt <> [].
Proof.
  intros [a [b ->]] H. apply (f_equal (@List.length _)) in H.
  unfold mockAnalyzeFeedbackBatch, mapi, mockRespondentIds in H.
  rewrite length_mapi_from, length_map in H.
  destruct (matchRespondentLines 0 (a ++ RESPONDENT_MARKER ++ b)) eqn:E;
    [now apply match_marker in E | discriminate H].
Qed.

Lemma marker_after (x r : string) : hasMarker r -> hasMarker (x ++ r).
Proof.
  intros [a [b ->]]. exists (x ++ a), b.
  now rewrite ClientFacts.append_assoc.
Qed.

Lemma items_have_marker (input : list PromptItem) :
  qualitativeDataExistsInBatch input = true ->
  hasMarker (String.concat "" (map promptOfItem input)).
Proof.
  unfold qualitativeDataExistsInBatch.
  induction input as [| item rest IH]; cbn [existsb map]; [discriminate |].
  intros H. rewrite ClientFacts.concat_cons.
  destruct (existsb answered (answers item)) eqn:E.
  - unfold promptOfItem. rewrite E.
    exists nl. eexists.
    rewrite !ClientFacts.append_assoc. reflexivity.
  - apply marker_after. apply IH. exact H.
Qed.

Lemma prompt_has_marker (qualitativeQuestions : list QuestionHeaderInfo)
  (batchNumber : nat) (topics subCategories : list string)
  (input : list PromptItem) :
  callsAi qualitativeQuestions input = true ->
  hasMarker (batchPrompt batchNumber topics subCategories input).
Proof.
  unfold callsAi. intros H. apply andb_true_iff in H. destruct H as [_ H].
  unfold batchPrompt. do 7 apply marker_after.
  apply items_have_marker. exact H.
Qed.

(** The normalization leaves the object of the mock as it is and turns
    the topics into the two mock topics. *)
Lemma normalizedStudent_mock (s : Llm.CategorizedStudent) :
  Llm.categorizations s = mockCategorizations ->
  Llm.categorizations (normalizedStudent s) = mockCategorizations.
Proof. unfold normalizedStudent. intros ->. reflexivity. Qed.

Lemma normalize_mock_context (object : list Llm.CategorizedStudent) :
  allMock object ->
  forall topics,
    topics = [] \/ topics = mockTopics ->
    snd (normalizeResult object (topics, []))
    = (match object with [] => topics | _ :: _ => mockTopics end, []).
Proof.
  induction object as [| s rest IH]; intros Hall topics Ht; [reflexivity |].
  cbn [normalizeResult]. rewrite (Hall s (or_introl eq_refl)).
  assert (normalizeCategorizations mockCategorizations (topics, [])
          = (mockCategorizations, (mockTopics, []))) as Hn
      by (destruct Ht as [-> | ->]; reflexivity).
  rewrite Hn.
  pose proof (IH (fun x Hx => Hall x (or_intror Hx)) mockTopics
                 (or_intror eq_refl)) as H.
  destruct (normalizeResult rest (mockTopics, [])) as [rest' ctx2].
  cbn [snd] in *. rewrite H. destruct rest; reflexivity.
Qed.

Definition mockState (st : RunState) : Prop :=
  identifiedSubCategories st = [] /\
  ((identifiedTopics st = [] /\ llmCalls st = []) \/
   (identifiedTopics st = mockTopics /\ llmCalls st <> [])).

Section MockRun.

Variable c : Collaborators.
Variables runId studentIdHeader : string.
Variable questionHeaders : list QuestionHeaderInfo.
Variable rows : list Row.
Hypothesis Hmock : usesMock c.

Let after : nat -> RunState :=
  stateAfter c runId studentIdHeader questionHeaders rows.
Let turn : nat -> RunState :=
  delta c runId studentIdHeader questionHeaders rows.

(** A turn in mock mode: skipped, or made with the object of the mock on
    a prompt that names a respondent. *)
Lemma mock_turn_cases (k : nat) :
  turn k
  = mkRunState [batchStart (S k) (ceilDiv (List.length rows) BATCH_SIZE)]
      (batchCategorical runId studentIdHeader questionHeaders rows k)
      (identifiedTopics (after k)) (identifiedSubCategories (after k)) []
  \/
  exists object prompt,
    allMock object /\ object <> [] /\
    turn k
    = mkRunState
        (batchStart (S k) (ceilDiv (List.length rows) BATCH_SIZE)
         :: map result (map normalizedStudent object))
        (batchCategorical runId studentIdHeader questionHeaders rows k
         ++ List.concat
              (map (aiRecords runId studentIdHeader
                      (filter isQualitative questionHeaders)
                      (k * BATCH_SIZE) (batchRows rows k))
                   (map normalizedStudent object)))
        (fst (snd (normalizeResult object (ctxOf (after k)))))
        (snd (snd (normalizeResult object (ctxOf (after k)))))
        [(S k, prompt)].
Proof.
  destruct (turn_cases c runId studentIdHeader questionHeaders rows k)
    as [[_ H] | [[_ [Hf _]] | [object [Hc [Ho H]]]]].
  - left. exact H.
  - exfalso.
    destruct (Hmock (S k)
                (promptFor studentIdHeader questionHeaders rows k
                   (stateAfter c runId studentIdHeader questionHeaders rows k)))
      as [random Hr].
    rewrite Hr in Hf. discriminate Hf.
  - right.
    destruct (Hmock (S k)
                (promptFor studentIdHeader questionHeaders rows k
                   (stateAfter c runId studentIdHeader questionHeaders rows k)))
      as [random Hr].
    rewrite Hr in Ho. injection Ho as <-.
    eexists. eexists. split; [apply mock_allMock |].
    split; [| exact H].
    apply mock_nonempty. unfold promptFor.
    eapply prompt_has_marker. exact Hc.
Qed.

Lemma mock_stateAfter (n : nat) : mockState (after n).
Proof.
  induction n as [| n IH].
  - split; [reflexivity | left; split; reflexivity].
  - unfold after. rewrite stateAfter_S. fold after. fold (turn n).
    destruct IH as [Hs Ht].
    destruct (mock_turn_cases n) as [H | [object [prompt [Hall [Hne H]]]]];
      rewrite H; unfold mockState, extend;
      cbn [identifiedTopics identifiedSubCategories llmCalls].
    + split; [exact Hs |]. rewrite app_nil_r. exact Ht.
    + unfold ctxOf. rewrite Hs.
      assert (identifiedTopics (after n) = [] \/
              identifiedTopics (after n) = mockTopics) as Hcases
          by (destruct Ht as [[Ht _] | [Ht _]]; auto).
      rewrite (normalize_mock_context object Hall _ Hcases). cbn [fst snd].
      split; [reflexivity |]. right. split.
      * destruct object; [contradiction | reflexivity].
      * intros Hnil. apply app_eq_nil in Hnil. destruct Hnil as [_ Hnil].
        discriminate Hnil.
Qed.

Lemma mock_sent (n : nat) (msg : StreamMessage) :
  In msg (sent (after n)) ->
  (exists index total, msg = batchStart index total) \/
  (exists data,
     msg = result data /\ Llm.categorizations data = mockCategorizations).
Proof.
  intros Hin.
  apply (sent_after_In c runId studentIdHeader questionHeaders rows) in Hin.
  destruct Hin as [k [_ Hin]]. fold (turn k) in Hin.
  destruct (mock_turn_cases k) as [H | [object [prompt [Hall [_ H]]]]];
    rewrite H in Hin; cbn [sent] in Hin.
  - destruct Hin as [<- | []]. left. eauto.
  - destruct Hin as [<- | Hin]; [left; eauto |].
    apply in_map_iff in Hin. destruct Hin as [d [<- Hd]].
    apply in_map_iff in Hd. destruct Hd as [s [<- Hs]].
    right. eexists. split; [reflexivity |].
    apply normalizedStudent_mock, Hall, Hs.
Qed.

Hypothesis Hnames :
  forall q, In q questionHeaders -> isCategorical q = false ->
            header q <> "Mock Question 1" /\ header q <> "Mock Question 2".

Lemma mock_not_processed :
  filter (processedByAi (filter isQualitative questionHeaders))
         mockCategorizations = [].
Proof.
  assert (forall h, h = "Mock Question 1" \/ h = "Mock Question 2" ->
            existsb (header_is h) (filter isQualitative questionHeaders)
            = false) as H.
  { intros h Hh. apply not_true_is_false. intros Hex.
    apply existsb_exists in Hex. destruct Hex as [q [Hq Hhead]].
    apply filter_In in Hq. destruct Hq as [Hq Hqual].
    unfold isQualitative in Hqual. apply negb_true_iff in Hqual.
    unfold header_is in Hhead. apply String.eqb_eq in Hhead.
    destruct (Hnames q Hq Hqual) as [H1 H2].
    destruct Hh as [-> | ->]; contradiction. }
  unfold mockCategorizations, processedByAi. cbn [filter Llm.question].
  rewrite !H by auto. reflexivity.
Qed.

Lemma mock_turn_ledger (k : nat) :
  allRunCategorizations (turn k)
  = batchCategorical runId studentIdHeader questionHeaders rows k.
Proof.
  destruct (mock_turn_cases k) as [H | [object [prompt [Hall [_ H]]]]];
    rewrite H; cbn [allRunCategorizations]; [reflexivity |].
  assert (List.concat
            (map (aiRecords runId studentIdHeader
                    (filter isQualitative questionHeaders)
                    (k * BATCH_SIZE) (batchRows rows k))
                 (map normalizedStudent object)) = []) as Hnil.
  { apply concat_nil_Forall. apply Forall_forall. intros l Hl.
    apply in_map_iff in Hl. destruct Hl as [d [<- Hd]].
    apply in_map_iff in Hd. destruct Hd as [s [<- Hs]].
    unfold aiRecords.
    rewrite (normalizedStudent_mock s (Hall s Hs)), mock_not_processed.
    destruct (findOriginalRow _ _ _ _ _); reflexivity. }
  rewrite Hnil. apply app_nil_r.
Qed.

Lemma mock_ledger (n : nat) :
  n <= ceilDiv (List.length rows) BATCH_SIZE ->
  allRunCategorizations (after n)
  = categoricalPass runId studentIdHeader (filter isCategorical questionHeaders)
      0 (firstn (n * BATCH_SIZE) rows).
Proof.
  induction n as [| n IH]; intros Hn; [reflexivity |].
  unfold after. rewrite stateAfter_S. fold after. fold (turn n).
  unfold extend. cbn [allRunCategorizations].
  rewrite IH by lia. rewrite mock_turn_ledger.
  unfold batchCategorical, batchRows, slice.
  replace (n * BATCH_SIZE + BATCH_SIZE - n * BATCH_SIZE) with BATCH_SIZE by lia.
  replace (S n * BATCH_SIZE) with (n * BATCH_SIZE + BATCH_SIZE) by lia.
  rewrite RunExtras.firstn_plus, RunExtras.categoricalPass_app.
  f_equal. f_equal.
  rewrite length_firstn. symmetry. apply Nat.min_l.
  assert (n < ceilDiv (List.length rows) BATCH_SIZE) as Hlt by lia.
  apply ceilDiv_gt in Hlt. lia.
Qed.

End MockRun.

(** X15. In mock mode no batch fails; every result event carries the two mock
    categorizations; the identified topics are the two mock topics as soon
    as one call was made, and there is no identified sub-category; and
    unless a qualitative question is named "Mock Question 1" or "Mock
    Question 2", no result of the mock reaches the ledger, which then
    holds the categorical records only. *)
Theorem mock_mode_run (env : Env) (c : Collaborators) (req : Request)
  (m : ConfirmedMapping) :
  Accepted env req m ->
  usesMock c ->
  exists final,
    POST env c req = Some (EventStream final) /\
    (forall message b, ~ In (error message (Some b)) (sent final)) /\
    (forall data,
       In (result data) (sent final) ->
       Llm.categorizations data = mockCategorizations) /\
    identifiedTopics final
    = match llmCalls final with
      | [] => []
      | _ :: _ => ["mock_topic_1"; "mock_topic_2"]
      end /\
    identifiedSubCategories final = [] /\
    ((forall q, In q (questionHeaders m) -> isCategorical q = false ->
                header q <> "Mock Question 1" /\ header q <> "Mock Question 2") ->
     allRunCategorizations final
     = List.concat
         (mapi (fun row index =>
                  map (categoricalRecord (runId req) (studentIdHeader m) 0
                         row index)
                      (filter isCategorical (questionHeaders m)))
               (rows req))).
Proof.
  intros Hacc Hmock.
  destruct (closing_events env c req m Hacc)
    as [final [s [mid [save [HP [HL [HC [HS [_ [Hmid Hsave]]]]]]]]]].
  pose proof (accepted_run env c req m Hacc) as [final' [HP' [_ [_ [_ HX]]]]].
  rewrite HP in HP'. inversion HP'; subst final'. clear HP'.
  unfold ctxOf in HX. injection HX as HT HSub.
  pose proof (mock_stateAfter c (runId req) (studentIdHeader m)
                (questionHeaders m) (rows req) Hmock (totalBatchesOf req))
    as [Hsub Htop].
  fold (runAfter c req m (totalBatchesOf req)) in Hsub, Htop.
  exists final. split; [exact HP |].
  assert (forall msg,
            In msg (sent final) ->
            (exists index total, msg = batchStart index total) \/
            (exists data, msg = result data /\
                          Llm.categorizations data = mockCategorizations) \/
            (exists data, msg = stats data) \/
            (exists text, msg = summary text) \/
            (exists message, msg = error message None) \/
            (exists message, msg = complete message)) as Hkinds.
  { intros msg Hin. rewrite HS in Hin.
    apply in_app_or in Hin. destruct Hin as [Hin | Hin].
    - apply (mock_sent c (runId req) (studentIdHeader m) (questionHeaders m)
               (rows req) Hmock) in Hin.
      destruct Hin as [Hin | Hin]; auto.
    - simpl in Hin. destruct Hin as [<- | [<- | Hin]].
      + right; right; left. eauto.
      + destruct Hmid as [[t ->] | [e [_ [_ [_ ->]]]]].
        * right; right; right; left. eauto.
        * right; right; right; right; left. eauto.
      + apply in_app_or in Hin. destruct Hin as [Hin | [<- | []]].
        * destruct Hsave as [-> | [t ->]]; [contradiction |].
          destruct Hin as [<- | []]. right; right; right; right; left. eauto.
        * right; right; right; right; right. unfold completeEvent. eauto. }
  split.
  { intros message b Hin. apply Hkinds in Hin.
    destruct Hin as [[? [? H]] | [[? [H _]] | [[? H] | [[? H] | [[? H] | [? H]]]]]];
      discriminate H. }
  split.
  { intros data Hin. apply Hkinds in Hin.
    destruct Hin as [[? [? H]] | [[d [H Hd]] | [[? H] | [[? H] | [[? H] | [? H]]]]]];
      try discriminate H.
    injection H as ->. exact Hd. }
  split.
  { rewrite HT, HC.
    destruct Htop as [[Ht Hl] | [Ht Hl]]; rewrite Ht.
    - rewrite Hl. reflexivity.
    - destruct (llmCalls (runAfter c req m (totalBatchesOf req)));
        [contradiction | reflexivity]. }
  split; [rewrite HSub; exact Hsub |].
  intros Hnames. rewrite HL.
  unfold runAfter.
  rewrite (mock_ledger c (runId req) (studentIdHeader m) (questionHeaders m)
             (rows req) Hmock Hnames (totalBatchesOf req) (Nat.le_refl _)).
  rewrite firstn_all2 by (apply ceilDiv_le; apply Nat.le_refl).
  reflexivity.
Qed.

Lemma mock_mode_run_witness :
  exists final,
    POST Scenarios.envMock Scenarios.mockCollaborators Scenarios.request
    = Some (EventStream final) /\
    (forall message b, ~ In (error message (Some b)) (sent final)) /\
    (forall data,
       In (result data) (sent final) ->
       Llm.categorizations data = mockCategorizations) /\
    identifiedTopics final
    = match llmCalls final with
      | [] => []
      | _ :: _ => ["mock_topic_1"; "mock_topic_2"]
      end /\
    identifiedSubCategories final = [] /\
    ((forall q, In q [Scenarios.rating; Scenarios.comments] ->
                isCategorical q = false ->
                header q <> "Mock Question 1" /\ header q <> "Mock Question 2") ->
     allRunCategorizations final
     = List.concat
         (mapi (fun row index =>
                  map (categoricalRecord "run-1" "Email" 0 row index)
                      (filter isCategorical
                              [Scenarios.rating; Scenarios.comments]))
               [Scenarios.row1])).
Proof.
  apply (mock_mode_run Scenarios.envMock Scenarios.mockCollaborators
           Scenarios.request Scenarios.mapping).
  - repeat split.
  - intros batchNumber prompt. eexists. reflexivity.
Defined.

End MockFacts.

(** * The three answers of the categorizer *)

Module ResponseFacts.
Import Js Process Run ProcessFacts.

(** X16. A request whose body has parsed to the expected types (a run
    identifier, a mapping with its question headers, rows that are
    objects) is answered in exactly one of three ways: the 400
    response "Invalid request payload" when the basic validation fails;
    a stream of one error event, with no batch started and no LLM call,
    when the credentials of the store are missing; and otherwise a stream
    that ends with the complete event naming the number of rows, which is
    its only complete event. *)
Theorem process_response_cases (env : Env) (c : Collaborators) (req : Request) :
  (invalidPayload req = true /\
   POST env c req = Some (Response400 (error "Invalid request payload" None)))
  \/
  (exists m,
     confirmedMapping req = Some m /\ invalidPayload req = false /\
     env_missing (SUPABASE_URL env) || env_missing (SUPABASE_ANON_KEY env) = true /\
     POST env c req
     = Some (EventStream
               (mkRunState
                  [error "Server error: Missing Supabase environment variables"
                         None]
                  [] [] [] [])))
  \/
  (exists m final events,
     Accepted env req m /\
     POST env c req = Some (EventStream final) /\
     sent final
     = (events
        ++ [complete ("Processing and statistics finished for "
                      ++ nat_to_string (List.length (rows req)) ++ " rows.")])%list /\
     forall text, ~ In (complete text) events).
Proof.
  destruct (invalidPayload req) eqn:Hvalid.
  - left. split; [reflexivity |]. apply POST_invalid_payload. exact Hvalid.
  - right.
    destruct (confirmedMapping req) as [m |] eqn:Hm;
      [| unfold invalidPayload in Hvalid; rewrite Hm in Hvalid;
         discriminate Hvalid].
    destruct (env_missing (SUPABASE_URL env)
              || env_missing (SUPABASE_ANON_KEY env)) eqn:Hmissing.
    + left. exists m. split; [reflexivity |]. split; [reflexivity |].
      split; [reflexivity |].
      apply (POST_setup_failure env c req m Hm Hvalid Hmissing).
    + right.
      assert (Accepted env req m) as Hacc.
      { split; [| split; assumption].
        unfold getSupabaseCredentials. rewrite Hmissing. reflexivity. }
      destruct (closing_events env c req m Hacc)
        as [final [s [mid [save [HP [_ [_ [HS [_ [Hmid Hsave]]]]]]]]]].
      exists m, final,
        (sent (runAfter c req m (totalBatchesOf req)) ++ stats s :: mid :: save)%list.
      split; [exact Hacc |]. split; [exact HP |]. split.
      * rewrite HS. rewrite <- app_assoc. reflexivity.
      * intros text Hin. apply in_app_or in Hin. destruct Hin as [Hin | Hin].
        -- unfold runAfter in Hin. apply RunExtras.loop_events_kind in Hin.
           destruct Hin as [[i [t H]] | [[d H] | [msg [b H]]]]; discriminate H.
        -- simpl in Hin. destruct Hin as [H | [H | Hin]]; [discriminate H | |].
           ++ destruct Hmid as [[t ->] | [e [_ [_ [_ ->]]]]]; discriminate H.
           ++ destruct Hsave as [-> | [t ->]]; [contradiction |].
              destruct Hin as [H | []]. discriminate H.
Qed.

End ResponseFacts.
